(** * gitmanager: configuration resolution engine

  A shallow embedding of [access/config.py] and [access/course.py]:
  the include resolver, the tag processor, the course/exercise cache and
  the structural validators of the course tree, followed by the proofs
  that relate them to the written specification. *)

From Stdlib Require Import ZArith String Ascii List Lia Bool.
From Stdlib Require Import Sorting.Permutation DecimalString.
From stdpp Require Import base list strings gmap sorting.

Set Warnings "-register-all,-clear-no-such-hyp".
Local Open Scope Z_scope.
Local Open Scope nat_scope.

(** ** Python values

  Parsed JSON/YAML documents.  Mappings are insertion-ordered, as Python
  dictionaries are; mapping keys are strings.

  A [string] stands for a Python [str] character by character: each
  [ascii] is one character, the one whose code point is its number, so the
  strings of the model are the [str]s whose code points are below 256.
  [String.length] is [len], and the order of [ascii] numbers is the order
  of code points that Python compares strings by.  A [str] with a larger
  code point has no counterpart here. *)

Inductive value : Type :=
| VNone
| VBool (b : bool)
| VInt (z : Z)
| VStr (s : string)
| VList (l : list value)
| VDict (d : list (string * value)).

Abbreviation dict := (list (string * value)).

Module Py.

(** [k in d] *)
Fixpoint dict_has {A} (k : string) (d : list (string * A)) : bool :=
  match d with
  | [] => false
  | (k', _) :: r => if String.eqb k k' then true else dict_has k r
  end.

(** [d.get(k)] *)
Fixpoint dict_get {A} (k : string) (d : list (string * A)) : option A :=
  match d with
  | [] => None
  | (k', v) :: r => if String.eqb k k' then Some v else dict_get k r
  end.

(** [d[k] = v]: an existing key keeps its position, a new key goes last. *)
Fixpoint dict_set {A} (k : string) (v : A) (d : list (string * A))
  : list (string * A) :=
  match d with
  | [] => [(k, v)]
  | (k', v') :: r =>
      if String.eqb k k' then (k, v) :: r else (k', v') :: dict_set k v r
  end.

Definition dict_keys {A} (d : list (string * A)) : list string := map fst d.
Definition dict_values {A} (d : list (string * A)) : list A := map snd d.

(** [d.update(other)] for a mapping [other]. *)
Definition dict_update {A} (d other : list (string * A)) : list (string * A) :=
  fold_left (fun acc kv => dict_set (fst kv) (snd kv) acc) other d.

(** [del d[k]]: the mapping without the key [k]; what [d.pop(k)] leaves. *)
Definition dict_del {A} (k : string) (d : list (string * A))
  : list (string * A) :=
  List.filter (fun kv => negb (String.eqb k (fst kv))) d.

End Py.


(** ** Exceptions and results *)

(** The texts of the [ConfigError]s, with the values the format strings
    are filled with. *)
Inductive message : Type :=
| RequiredFieldMissing (name file_name : string)
| MultipleConfigFiles (path : string)
| NoSupportedConfig (path : string)
| UnsupportedFormat (path : string)
| ConfigurationErrorIn (path : string)
| KeyAlreadyExists (new_key : string) (old_value : value)
                   (target_file : string) (new_value : value)
                   (include_file : string)
| UnsupportedProcessorTag (tag : string)
| FailedToParse (f : string).

(** Exceptions.  [ExternalError] is an exception of a collaborator
    (template or markup renderer).  The last two are not Python's:
    [Unmodelled] marks a behaviour that leaves the modelled fragment (a
    mapping key that is not a string, the [repr] of a container), and
    [OutOfFuel] a recursion that ran out of fuel. *)
Inductive exn : Type :=
| ConfigError (m : message)
| OSError
| AttributeError
| TypeError
| ValueError
| KeyError
| IndexError
| YAMLError
| ExternalError
| Unmodelled
| OutOfFuel.

Inductive result (A : Type) : Type :=
| Ok (a : A)
| Raise (e : exn).
Arguments Ok {A} a.
Arguments Raise {A} e.

Definition bind {A B} (m : result A) (k : A -> result B) : result B :=
  match m with
  | Ok a => k a
  | Raise e => Raise e
  end.

Notation "x <- y ; z" := (bind y (fun x => z))
  (at level 20, y at level 100, z at level 200, only parsing).
Notation "' x <- y ; z" := (bind y (fun x => z))
  (at level 20, x pattern, y at level 100, z at level 200, only parsing).

(** The result of a collaborator that may raise. *)
Definition external {A} (r : option A) : result A :=
  match r with
  | Some a => Ok a
  | None => Raise ExternalError
  end.

(** [for x in l: acc = f(acc, x)], stopping at the first exception. *)
Fixpoint foldM {A B} (f : A -> B -> result A) (l : list B) (acc : A)
  : result A :=
  match l with
  | [] => Ok acc
  | x :: r => acc' <- f acc x; foldM f r acc'
  end.

(** What [data_for_language] returns is one of the stored objects, not a
    copy: [self.data] itself, or the variant [self.data[lang]]. *)
Inductive selected : Type :=
| WholeSet
| Variant (lang : string).

(** ** Python built-in operations on values *)

Module Builtins.
Import Py.

(** [a == b] *)
Fixpoint eqb (a b : value) : bool :=
  match a, b with
  | VNone, VNone => true
  | VBool x, VBool y => Bool.eqb x y
  | VBool x, VInt y => Z.eqb (if x then 1 else 0) y
  | VInt x, VBool y => Z.eqb x (if y then 1 else 0)
  | VInt x, VInt y => Z.eqb x y
  | VStr x, VStr y => String.eqb x y
  | VList l1, VList l2 =>
      (fix go (l1 l2 : list value) : bool :=
         match l1, l2 with
         | [], [] => true
         | x :: r1, y :: r2 => eqb x y && go r1 r2
         | _, _ => false
         end) l1 l2
  | VDict d1, VDict d2 =>
      Nat.eqb (length d1) (length d2) &&
      (fix go (d1 : list (string * value)) : bool :=
         match d1 with
         | [] => true
         | (k, v) :: r =>
             match dict_get k d2 with
             | Some w => eqb v w && go r
             | None => false
             end
         end) d1
  | _, _ => false
  end.

(** [bool(v)] *)
Definition truthy (v : value) : bool :=
  match v with
  | VNone => false
  | VBool b => b
  | VInt z => negb (Z.eqb z 0)
  | VStr s => negb (String.eqb s "")
  | VList l => negb (Nat.eqb (length l) 0)
  | VDict d => negb (Nat.eqb (length d) 0)
  end.

(** [s1 in s2] for strings *)
Definition is_substring (s1 s2 : string) : bool :=
  match String.index 0 s1 s2 with
  | Some _ => true
  | None => false
  end.

(** [x in c] *)
Definition contains (x c : value) : result bool :=
  match c with
  | VDict d =>
      match x with
      | VStr s => Ok (dict_has s d)
      | VList _ | VDict _ => Raise TypeError
      | _ => Ok false
      end
  | VList l => Ok (existsb (eqb x) l)
  | VStr t =>
      match x with
      | VStr s => Ok (is_substring s t)
      | _ => Raise TypeError
      end
  | _ => Raise TypeError
  end.

(** [l[z]] for a sequence of length [length l], negative indices counted
    from the end. *)
Definition seq_index {A} (l : list A) (z : Z) : result A :=
  let n := Z.of_nat (length l) in
  let i := if Z.ltb z 0 then Z.add z n else z in
  if Z.ltb i 0 then Raise IndexError
  else match nth_error l (Z.to_nat i) with
       | Some a => Ok a
       | None => Raise IndexError
       end.

Definition chars (s : string) : list value :=
  map (fun a => VStr (String a EmptyString)) (list_ascii_of_string s).

(** [c[x]] *)
Definition getitem (c x : value) : result value :=
  match c with
  | VDict d =>
      match x with
      | VStr s => match dict_get s d with
                  | Some v => Ok v
                  | None => Raise KeyError
                  end
      | VList _ | VDict _ => Raise TypeError
      | _ => Raise KeyError
      end
  | VList l =>
      match x with
      | VInt z => seq_index l z
      | VBool b => seq_index l (if b then 1 else 0)%Z
      | _ => Raise TypeError
      end
  | VStr s =>
      match x with
      | VInt z => seq_index (chars s) z
      | VBool b => seq_index (chars s) (if b then 1 else 0)%Z
      | _ => Raise TypeError
      end
  | _ => Raise TypeError
  end.

(** [c[k] = v] *)
Definition setitem (c : value) (k : string) (v : value) : result value :=
  match c with
  | VDict d => Ok (VDict (dict_set k v d))
  | _ => Raise TypeError
  end.

(** [for x in c] *)
Definition iter (c : value) : result (list value) :=
  match c with
  | VList l => Ok l
  | VDict d => Ok (map VStr (dict_keys d))
  | VStr s => Ok (chars s)
  | _ => Raise TypeError
  end.

(** [str(v)] *)
Definition str (v : value) : result string :=
  match v with
  | VStr s => Ok s
  | VInt z => Ok (NilZero.string_of_int (Z.to_int z))
  | VBool true => Ok "True"
  | VBool false => Ok "False"
  | VNone => Ok "None"
  | VList _ | VDict _ => Raise Unmodelled
  end.

(** [s.startswith(p)] *)
Definition startswith (s p : string) : bool := String.prefix p s.

(** [s.endswith(c)] for a character *)
Fixpoint endswith (s : string) (c : ascii) : bool :=
  match s with
  | EmptyString => false
  | String a EmptyString => Ascii.eqb a c
  | String _ r => endswith r c
  end.

(** One element of the argument of [d.update(seq)]: a sequence of
    exactly two items, the key and the value. *)
Definition pair_of (e : value) : result (value * value) :=
  match iter e with
  | Raise _ => Raise TypeError
  | Ok [k; v] => Ok (k, v)
  | Ok _ => Raise ValueError
  end.

Definition update_pair (d : dict) (e : value) : result dict :=
  '(k, v) <- pair_of e;
  match k with
  | VStr s => Ok (dict_set s v d)
  | VList _ | VDict _ => Raise TypeError
  | _ => Raise Unmodelled
  end.

(** [d.update(other)]: from a mapping, or from a sequence of pairs. *)
Definition update (d : dict) (other : value) : result dict :=
  match other with
  | VDict n => Ok (dict_update d n)
  | _ =>
      match iter other with
      | Raise _ => Raise TypeError
      | Ok pairs => foldM update_pair pairs d
      end
  end.

(** [other.items()] *)
Definition items (other : value) : result (list (string * value)) :=
  match other with
  | VDict n => Ok n
  | _ => Raise AttributeError
  end.

End Builtins.

(** ** os.path (posixpath) *)

Module OsPath.

(** [p.rfind(c)], [None] for [-1] *)
Fixpoint rfind (c : ascii) (s : string) : option nat :=
  match s with
  | EmptyString => None
  | String a r =>
      match rfind c r with
      | Some i => Some (S i)
      | None => if Ascii.eqb a c then Some 0 else None
      end
  end.

(** [p[:i]] and [p[i:]] *)
Definition take (i : nat) (p : string) : string := String.substring 0 i p.
Definition drop (i : nat) (p : string) : string :=
  String.substring i (String.length p - i) p.

Definition sep : ascii := "/"%char.
Definition extsep : ascii := "."%char.

Fixpoint all_char (c : ascii) (s : string) : bool :=
  match s with
  | EmptyString => true
  | String a r => Ascii.eqb a c && all_char c r
  end.

(** [s.rstrip(c)] *)
Fixpoint rstrip (c : ascii) (s : string) : string :=
  match s with
  | EmptyString => EmptyString
  | String a r =>
      match rstrip c r with
      | EmptyString => if Ascii.eqb a c then EmptyString
                       else String a EmptyString
      | r' => String a r'
      end
  end.

(** [os.path.join(a, b)] *)
Definition join (a b : string) : string :=
  if Builtins.startswith b "/" then b
  else if String.eqb a "" || Builtins.endswith a sep then a +:+ b
       else a +:+ "/" +:+ b.

(** [os.path.dirname(p)] *)
Definition dirname (p : string) : string :=
  let i := match rfind sep p with Some i => S i | None => 0 end in
  let head := take i p in
  if negb (String.eqb head "") && negb (all_char sep head)
  then rstrip sep head else head.

(** [os.path.splitext(p)] *)
Definition splitext (p : string) : string * string :=
  let filenameIndex := match rfind sep p with Some i => S i | None => 0 end in
  match rfind extsep p with
  | Some dotIndex =>
      if Nat.leb filenameIndex dotIndex &&
         negb (all_char extsep
                 (String.substring filenameIndex (dotIndex - filenameIndex) p))
      then (take dotIndex p, drop dotIndex p)
      else (p, EmptyString)
  | None => (p, EmptyString)
  end.

(** [os.path.basename(p)] *)
Definition basename (p : string) : string :=
  drop (match rfind sep p with Some i => S i | None => 0 end) p.

End OsPath.
(** ** access/course.py: the validated course tree *)

Module AccessCourse.
Import Py.

(** [class ExerciseConfig(PydanticModel)] *)
Module ExerciseConfig.

Record t : Type :=
  mk { data : list (string * dict);
       file : string;
       mtime : Z;
       ptime : Z;
       default_lang : string }.

(** The object a selection denotes, in a given state of the record. *)
Definition deref (self : t) (s : selected) : option value :=
  match s with
  | WholeSet => Some (VDict (map (fun kv => (fst kv, VDict (snd kv))) (data self)))
  | Variant lang => option_map VDict (dict_get lang (data self))
  end.

(** [for lang in (lang, self.default_lang)]: the first candidate that is a
    key of [self.data] is stamped into its variant and selected.  [None]
    is no key of the mapping. *)
Fixpoint try_languages (self : t) (candidates : list (option string))
  : option (selected * t) :=
  match candidates with
  | [] => None
  | None :: rest => try_languages self rest
  | Some lang :: rest =>
      match dict_get lang (data self) with
      | Some variant =>
          let variant := dict_set "lang" (VStr lang) variant in
          Some (Variant lang,
                mk (dict_set lang variant (data self)) (file self)
                   (mtime self) (ptime self) (default_lang self))
      | None => try_languages self rest
      end
  end.

(** [ExerciseConfig.data_for_language]: the selection and the record
    after the call. *)
Definition data_for_language (self : t) (lang : option string)
  : result selected * t :=
  if bool_decide (lang = Some "_root") then (Ok WholeSet, self)
  else
    match try_languages self [lang; Some (default_lang self)] with
    | Some (s, self') => (Ok s, self')
    | None =>
        match data self with
        | (k, _) :: _ => (Ok (Variant k), self)
        | [] => (Raise IndexError, self)
        end
    end.

End ExerciseConfig.

(** The four concrete subclasses of [Item]. *)
Inductive ItemKind := Chapter | Exercise | LTIExercise | ExerciseCollection.

(** [class Item(Parent)]: the fields the tree validators read.  The
    remaining fields (status, order, urls, ...) take no part in them. *)
Inductive Item : Type :=
  mkItem { item_kind : ItemKind;
           item_key : string;
           item_category : string;
           item_children : list Item }.

(** [class Module(Parent)] *)
Record Module_ : Type :=
  mkModule { module_name : string;
             module_key : string;
             module_children : list Item }.

(** [class Parent]: whatever owns a [children] list. *)
Class Parent (A : Type) := children : A -> list Item.
#[export] Instance Item_Parent : Parent Item := item_children.
#[export] Instance Module_Parent : Parent Module_ := module_children.

(** [Parent.child_keys] at an item:
    [keys.append(c.key); keys.extend(c.child_keys())] for each child. *)
Fixpoint Item_child_keys (p : Item) : list string :=
  match p with
  | mkItem _ _ _ cs =>
      fold_left (fun keys c => (keys ++ [item_key c]) ++ Item_child_keys c) cs []
  end.

(** [Parent.child_keys], for any parent. *)
Definition child_keys {A} `{Parent A} (self : A) : list string :=
  fold_left (fun keys c => (keys ++ [item_key c]) ++ Item_child_keys c)
            (children self) [].

(** [Parent.child_categories] at an item:
    [categories.add(c.category)], then [categories.union(...)], whose
    value (a new set) is dropped: [set.union] does not update in place. *)
Fixpoint Item_child_categories (p : Item) : gset string :=
  match p with
  | mkItem _ _ _ cs =>
      fold_left (fun categories c =>
                   let categories := {[ item_category c ]} ∪ categories in
                   let _ := categories ∪ Item_child_categories c in
                   categories) cs ∅
  end.

(** [Parent.child_categories], for any parent. *)
Definition child_categories {A} `{Parent A} (self : A) : gset string :=
  fold_left (fun categories c =>
               let categories := {[ item_category c ]} ∪ categories in
               let _ := categories ∪ Item_child_categories c in
               categories) (children self) ∅.

(** [Item.name_or_title] and [Module.name_or_title], the same code: a
    [pre] root validator, run on the raw mapping.  [title] is another name
    for [name]; [values.pop("title")] takes the entry out and the
    assignment puts its value under [name]. *)
Definition name_or_title (values : dict) : result dict :=
  if dict_has "name" values && dict_has "title" values
  then Raise ValueError
  else
    match dict_get "title" values with
    | Some title => Ok (dict_set "name" title (dict_del "title" values))
    | None => Ok values
    end.

(** [Item.remove_fields]: the comprehension keeps the entries whose key
    does not start with an underscore ([k[0]] of the empty key raises
    [IndexError]); then [scale_points] is popped. *)
Definition remove_fields (values : dict) : result dict :=
  kept <- foldM (fun (kept : dict) '(k, v) =>
                   first <- Builtins.getitem (VStr k) (VInt 0);
                   if negb (Builtins.eqb first (VStr "_"))
                   then Ok (dict_set k v kept)
                   else Ok kept)
                values [];
  Ok (dict_del "scale_points" kept).

(** The two [pre] root validators of [Item], in declaration order. *)
Definition Item_pre_validate (values : dict) : result dict :=
  values <- name_or_title values;
  remove_fields values.

(** [class Course]: [name], [modules] and [categories]; the other fields
    are not read by the key and category validators. *)
Record Course : Type :=
  mkCourse { name : string;
             modules : list Module_;
             categories : dict }.

(** The [ValueError]s the validators raise. *)
Inductive ValueError : Type :=
| DuplicateModuleKey (k : string)
| CategoryNotFound (c : string)
| DuplicateKeys (duplicates : gset string).

(** The loop of [validate_module_keys]; [keys] are the keys seen so far. *)
Fixpoint validate_module_keys_loop (ms : list Module_) (keys : list string)
  : ValueError + unit :=
  match ms with
  | [] => inr tt
  | m :: rest =>
      if bool_decide (module_key m ∈ keys)
      then inl (DuplicateModuleKey (module_key m))
      else validate_module_keys_loop rest (keys ++ [module_key m])
  end.

(** [Course.validate_module_keys] *)
Definition validate_module_keys (ms : list Module_)
  : ValueError + list Module_ :=
  match validate_module_keys_loop ms [] with
  | inl e => inl e
  | inr _ => inr ms
  end.

(** The inner loop of [validate_categories] over one module's category
    set.  Python leaves the iteration order of a set unspecified; the
    model visits [elements], so which undeclared category is named in
    the error is a choice of the model, whether one is raised is not. *)
Fixpoint check_categories (cs : list string) (declared : dict)
  : ValueError + unit :=
  match cs with
  | [] => inr tt
  | c :: rest =>
      if dict_has c declared then check_categories rest declared
      else inl (CategoryNotFound c)
  end.

(** The outer loop of [validate_categories], over the modules. *)
Fixpoint validate_categories_loop (ms : list Module_) (declared : dict)
  : ValueError + unit :=
  match ms with
  | [] => inr tt
  | m :: rest =>
      match check_categories (elements (child_categories m)) declared with
      | inl e => inl e
      | inr _ => validate_categories_loop rest declared
      end
  end.

(** [Course.validate_categories] *)
Definition validate_categories (values : Course) : ValueError + Course :=
  match validate_categories_loop (modules values) (categories values) with
  | inl e => inl e
  | inr _ => inr values
  end.

(** The loop of [validate_keys] that collects the duplicates:
    state is [(duplicates, keyset)]. *)
Definition collect_duplicates (keys : list string) (keyset : gset string)
  : gset string :=
  fst (fold_left
         (fun '(duplicates, keyset) key =>
            if bool_decide (key ∈ duplicates) then (duplicates, keyset)
            else if bool_decide (key ∉ keyset)
                 then ({[ key ]} ∪ duplicates, keyset)
                 else (duplicates, keyset ∖ {[ key ]}))
         keys (∅, keyset)).

(** The loop of [validate_keys] over the modules: each module's keys are
    checked on their own. *)
Fixpoint validate_keys_loop (ms : list Module_) : ValueError + unit :=
  match ms with
  | [] => inr tt
  | m :: rest =>
      let keys := child_keys m in
      let keyset : gset string := list_to_set keys in
      if negb (Nat.eqb (length keys) (size keyset))
      then inl (DuplicateKeys (collect_duplicates keys keyset))
      else validate_keys_loop rest
  end.

(** [Course.validate_keys] *)
Definition validate_keys (values : Course) : ValueError + Course :=
  match validate_keys_loop (modules values) with
  | inl e => inl e
  | inr _ => inr values
  end.

(** Construction of a [Course] runs the field validator of [modules] and
    then the root validators in declaration order; each root validator is
    declared [skip_on_failure=True], so it is skipped once an error has
    been recorded.  [validate_module_dates] comes last and only adds
    warnings.  The result is the list of errors of the raised
    [ValidationError]; the empty list means none of these checks fails. *)
Definition run_root_validator (v : Course -> ValueError + Course)
           (errors : list ValueError) (values : Course) : list ValueError :=
  match errors with
  | _ :: _ => errors
  | [] => match v values with
          | inl e => [e]
          | inr _ => []
          end
  end.

Definition Course_validate (values : Course) : list ValueError :=
  let errors := match validate_module_keys (modules values) with
                | inl e => [e]
                | inr _ => []
                end in
  let errors := run_root_validator validate_categories errors values in
  let errors := run_root_validator validate_keys errors values in
  errors.

Definition is_DuplicateKeys (e : ValueError) : bool :=
  match e with DuplicateKeys _ => true | _ => false end.
Definition is_CategoryNotFound (e : ValueError) : bool :=
  match e with CategoryNotFound _ => true | _ => false end.

End AccessCourse.

(** ** access/config.py *)

Module AccessConfig.
Import Py Builtins.

Definition META : string := "apps.meta".
Definition INDEX : string := "index".
Definition DEFAULT_LANG : string := "en".

(** What the module reaches outside itself: the filesystem, the two text
    parsers, the template and markup renderers, the course registry, the
    settings and the clock.  Timestamps are integers; only their order is
    used. *)
Class Externals : Type := {
  (** [os.path.getmtime]; [None] when it raises [OSError] *)
  getmtime : string -> option Z;
  isfile : string -> bool;
  isdir : string -> bool;
  (** the text of a file; [None] when [open] raises [OSError] *)
  read_file : string -> option string;
  (** a JSON text parsed; [None] for [JSONDecodeError], a [ValueError] *)
  json_loads : string -> option value;
  (** a YAML text parsed; [None] for [YAMLError] *)
  yaml_loads : string -> option value;
  (** [django_template_loader.render_to_string]; [None] when it raises *)
  render_to_string : string -> value -> option string;
  (** [util.dict.get_rst_as_html]: markup to an HTML string; [None] when
      it raises *)
  get_rst_as_html : value -> option string;
  (** [util.files.read_meta] *)
  read_meta : string -> list (string * string);
  (** [Course.path_to] *)
  path_to : value -> string;
  (** [util.static.symbolic_link(courses_path, data)], called for its
      effect on the filesystem: it reads [data] and returns nothing;
      [None] when it raises *)
  symbolic_link : string -> dict -> option unit;
  COURSES_PATH : string;
  STATIC_URL_HOST_INJECT : string;
  STATIC_URL : string;
  (** [time.time()] *)
  time_time : Z
}.

(** *** ConfigParser *)

Module ConfigParser.
Section WithExternals.
Context `{Externals}.

Inductive loader : Type := json_load | yaml_safe_load.

Definition FORMATS : list (string * loader) :=
  [("json", json_load); ("yaml", yaml_safe_load)].

(** What a loader is called with: an open file, or a [str]. *)
Inductive loader_arg : Type :=
| FileObject (content : string)
| StrObject (s : string).

(** [json.load(fp)] reads [fp.read()], which a [str] does not have;
    [yaml.safe_load(stream)] takes a file or the text itself. *)
Definition call_loader (l : loader) (arg : loader_arg) : result value :=
  match l, arg with
  | json_load, StrObject _ => Raise AttributeError
  | json_load, FileObject content =>
      match json_loads content with
      | Some v => Ok v
      | None => Raise ValueError
      end
  | yaml_safe_load, StrObject s
  | yaml_safe_load, FileObject s =>
      match yaml_loads s with
      | Some v => Ok v
      | None => Raise YAMLError
      end
  end.

(** [open(path)] *)
Definition open (path : string) : result loader_arg :=
  match read_file path with
  | Some content => Ok (FileObject content)
  | None => Raise OSError
  end.

(** [ConfigParser.check_fields] *)
Definition check_fields (file_name : string) (data : value)
           (field_names : list string) : result unit :=
  foldM (fun _ name =>
           present <- contains (VStr name) data;
           if negb present
           then Raise (ConfigError (RequiredFieldMissing name file_name))
           else Ok tt)
        field_names tt.

(** [ext[1:] in ConfigParser.FORMATS] for [ext = splitext(path)[1]] *)
Definition format_of (path : string) : option loader :=
  dict_get (OsPath.drop 1 (snd (OsPath.splitext path))) FORMATS.

(** [ConfigParser.get_config] *)
Definition get_config (path : string) : result string :=
  let ext := snd (OsPath.splitext path) in
  if isfile path && Nat.ltb 0 (String.length ext)
     && dict_has (OsPath.drop 1 ext) FORMATS
  then Ok path
  else
    config_file <-
      (if isdir (OsPath.dirname path)
       then foldM (fun (config_file : option string) ext =>
                     let f := path +:+ "." +:+ ext in
                     if isfile f
                     then match config_file with
                          | Some _ => Raise (ConfigError (MultipleConfigFiles path))
                          | None => Ok (Some f)
                          end
                     else Ok config_file)
                  (dict_keys FORMATS) None
       else Ok None);
    match config_file with
    | Some f => if String.eqb f "" then Raise (ConfigError (NoSupportedConfig path))
                else Ok f
    | None => Raise (ConfigError (NoSupportedConfig path))
    end.

(** [ConfigParser.parse], with the default [loader=None] *)
Definition parse (path : string) : result value :=
  match format_of path with
  | None => Raise (ConfigError (UnsupportedFormat path))
  | Some loader =>
      f <- open path;
      match call_loader loader f with
      | Raise ValueError => Raise (ConfigError (ConfigurationErrorIn path))
      | r => r
      end
  end.

(** [os.path.join(a, b)] where [b] is any value *)
Definition join_value (a : string) (b : value) : result string :=
  match b with
  | VStr s => Ok (OsPath.join a s)
  | _ => Raise TypeError
  end.

(** The part of [_include] that loads one include file: lines 467-484.
    The loader is applied to the rendered text, or to [include_file]
    itself, the path. *)
Definition load_include (include_data : value) (target_file course_dir : string)
  : result (string * value) :=
  _ <- check_fields target_file include_data ["file"];
  file <- getitem include_data (VStr "file");
  path <- join_value course_dir file;
  include_file <- get_config path;
  loader <- match format_of include_file with
            | Some l => Ok l
            | None => Raise KeyError
            end;
  has_context <- contains (VStr "template_context") include_data;
  new_data <-
    (if has_context return result value
     then
       render_context <- getitem include_data (VStr "template_context");
       let template_name := OsPath.join course_dir include_file in
       let template_name :=
         OsPath.drop (String.length COURSES_PATH + 1) template_name in
       rendered <- external (render_to_string template_name render_context);
       call_loader loader (StrObject rendered)
     else
       call_loader loader (StrObject include_file));
  Ok (include_file, new_data).

(** The body of the loop [for new_key, new_value in new_data.items()]. *)
Definition merge_step (target_file include_file : string)
           (return_data : dict) (item : string * value) : result dict :=
  let '(new_key, new_value) := item in
  match dict_get new_key return_data with
  | None => Ok (dict_set new_key new_value return_data)
  | Some old_value =>
      Raise (ConfigError (KeyAlreadyExists new_key old_value
                            target_file new_value include_file))
  end.

(** The part of [_include] that merges one loaded document into
    [return_data]: lines 486-500. *)
Definition merge_include (return_data : dict) (include_data new_data : value)
           (target_file include_file : string) : result dict :=
  has_force <- contains (VStr "force") include_data;
  force <- (if has_force return result bool
            then f <- getitem include_data (VStr "force"); Ok (truthy f)
            else Ok false);
  if force
  then update return_data new_data
  else
    new_items <- items new_data;
    foldM (merge_step target_file include_file) new_items return_data.

(** [ConfigParser._include].  [data.copy()] exists for mappings and
    lists; for a list it is [data["include"]] that raises, a [TypeError]. *)
Definition _include (data : value) (target_file course_dir : string)
  : result dict :=
  return_data <- match data with
                 | VDict d => Ok d
                 | VList _ => Raise TypeError
                 | _ => Raise AttributeError
                 end;
  includes <- getitem data (VStr "include");
  includes <- iter includes;
  foldM (fun (return_data : dict) include_data =>
           '(include_file, new_data) <-
             load_include include_data target_file course_dir;
           merge_include return_data include_data new_data
                         target_file include_file)
        includes return_data.

(** *** The tag processor *)

(** [\w] of a [str] pattern: the underscore and every character that
    [str.isalnum] accepts.  Below 128 these are the digits and the letters;
    from 128 to 255 they are the letters of Latin-1 (192-214, 216-246,
    248-255, the ordinal indicators 170 and 186, the micro sign 181) and its
    numeric characters (the superscripts 178, 179, 185 and the fractions
    188-190). *)
Definition in_range (lo hi n : nat) : bool := Nat.leb lo n && Nat.leb n hi.

Definition is_word_char (a : ascii) : bool :=
  let n := nat_of_ascii a in
  in_range 48 57 n || in_range 65 90 n || Nat.eqb n 95 || in_range 97 122 n
  || Nat.eqb n 170 || in_range 178 179 n || Nat.eqb n 181
  || in_range 185 186 n || in_range 188 190 n || in_range 192 214 n
  || in_range 216 246 n || in_range 248 255 n.

Definition newline : ascii := "010"%char.

Fixpoint all_word (s : string) : bool :=
  match s with
  | EmptyString => true
  | String a r => is_word_char a && all_word r
  end.

Fixpoint has_char (c : ascii) (s : string) : bool :=
  match s with
  | EmptyString => false
  | String a r => Ascii.eqb a c || has_char c r
  end.

(** [PROCESSOR_TAG_REGEX.match(k)] for [^(.+)\|(\w+)$], the two groups.
    The tag holds no bar, so the bar matched is the last one of [k]; [.]
    excludes the newline, and [$] also matches before one final newline. *)
Definition match_tag (k : string) : option (string * string) :=
  match OsPath.rfind "|"%char k with
  | None => None
  | Some i =>
      let name := OsPath.take i k in
      let rest := OsPath.drop (S i) k in
      let tag := if endswith rest newline
                 then OsPath.take (String.length rest - 1) rest else rest in
      if negb (String.eqb name "") && negb (has_char newline name)
         && negb (String.eqb tag "") && all_word tag
      then Some (name, tag) else None
  end.

(** The sort key [(len(x), x)]: by number of characters, then character
    by character in the order of code points. *)
Definition key_leb (a b : string) : bool :=
  Nat.ltb (String.length a) (String.length b)
  || (Nat.eqb (String.length a) (String.length b) && String.leb a b).

Fixpoint insert_key (k : string) (l : list string) : list string :=
  match l with
  | [] => [k]
  | h :: t => if key_leb k h then k :: l else h :: insert_key k t
  end.

(** [sorted(keys, key=lambda x: (len(x), x))] *)
Definition sorted_keys (keys : list string) : list string :=
  fold_right insert_key [] keys.

Inductive processor : Type := i18n | rst.

Definition TAG_PROCESSOR_DICT : list (string * processor) :=
  [("i18n", i18n); ("rst", rst)].

(** [TAG_PROCESSOR_DICT[tag](d, n, v, lang=lang)] *)
Definition run_processor (p : processor) (v : value) (lang : string)
  : result value :=
  match p with
  | i18n =>
      match v with
      | VDict d => Ok (default VNone (dict_get lang d))
      | _ => Raise AttributeError
      end
  | rst => html <- external (get_rst_as_html v); Ok (VStr html)
  end.

(** The two lists [process_tags] closes over. *)
Record closure : Type :=
  mkClosure { lang_keys : list string; tags_processed : list string }.

(** [tags_processed.append(tag)] and, for an [i18n] mapping while
    languages are collected, [lang_keys.extend(v.keys())]. *)
Definition note_tag (tag : string) (v : value) (collect_lang : bool)
           (st : closure) : closure :=
  let st := mkClosure (lang_keys st) (tags_processed st ++ [tag]) in
  match v with
  | VDict d =>
      if collect_lang && String.eqb tag "i18n"
      then mkClosure (lang_keys st ++ dict_keys d) (tags_processed st)
      else st
  | _ => st
  end.

(** The [while m:] loop of [recursion]: strips the tags of [k] from the
    right and applies their processors to [v]. *)
Fixpoint tag_loop (fuel : nat) (k : string) (v : value) (lang : string)
         (collect_lang : bool) (st : closure)
  : result ((string * value) * closure) :=
  match match_tag k with
  | None => Ok ((k, v), st)
  | Some (k', tag) =>
      match fuel with
      | 0 => Raise OutOfFuel
      | S fuel' =>
          let st := note_tag tag v collect_lang st in
          match dict_get tag TAG_PROCESSOR_DICT with
          | None => Raise (ConfigError (UnsupportedProcessorTag tag))
          | Some p =>
              v' <- run_processor p v lang;
              tag_loop fuel' k' v' lang collect_lang st
          end
      end
  end.

(** The body of the loop over the sorted keys of a mapping [n], the
    recursive call being [rec]; the state is [(d, st)]. *)
Definition dict_entry (rec : value -> closure -> result (value * closure))
           (n : dict) (lang : string) (collect_lang : bool)
           (acc : dict * closure) (k : string) : result (dict * closure) :=
  let '(d, st) := acc in
  v <- match dict_get k n with
       | Some v => Ok v
       | None => Raise KeyError
       end;
  '((k', v'), st) <- tag_loop (String.length k) k v lang collect_lang st;
  '(r, st) <- rec v' st;
  Ok (dict_set k' r d, st).

(** One element of the list comprehension over a sequence. *)
Definition list_entry (rec : value -> closure -> result (value * closure))
           (acc : list value * closure) (v : value)
  : result (list value * closure) :=
  let '(l', st) := acc in
  '(r, st) <- rec v st;
  Ok (l' ++ [r], st).

(** The nested function [recursion] of [process_tags]. *)
Fixpoint recursion (fuel : nat) (n : value) (lang : string)
         (collect_lang : bool) (st : closure) : result (value * closure) :=
  match n with
  | VDict n' =>
      match fuel with
      | 0 => Raise OutOfFuel
      | S fuel' =>
          '(d, st) <-
            foldM (dict_entry (fun v => recursion fuel' v lang collect_lang)
                              n' lang collect_lang)
                  (sorted_keys (dict_keys n')) ([], st);
          Ok (VDict d, st)
      end
  | VList l =>
      match fuel with
      | 0 => Raise OutOfFuel
      | S fuel' =>
          '(l', st) <-
            foldM (list_entry (fun v => recursion fuel' v lang collect_lang))
                  l ([], st);
          Ok (VList l', st)
      end
  | _ => Ok (n, st)
  end.

(** Nesting depth of a document: the recursion depth [recursion] needs. *)
Fixpoint depth (v : value) : nat :=
  match v with
  | VList l => S (list_max (map depth l))
  | VDict d => S (list_max (map (fun kv => depth (snd kv)) d))
  | _ => 0
  end.

(** The body of the loop [for lang in ...: root[lang] = recursion(data, lang)] *)
Definition add_variant (fuel : nat) (data : value)
           (acc : list (string * value) * closure) (lang : string)
  : result (list (string * value) * closure) :=
  let '(root, st) := acc in
  '(r, st) <- recursion fuel data lang false st;
  Ok (dict_set lang r root, st).

(** [ConfigParser.process_tags].  The iteration order of the set
    [set(lang_keys) - set([default_lang])] is not specified by Python; the
    model takes [elements]. *)
Definition process_tags (data : value) (default_lang : string)
  : result (list (string * value)) :=
  let fuel := depth data in
  '(default, st) <- recursion fuel data default_lang true (mkClosure [] []);
  let root := [(default_lang, default)] in
  let langs : gset string := list_to_set (lang_keys st) ∖ {[ default_lang ]} in
  '(root, _) <- foldM (add_variant fuel data) (elements langs) (root, st);
  Ok root.

End WithExternals.
End ConfigParser.

(** *** ExerciseConfig *)

Module ExerciseConfig.

(** [course] is read for [self.course.lang] only, a field that is never
    assigned after construction; the record keeps that language. *)
Record t : Type :=
  mk { course_lang : string;
       file : string;
       mtime : Z;
       ptime : Z;
       data : list (string * dict) }.

(** The object a selection denotes, in a given state of the record. *)
Definition deref (self : t) (s : selected) : option value :=
  match s with
  | WholeSet => Some (VDict (map (fun kv => (fst kv, VDict (snd kv))) (data self)))
  | Variant lang => option_map VDict (dict_get lang (data self))
  end.

(** [for lang in (lang, self.course.lang)]: the first candidate that is a
    key of [self.data] is stamped into its variant and selected.  [None]
    is no key of the mapping. *)
Fixpoint try_languages (self : t) (candidates : list (option string))
  : option (selected * t) :=
  match candidates with
  | [] => None
  | None :: rest => try_languages self rest
  | Some lang :: rest =>
      match dict_get lang (data self) with
      | Some variant =>
          let variant := dict_set "lang" (VStr lang) variant in
          Some (Variant lang,
                mk (course_lang self) (file self) (mtime self) (ptime self)
                   (dict_set lang variant (data self)))
      | None => try_languages self rest
      end
  end.

(** [ExerciseConfig.data_for_language]: the selection and the record
    after the call. *)
Definition data_for_language (self : t) (lang : option string)
  : result selected * t :=
  if bool_decide (lang = Some "_root") then (Ok WholeSet, self)
  else
    match try_languages self [lang; Some (course_lang self)] with
    | Some (s, self') => (Ok s, self')
    | None =>
        match data self with
        | (k, _) :: _ => (Ok (Variant k), self)
        | [] => (Raise IndexError, self)
        end
    end.

Section WithExternals.
Context `{Externals}.
Import ConfigParser.

(** [ExerciseConfig.load] *)
Definition load (exercise_key course_dir : string)
  : result (string * Z * value) :=
  config_file <- get_config (OsPath.join course_dir exercise_key);
  data <- parse config_file;
  has_include <- contains (VStr "include") data;
  data <- (if has_include return result value
           then d <- _include data config_file course_dir; Ok (VDict d)
           else Ok data);
  match getmtime config_file with
  | Some t => Ok (config_file, t, data)
  | None => Raise OSError
  end.

End WithExternals.
End ExerciseConfig.

(** *** CourseConfig *)

Module CourseConfig.

Record t : Type :=
  mk { meta : list (string * string);
       file : string;
       mtime : Z;
       ptime : Z;
       data : dict;
       lang : string;
       exercises : list (string * ExerciseConfig.t) }.

(** The class variable [_courses]. *)
Abbreviation courses := (list (string * t)).

(** [l == str]: a document value compared with the type object [str];
    no value equals it. *)
Definition eq_type_str (l : value) : bool := false.

(** [CourseConfig._default_lang]: the value returned and [data] after the
    call. *)
Definition _default_lang (data : dict) : result value * dict :=
  let l := default VNone (dict_get "language" data) in
  let stamped : result dict :=
    match l with
    | VList l' =>
        match l' with
        | first :: _ => Ok (dict_set "lang" first data)
        | [] => Raise IndexError
        end
    | _ => if eq_type_str l then Ok (dict_set "lang" l data) else Ok data
    end in
  match stamped with
  | Ok data => (Ok (default (VStr DEFAULT_LANG) (dict_get "lang" data)), data)
  | Raise e => (Raise e, data)
  end.

Section WithExternals.
Context `{Externals}.
Import ConfigParser.

(** The entries of a value that item assignments have shown to be a
    mapping. *)
Definition as_dict (data : value) : result dict :=
  match data with
  | VDict d => Ok d
  | _ => Raise TypeError
  end.

(** [CourseConfig._conf_dir] *)
Definition _conf_dir (course_key : value) (meta : list (string * string))
  : string :=
  match dict_get "grader_config" meta with
  | Some sub => OsPath.join (path_to course_key) sub
  | None => path_to course_key
  end.

(** The block [# Try cached version.] shared by [get], [course_meta] and
    [exercise_config]: the entry is used when its [mtime] is not older than
    the file's; an [OSError] of the probe is passed over. *)
Definition fresh (entry_mtime : Z) (entry_file : string) : bool :=
  match getmtime entry_file with
  | Some t => Z.geb entry_mtime t
  | None => false
  end.

(** [CourseConfig.course_meta] *)
Definition course_meta (course_key : string) (_courses : courses)
  : list (string * string) :=
  match dict_get course_key _courses with
  | Some course_root =>
      if fresh (mtime course_root) (file course_root)
      then meta course_root
      else read_meta (OsPath.join (path_to (VStr course_key)) META)
  | None => read_meta (OsPath.join (path_to (VStr course_key)) META)
  end.

(** One round of the loop of [recurse_exercises] after
    [if "key" in exercise_vars]: the config reference of an exercise. *)
Definition exercise_cfg (data exercise_vars : value) : result value :=
  has_config <- contains (VStr "config") exercise_vars;
  if has_config then getitem exercise_vars (VStr "config")
  else
    has_type <- contains (VStr "type") exercise_vars;
    if negb has_type then Ok VNone else
    has_types <- contains (VStr "exercise_types") data;
    if negb has_types then Ok VNone else
    type <- getitem exercise_vars (VStr "type");
    exercise_types <- getitem data (VStr "exercise_types");
    known <- contains type exercise_types;
    if negb known then Ok VNone else
    exercise_type <- getitem exercise_types type;
    type_has_config <- contains (VStr "config") exercise_type;
    if negb type_has_config then Ok VNone else
    getitem exercise_type (VStr "config").

(** The nested function [recurse_exercises] of [get]; the state is
    [(keys, config_files)]. *)
Fixpoint recurse_exercises (fuel : nat) (data parent : value)
         (acc : list string * dict) : result (list string * dict) :=
  has_children <- contains (VStr "children") parent;
  if negb has_children then Ok acc else
  children <- getitem parent (VStr "children");
  children <- iter children;
  match fuel with
  | 0 => match children with [] => Ok acc | _ => Raise OutOfFuel end
  | S fuel' =>
      foldM (fun '(keys, config_files) exercise_vars =>
               has_key <- contains (VStr "key") exercise_vars;
               acc <-
                 (if has_key return result (list string * dict)
                  then
                    key <- getitem exercise_vars (VStr "key");
                    exercise_key <- str key;
                    cfg <- exercise_cfg data exercise_vars;
                    if truthy cfg
                    then Ok (keys ++ [exercise_key],
                             dict_set exercise_key cfg config_files)
                    else Ok (keys, config_files)
                  else Ok (keys, config_files));
               recurse_exercises fuel' data exercise_vars acc)
            children acc
  end.

(** The part of [get] after the cache check.  The record has a string
    as its language: a course whose default language is not a string is
    outside the model.  The record is stored in [_courses] before
    [symbolic_link] is called, so an exception of that call leaves [get]
    with the new record in the cache. *)
Definition load_course (course_key : string) (_courses : courses)
  : result (option t) * courses :=
  let meta := course_meta course_key _courses in
  match get_config (OsPath.join (_conf_dir (VStr course_key) meta) INDEX) with
  | Raise (ConfigError _) => (Ok None, _courses)
  | Raise e => (Raise e, _courses)
  | Ok f =>
      let loaded : result t :=
        t <- match getmtime f with
             | Some t => Ok t
             | None => Raise OSError
             end;
        data <- parse f;
        data <- match data with
                | VNone => Raise (ConfigError (FailedToParse f))
                | _ => Ok data
                end;
        _ <- check_fields f data ["name"];
        data <- setitem data "key" (VStr course_key);
        data <- setitem data "mtime" (VInt t);
        data <- setitem data "dir" (VStr (path_to (VStr course_key)));
        has_static <- contains (VStr "static_url") data;
        data <- (if negb has_static return result value
                 then setitem data "static_url"
                        (VStr (STATIC_URL_HOST_INJECT +:+ STATIC_URL
                               +:+ course_key +:+ "/"))
                 else Ok data);
        has_modules <- contains (VStr "modules") data;
        data <-
          (if has_modules return result value
           then
             modules <- getitem data (VStr "modules");
             modules <- iter modules;
             '(keys, config_files) <-
               foldM (fun acc module =>
                        recurse_exercises (ConfigParser.depth data) data module acc)
                     modules ([], []);
             data <- setitem data "exercises" (VList (map VStr keys));
             setitem data "config_files" (VDict config_files)
           else Ok data);
        data <- as_dict data;
        match _default_lang data with
        | (Raise e, _) => Raise e
        | (Ok (VStr lang), data) =>
            Ok (mk meta f t time_time data lang [])
        | (Ok _, _) => Raise Unmodelled
        end in
      match loaded with
      | Ok config =>
          let _courses := dict_set course_key config _courses in
          match external (symbolic_link COURSES_PATH (data config)) with
          | Ok _ => (Ok (Some config), _courses)
          | Raise e => (Raise e, _courses)
          end
      | Raise e => (Raise e, _courses)
      end
  end.

(** [CourseConfig.get]: the result and [_courses] after the call. *)
Definition get (course_key : string) (_courses : courses)
  : result (option t) * courses :=
  match dict_get course_key _courses with
  | Some config =>
      if fresh (mtime config) (file config)
      then (Ok (Some config), _courses)
      else load_course course_key _courses
  | None => load_course course_key _courses
  end.

(** [d.get(k, default)] where [d] is any value *)
Definition get_method (d : value) (k : string) (dflt : value) : result value :=
  match d with
  | VDict d' => Ok (default dflt (dict_get k d'))
  | _ => Raise AttributeError
  end.

(** The loop of [exercise_config] over the language versions. *)
Definition stamp_version (f exercise_key : string) (t : Z) (version : value)
  : result dict :=
  _ <- check_fields f version ["title"; "view_type"];
  version <- setitem version "key" (VStr exercise_key);
  version <- setitem version "mtime" (VInt t);
  as_dict version.

(** [self.exercises[exercise_key] = exercise_root] *)
Definition store_exercise (self : t) (exercise_key : string)
           (exercise_root : ExerciseConfig.t) : t :=
  mk (meta self) (file self) (mtime self) (ptime self) (data self)
     (lang self) (dict_set exercise_key exercise_root (exercises self)).

(** The part of [exercise_config] after the cache check. *)
Definition load_exercise (self : t) (exercise_key : string)
  : result (option ExerciseConfig.t) * t :=
  let loaded : result (option ExerciseConfig.t) :=
    course_key <- getitem (VDict (data self)) (VStr "key");
    file_name <-
      (if dict_has "config_files" (data self) return result value
       then
         config_files <- getitem (VDict (data self)) (VStr "config_files");
         get_method config_files exercise_key (VStr exercise_key)
       else Ok (VStr exercise_key));
    file_name <- match file_name with
                 | VStr s => Ok s
                 | _ => Raise AttributeError
                 end;
    '(f, t, data) <-
      (if startswith file_name "/" return result (string * Z * value)
       then ExerciseConfig.load (OsPath.drop 1 file_name)
                                (_conf_dir course_key [])
       else ExerciseConfig.load file_name
                                (_conf_dir course_key (meta self)));
    if negb (truthy data) then Ok None else
    data <- process_tags data (lang self);
    data <- foldM (fun acc '(l, version) =>
                     version <- stamp_version f exercise_key t version;
                     Ok (acc ++ [(l, version)]))
                  data [];
    Ok (Some (ExerciseConfig.mk (lang self) f t time_time data)) in
  match loaded with
  | Ok (Some exercise_root) =>
      (Ok (Some exercise_root), store_exercise self exercise_key exercise_root)
  | r => (r, self)
  end.

(** [CourseConfig.exercise_config]: the result and [self] after the call. *)
Definition exercise_config (self : t) (exercise_key : string)
  : result (option ExerciseConfig.t) * t :=
  match (exercises <- getitem (VDict (data self)) (VStr "exercises");
         contains (VStr exercise_key) exercises) with
  | Raise e => (Raise e, self)
  | Ok false => (Ok None, self)
  | Ok true =>
      match dict_get exercise_key (exercises self) with
      | Some exercise_root =>
          if fresh (ExerciseConfig.mtime exercise_root)
                   (ExerciseConfig.file exercise_root)
          then (Ok (Some exercise_root), self)
          else load_exercise self exercise_key
      | None => load_exercise self exercise_key
      end
  end.

(** [CourseConfig.exercise_data].  The exercise record that
    [data_for_language] works on is the one held in [self.exercises]. *)
Definition exercise_data (self : t) (exercise_key : string)
           (language : option string)
  : result (option selected) * t :=
  match exercise_config self exercise_key with
  | (Raise e, self) => (Raise e, self)
  | (Ok None, self) => (Ok None, self)
  | (Ok (Some exercise), self) =>
      match ExerciseConfig.data_for_language exercise language with
      | (Raise e, exercise) => (Raise e, store_exercise self exercise_key exercise)
      | (Ok s, exercise) => (Ok (Some s), store_exercise self exercise_key exercise)
      end
  end.

(** [CourseConfig.course_and_exercise_configs].  The course that [get]
    returns is the object held in [_courses], so what [exercise_config]
    stores in it is seen there too. *)
Definition course_and_exercise_configs (course_key exercise_key : string)
           (_courses : courses)
  : result (option t * option ExerciseConfig.t) * courses :=
  match get course_key _courses with
  | (Raise e, _courses) => (Raise e, _courses)
  | (Ok None, _courses) => (Ok (None, None), _courses)
  | (Ok (Some course), _courses) =>
      match exercise_config course exercise_key with
      | (Raise e, course) => (Raise e, dict_set course_key course _courses)
      | (Ok exercise, course) =>
          (Ok (Some course, exercise), dict_set course_key course _courses)
      end
  end.

(** The loop of [all] over the registered courses: a [ConfigError] of
    [get] is logged and the loop goes on; any other exception leaves the
    loop. *)
Fixpoint all_loop (registered : list string) (_courses : courses)
  : result unit * courses :=
  match registered with
  | [] => (Ok tt, _courses)
  | course_key :: rest =>
      match get course_key _courses with
      | (Raise (ConfigError _), _courses) => all_loop rest _courses
      | (Raise e, _courses) => (Raise e, _courses)
      | (Ok _, _courses) => all_loop rest _courses
      end
  end.

(** [CourseConfig.all].  [registered] are the keys of the rows of
    [Course.objects.all()]; the state is the pair of the class variables
    [_courses] and [_dir_mtime].  The value is the list of
    [_courses.values()] when the call returns. *)
Definition all (registered : list string) (_courses : courses) (_dir_mtime : Z)
  : result (list t) * (courses * Z) :=
  match getmtime COURSES_PATH with
  | None => (Raise OSError, (_courses, _dir_mtime))
  | Some t =>
      if Z.ltb _dir_mtime t
      then
        match all_loop registered [] with
        | (Ok _, _courses) => (Ok (dict_values _courses), (_courses, t))
        | (Raise e, _courses) => (Raise e, (_courses, t))
        end
      else (Ok (dict_values _courses), (_courses, _dir_mtime))
  end.

(** What [get_exercise_list] raises: its own [ConfigError], or what
    [exercise_data] raised. *)
Inductive list_error : Type :=
| InvalidExerciseKey (exercise_key file : string)
| Raised (e : exn).

(** The loop of [get_exercise_list]; each element of the list is the
    stored variant that [exercise_data] selected for its exercise. *)
Fixpoint get_exercise_list_loop (self : t) (exercise_keys : list value)
         (exercise_list : list (string * selected))
  : (list_error + list (string * selected)) * t :=
  match exercise_keys with
  | [] => (inr exercise_list, self)
  | VStr exercise_key :: rest =>
      match exercise_data self exercise_key None with
      | (Raise e, self) => (inl (Raised e), self)
      | (Ok None, self) =>
          (inl (InvalidExerciseKey exercise_key (file self)), self)
      | (Ok (Some exercise), self) =>
          get_exercise_list_loop self rest
            (exercise_list ++ [(exercise_key, exercise)])
      end
  | _ :: _ => (inl (Raised Unmodelled), self)
  end.

(** [CourseConfig.get_exercise_list] *)
Definition get_exercise_list (self : t)
  : (list_error + list (string * selected)) * t :=
  match (exercises <- getitem (VDict (data self)) (VStr "exercises");
         iter exercises) with
  | Raise e => (inl (Raised e), self)
  | Ok exercise_keys => get_exercise_list_loop self exercise_keys []
  end.

End WithExternals.
End CourseConfig.

End AccessConfig.

(** ** Definitions that follow the words of the specification *)

Module Spec.
Import Py.

(** Specification, 4.4: "returns the variant for [lang] if present, else
    the variant for the exercise's default language, else an arbitrary
    (first) variant".  The language whose variant is meant, [None] when
    there is no variant at all. *)
Definition data_for_language (data : list (string * dict))
           (default_lang : string) (lang : option string) : option string :=
  let fallback :=
    if dict_has default_lang data then Some default_lang
    else head (dict_keys data) in
  match lang with
  | Some l => if dict_has l data then Some l else fallback
  | None => fallback
  end.

(** Specification, 3: a key [name|tag] names "a transformation applied to
    that key's value before insertion under [name]"; with stacked tags the
    name is what is left of the key when all tag suffixes are taken off. *)
Fixpoint strip_tags (fuel : nat) (k : string) : string :=
  match AccessConfig.ConfigParser.match_tag k with
  | None => k
  | Some (name, _) =>
      match fuel with
      | 0 => k
      | S fuel' => strip_tags fuel' name
      end
  end.

Definition name_of (k : string) : string := strip_tags (String.length k) k.

(** "A document with no processor tags": no mapping key, at any depth,
    matches the tag pattern. *)
Fixpoint no_tags (v : value) : bool :=
  match v with
  | VDict d =>
      forallb (fun kv =>
                 match AccessConfig.ConfigParser.match_tag (fst kv) with
                 | None => no_tags (snd kv)
                 | Some _ => false
                 end) d
  | VList l => forallb no_tags l
  | _ => true
  end.

(** Specification, 4.3: an include entry, once its file has been located
    and parsed: whether the entry declares a true [force], the include
    file, and the mapping that the file holds. *)
Record included : Type :=
  mkIncluded { inc_force : bool; inc_file : string; inc_data : dict }.

(** Specification, 4.3, step 3: "if entry declares [force: true],
    overwrite keys unconditionally; otherwise, each new key must be absent
    from the accumulator - a collision is a fatal error naming both
    conflicting sources and values".  The error is raised for the first
    new key that the accumulator has; the two files it names are the host
    file and the include file being merged. *)
Definition merge (acc : dict) (host_file : string) (entry : included)
  : result dict :=
  if inc_force entry then Ok (dict_update acc (inc_data entry))
  else
    match List.find (fun kv => dict_has (fst kv) acc) (inc_data entry) with
    | Some (new_key, new_value) =>
        Raise (ConfigError
                 (KeyAlreadyExists new_key
                    (default VNone (dict_get new_key acc)) host_file
                    new_value (inc_file entry)))
    | None => Ok (acc ++ inc_data entry)
    end.

(** Specification, 4.3: "Merge order follows include-list order; the host
    document's own keys (outside [include]) seed the accumulator before
    merging begins." *)
Definition include_all (host : dict) (host_file : string)
           (entries : list included) : result dict :=
  foldM (fun acc entry => merge acc host_file entry) entries host.

Section TagResolution.
Context `{AccessConfig.Externals}.

(** Specification, 3: "Supported tags: [i18n] (value is a mapping from
    language code to content; selects content for a given language) and
    [rst] (value is markup text; rendered to an HTML string) ... Unknown
    tags are a hard error."  [None] stands for an error; a language for
    which the mapping has no content selects the null value. *)
Definition apply_tag (tag lang : string) (v : value) : option value :=
  if String.eqb tag "i18n"
  then match v with
       | VDict m => Some (default VNone (dict_get lang m))
       | _ => None
       end
  else if String.eqb tag "rst"
       then VStr <$> AccessConfig.get_rst_as_html v
       else None.

(** Specification, 4.2: "for a key matching the tag-suffix pattern,
    repeatedly strip and apply tags until no suffix remains, threading the
    current target language into each tag handler": the name and the value
    that are left.  A key has fewer tags than characters. *)
Fixpoint apply_tags (fuel : nat) (lang k : string) (v : value)
  : option (string * value) :=
  match AccessConfig.ConfigParser.match_tag k with
  | None => Some (k, v)
  | Some (name, tag) =>
      match fuel with
      | 0 => None
      | S fuel' => v' ← apply_tag tag lang v; apply_tags fuel' lang name v'
      end
  end.

(** Specification, 4.2: "every distinct language code seen as a sub-key of
    any [i18n]-tagged value": the codes seen while the tags of one key are
    applied. *)
Fixpoint tag_languages (fuel : nat) (lang k : string) (v : value)
  : list string :=
  match AccessConfig.ConfigParser.match_tag k with
  | None => []
  | Some (name, tag) =>
      match fuel with
      | 0 => []
      | S fuel' =>
          (if String.eqb tag "i18n"
           then match v with VDict m => dict_keys m | _ => [] end
           else [])
          ++ match apply_tag tag lang v with
             | Some v' => tag_languages fuel' lang name v'
             | None => []
             end
      end
  end.

(** Specification, 4.2: "recursively visit mappings in a deterministic key
    order (shorter keys first, then lexicographic) ...; recurse into the
    (possibly tag-transformed) value; for sequences, map recursively
    element-wise; scalars pass through unchanged."  The document resolved
    for one language: the entries of a mapping are resolved one by one in
    key order and then stored under their names, a later entry replacing
    an earlier one of the same name.  [fuel] bounds the nesting depth. *)
Fixpoint resolve (fuel : nat) (lang : string) (v : value) : option value :=
  match v with
  | VDict n =>
      match fuel with
      | 0 => None
      | S fuel' =>
          entries ← mapM (fun k =>
                            v ← dict_get k n;
                            nv ← apply_tags (String.length k) lang k v;
                            r ← resolve fuel' lang (snd nv);
                            Some (fst nv, r))
                         (AccessConfig.ConfigParser.sorted_keys (dict_keys n));
          Some (VDict (fold_left (fun d nr => dict_set (fst nr) (snd nr) d)
                                 entries []))
      end
  | VList l =>
      match fuel with
      | 0 => None
      | S fuel' => VList <$> mapM (resolve fuel' lang) l
      end
  | _ => Some v
  end.

(** Specification, 4.2: "A first pass with the default language
    additionally harvests every distinct language code seen as a sub-key of
    any [i18n]-tagged value": the codes seen in the pass for [lang], at
    any depth. *)
Fixpoint languages (fuel : nat) (lang : string) (v : value) : list string :=
  match v with
  | VDict n =>
      match fuel with
      | 0 => []
      | S fuel' =>
          flat_map (fun k =>
                      match dict_get k n with
                      | Some v =>
                          tag_languages (String.length k) lang k v
                          ++ match apply_tags (String.length k) lang k v with
                             | Some nv => languages fuel' lang (snd nv)
                             | None => []
                             end
                      | None => []
                      end)
                   (AccessConfig.ConfigParser.sorted_keys (dict_keys n))
      end
  | VList l =>
      match fuel with
      | 0 => []
      | S fuel' => flat_map (languages fuel' lang) l
      end
  | _ => []
  end.

End TagResolution.

(** The keys of every mapping of a document are distinct, as they are in
    a Python dictionary. *)
Fixpoint distinct_keys (v : value) : bool :=
  match v with
  | VDict d =>
      bool_decide (NoDup (dict_keys d))
      && forallb (fun kv => distinct_keys (snd kv)) d
  | VList l => forallb distinct_keys l
  | _ => true
  end.

End Spec.

(** ** Notions used to state properties of the code *)

Module Props.
Import Py AccessCourse.

(** An item at any depth below a list of children. *)
Inductive below : Item -> list Item -> Prop :=
| below_child (c : Item) (cs : list Item) :
    c ∈ cs -> below c cs
| below_deeper (x c : Item) (cs : list Item) :
    c ∈ cs -> below x (item_children c) -> below x cs.

(** A field whose name starts with an underscore. *)
Definition private_field (k : string) : bool := Builtins.startswith k "_".

(** A path whose last component is empty or made of dots only: appending
    an extension to it gives a name that [os.path.splitext] does not
    split. *)
Definition dots_only (path : string) : bool :=
  OsPath.all_char OsPath.extsep (OsPath.basename path).

(** [force] of an include entry, as [_include] reads it. *)
Definition forced (include_data : dict) : bool :=
  match dict_get "force" include_data with
  | Some f => Builtins.truthy f
  | None => false
  end.

(** The name under which the config file of an exercise is looked up:
    [data["config_files"].get(exercise_key, exercise_key)], and the key
    itself for a course without [config_files]; [None] when
    [config_files] is no mapping. *)
Definition config_file_name (data : dict) (exercise_key : string)
  : option value :=
  match dict_get "config_files" data with
  | Some (VDict config_files) =>
      Some (default (VStr exercise_key) (dict_get exercise_key config_files))
  | Some _ => None
  | None => Some (VStr exercise_key)
  end.

(** The variant that a selector names in a variant set; the selector
    [None] names none. *)
Definition variant_of {A} (data : list (string * A)) (lang : option string)
  : option A :=
  match lang with
  | Some l => dict_get l data
  | None => None
  end.

(** A variant set after the assignment [data['lang'] = lang] to its stored
    variant [variant] of the language [k]. *)
Definition stamp (data : list (string * dict)) (k : string) (variant : dict)
  : list (string * dict) :=
  dict_set k (dict_set "lang" (VStr k) variant) data.

(** The document with the entries of every mapping listed in the order of
    the sort key [(len(x), x)]: the same keys with the same content, in the
    order in which the tag processor rebuilds a mapping. *)
Fixpoint in_key_order (v : value) : value :=
  match v with
  | VDict d =>
      let d' := map (fun kv => (fst kv, in_key_order (snd kv))) d in
      VDict (map (fun k => (k, default VNone (dict_get k d')))
                 (AccessConfig.ConfigParser.sorted_keys (dict_keys d)))
  | VList l => VList (map in_key_order l)
  | _ => v
  end.

(** The order of the sort key [(len(x), x)] of the tag processor. *)
Definition key_le (a b : string) : Prop :=
  AccessConfig.ConfigParser.key_leb a b = true.

Section WithExternals.
Context `{AccessConfig.Externals}.
Import AccessConfig.

(** What [get] puts into the data of a course it loads. *)
Definition course_ok (course_key : string) (c : CourseConfig.t) : Prop :=
  dict_get "key" (CourseConfig.data c) = Some (VStr course_key) /\
  dict_get "mtime" (CourseConfig.data c) = Some (VInt (CourseConfig.mtime c)) /\
  dict_get "dir" (CourseConfig.data c)
  = Some (VStr (path_to (VStr course_key))) /\
  is_Some (dict_get "name" (CourseConfig.data c)) /\
  is_Some (dict_get "static_url" (CourseConfig.data c)) /\
  default (VStr DEFAULT_LANG) (dict_get "lang" (CourseConfig.data c))
  = VStr (CourseConfig.lang c) /\
  (is_Some (dict_get "modules" (CourseConfig.data c)) ->
   exists keys config_files,
     dict_get "exercises" (CourseConfig.data c) = Some (VList (map VStr keys)) /\
     dict_get "config_files" (CourseConfig.data c) = Some (VDict config_files) /\
     forall x, x ∈ keys <-> is_Some (dict_get x config_files)).

(** Every entry of the cache is what [get] gives for its key on an empty
    cache. *)
Definition cache_fresh (_courses : CourseConfig.courses) : Prop :=
  forall k c, dict_get k _courses = Some c ->
              fst (CourseConfig.get k []) = Ok (Some c).

End WithExternals.

(** What [exercise_config] puts into an exercise it loads for a course
    whose language is [course_lang]: the variant of that language exists,
    and every variant has a title and a view type and carries the key of
    the exercise and the mtime of its file. *)
Definition exercise_ok (course_lang exercise_key : string)
           (e : AccessConfig.ExerciseConfig.t) : Prop :=
  AccessConfig.ExerciseConfig.course_lang e = course_lang /\
  is_Some (dict_get course_lang (AccessConfig.ExerciseConfig.data e)) /\
  forall l v,
    dict_get l (AccessConfig.ExerciseConfig.data e) = Some v ->
    dict_get "key" v = Some (VStr exercise_key) /\
    dict_get "mtime" v = Some (VInt (AccessConfig.ExerciseConfig.mtime e)) /\
    is_Some (dict_get "title" v) /\ is_Some (dict_get "view_type" v).

(** Every exercise held by a course is as [exercise_config] makes it. *)
Definition exercises_ok (self : AccessConfig.CourseConfig.t) : Prop :=
  forall k e,
    dict_get k (AccessConfig.CourseConfig.exercises self) = Some e ->
    exercise_ok (AccessConfig.CourseConfig.lang self) k e.

End Props.

(** ** Concrete documents used by the examples below *)

Module Examples.
Import AccessCourse.

(** Two modules, each with one exercise keyed [ex1]. *)
Definition ex1_in (m : string) : Module_ :=
  mkModule m m [mkItem Exercise "ex1" "hw" []].

Definition course_shared_key : Course :=
  mkCourse "c" [ex1_in "m1"; ex1_in "m2"] [("hw", VNone)].

(** One module; the chapter [a] (category [hw]) owns the exercise [b],
    whose category [lab] is not declared. *)
Definition course_nested_lab : Course :=
  mkCourse "c"
    [mkModule "m" "m"
       [mkItem Chapter "a" "hw" [mkItem Exercise "b" "lab" []]]]
    [("hw", VNone)].

(** One module in which the key [ex1] occurs twice, at different depths. *)
Definition course_dup_in_module : Course :=
  mkCourse "c"
    [mkModule "m" "m"
       [mkItem Chapter "a" "hw" [mkItem Exercise "ex1" "hw" []];
        mkItem Exercise "ex1" "hw" []]]
    [("hw", VNone)].

(** All keys distinct. *)
Definition course_distinct : Course :=
  mkCourse "c"
    [mkModule "m1" "m1" [mkItem Chapter "a" "hw" [mkItem Exercise "b" "hw" []]];
     mkModule "m2" "m2" [mkItem Exercise "c" "hw" []]]
    [("hw", VNone)].

(** A small world.  The course directory [/srv/courses/c] holds
    [inc.yaml] with the text [{b: 2}] and the exercise file [ex.yaml]; the
    index file of course [c] has been removed.  The index files of the
    courses [d] and [e] are in place. *)
Definition demo_mtime (path : string) : option Z :=
  if String.eqb path "/srv/courses/c/inc.yaml" then Some 10%Z
  else if String.eqb path "/srv/courses/c/ex.yaml" then Some 10%Z
  else if String.eqb path "/srv/courses/d/index.yaml" then Some 20%Z
  else if String.eqb path "/srv/courses/e/index.yaml" then Some 30%Z
  else None.

Definition demo_isfile (path : string) : bool :=
  match demo_mtime path with Some _ => true | None => false end.

Definition demo_isdir (path : string) : bool :=
  String.eqb path "/srv/courses/c" || String.eqb path "/srv/courses/d"
  || String.eqb path "/srv/courses/e" || String.eqb path "/srv/courses".

Definition demo_read_file (path : string) : option string :=
  if String.eqb path "/srv/courses/c/inc.yaml" then Some "{b: 2}"
  else if String.eqb path "/srv/courses/c/ex.yaml" then Some "text of ex"
  else if String.eqb path "/srv/courses/d/index.yaml" then Some "{name: D}"
  else if String.eqb path "/srv/courses/e/index.yaml" then Some "text of e"
  else None.

(** The index of course [e]: one module with the exercise [ex1], which
    names its config, and the chapter [ch1] (no config) that owns the
    exercise [ex2], whose config comes from its exercise type. *)
Definition index_of_e : value :=
  VDict
    [("name", VStr "E");
     ("language", VList [VStr "fi"; VStr "en"]);
     ("exercise_types", VDict [("t", VDict [("config", VStr "t.yaml")])]);
     ("modules",
      VList
        [VDict
           [("key", VStr "m1");
            ("children",
             VList
               [VDict [("key", VStr "ex1"); ("config", VStr "ex1.yaml")];
                VDict [("key", VStr "ch1");
                       ("children",
                        VList [VDict [("key", VStr "ex2");
                                      ("type", VStr "t")]])]])]])].

(** The exercise file [ex.yaml]: a title in two languages. *)
Definition text_of_ex : value :=
  VDict [("title|i18n", VDict [("en", VStr "T"); ("fi", VStr "U")]);
         ("view_type", VStr "v")].

(** The YAML texts of this world; any other text here is a plain scalar,
    which YAML reads as the string itself. *)
Definition demo_yaml_loads (text : string) : option value :=
  if String.eqb text "{b: 2}" then Some (VDict [("b", VInt 2)])
  else if String.eqb text "text of ex" then Some text_of_ex
  else if String.eqb text "{name: D}" then Some (VDict [("name", VStr "D")])
  else if String.eqb text "text of e" then Some index_of_e
  else Some (VStr text).

Definition demo_path_to (course_key : value) : string :=
  match course_key with
  | VStr k => "/srv/courses/" +:+ k
  | _ => "/srv/courses/"
  end.

#[export] Instance demo : AccessConfig.Externals :=
  {| AccessConfig.getmtime := demo_mtime;
     AccessConfig.isfile := demo_isfile;
     AccessConfig.isdir := demo_isdir;
     AccessConfig.read_file := demo_read_file;
     AccessConfig.json_loads := fun _ => None;
     AccessConfig.yaml_loads := demo_yaml_loads;
     AccessConfig.render_to_string := fun _ _ => None;
     AccessConfig.get_rst_as_html := fun _ => None;
     AccessConfig.read_meta := fun _ => [];
     AccessConfig.path_to := demo_path_to;
     AccessConfig.symbolic_link := fun _ _ => Some tt;
     AccessConfig.COURSES_PATH := "/srv/courses";
     AccessConfig.STATIC_URL_HOST_INJECT := "";
     AccessConfig.STATIC_URL := "/static/";
     AccessConfig.time_time := 100%Z |}.

(** An exercise with the single variant [en], which has no [lang] field. *)
Definition exercise_en : AccessConfig.ExerciseConfig.t :=
  AccessConfig.ExerciseConfig.mk "en" "/srv/courses/c/ex.yaml" 10 100
    [("en", [("title", VStr "T")])].

Definition exercise_en' : AccessCourse.ExerciseConfig.t :=
  AccessCourse.ExerciseConfig.mk
    [("en", [("title", VStr "T")])] "/srv/courses/c/ex.yaml" 10 100 "en".

(** A cached exercise whose file [gone.yaml] is no longer on disk. *)
Definition cached_exercise : AccessConfig.ExerciseConfig.t :=
  AccessConfig.ExerciseConfig.mk "en" "/srv/courses/c/gone.yaml" 5 6
    [("en", [("title", VStr "G"); ("view_type", VStr "v")])].

(** A cached course [c]; its index file is no longer on disk. *)
Definition cached_course_c : AccessConfig.CourseConfig.t :=
  AccessConfig.CourseConfig.mk [] "/srv/courses/c/index.yaml" 5 6
    [("name", VStr "C"); ("key", VStr "c");
     ("exercises", VList [VStr "gone"]);
     ("config_files", VDict [("gone", VStr "gone")])]
    "en" [("gone", cached_exercise)].

(** A course [c] that lists the exercise [ex] and has not loaded it. *)
Definition course_c_ex : AccessConfig.CourseConfig.t :=
  AccessConfig.CourseConfig.mk [] "/srv/courses/c/index.yaml" 5 6
    [("name", VStr "C"); ("key", VStr "c");
     ("exercises", VList [VStr "ex"]);
     ("config_files", VDict [("ex", VStr "ex.yaml")])]
    "en" [].

(** A cached course [d], as recent as its index file. *)
Definition cached_course_d : AccessConfig.CourseConfig.t :=
  AccessConfig.CourseConfig.mk [] "/srv/courses/d/index.yaml" 20 21
    [("name", VStr "D"); ("key", VStr "d")] "en" [].

(** [field|i18n: {en: A, fi: B}] *)
Definition doc_i18n : value :=
  VDict [("field|i18n", VDict [("en", VStr "A"); ("fi", VStr "B")])].

(** [items: [{name|i18n: {en: A, fi: B}}, {name|i18n: {sv: C}}]]:
    [i18n] fields inside the elements of a sequence. *)
Definition doc_nested : value :=
  VDict [("items",
          VList [VDict [("name|i18n",
                         VDict [("en", VStr "A"); ("fi", VStr "B")])];
                 VDict [("name|i18n", VDict [("sv", VStr "C")])]])].

(** A document without processor tags; its keys are not in sorted order. *)
Definition doc_plain : value :=
  VDict [("title", VStr "T");
         ("a", VList [VInt 1; VDict [("zz", VNone); ("y", VBool true)]])].

(** The host document [{a: 1, include: [{file: inc}]}] *)
Definition doc_host : value :=
  VDict [("a", VInt 1); ("include", VList [VDict [("file", VStr "inc")]])].

(** The same world with a template renderer and a second include file:
    the include file [inc.yaml] of course [c], rendered with any context,
    is the text [{b: 2}], and [inc2.yaml] is the text [{b: 3}]. *)
Definition demo_render (template_name : string) (context : value)
  : option string :=
  if String.eqb template_name "c/inc.yaml" then Some "{b: 2}"
  else if String.eqb template_name "c/inc2.yaml" then Some "{b: 3}"
  else None.

Definition demo_rendering : AccessConfig.Externals :=
  {| AccessConfig.getmtime := demo_mtime;
     AccessConfig.isfile := fun path =>
       String.eqb path "/srv/courses/c/inc2.yaml" || demo_isfile path;
     AccessConfig.isdir := demo_isdir;
     AccessConfig.read_file := demo_read_file;
     AccessConfig.json_loads := fun _ => None;
     AccessConfig.yaml_loads := fun text =>
       if String.eqb text "{b: 3}" then Some (VDict [("b", VInt 3)])
       else demo_yaml_loads text;
     AccessConfig.render_to_string := demo_render;
     AccessConfig.get_rst_as_html := fun _ => None;
     AccessConfig.read_meta := fun _ => [];
     AccessConfig.path_to := demo_path_to;
     AccessConfig.symbolic_link := fun _ _ => Some tt;
     AccessConfig.COURSES_PATH := "/srv/courses";
     AccessConfig.STATIC_URL_HOST_INJECT := "";
     AccessConfig.STATIC_URL := "/static/";
     AccessConfig.time_time := 100%Z |}.

(** The host document [{a: 1, include: [{file: inc, template_context: {}}]}] *)
Definition doc_host_template : dict :=
  [("a", VInt 1);
   ("include", VList [VDict [("file", VStr "inc");
                             ("template_context", VDict [])]])].

(** The host document [{a: 1}] with the two includes [inc] and [inc2],
    both rendered as templates and neither forced; and the same with a
    forced second include. *)
Definition doc_host_two (force : bool) : dict :=
  [("a", VInt 1);
   ("include",
    VList [VDict [("file", VStr "inc"); ("template_context", VDict [])];
           VDict [("file", VStr "inc2"); ("template_context", VDict []);
                  ("force", VBool force)]])].

(** The world of [demo] in which [symbolic_link] raises. *)
Definition demo_link_fails : AccessConfig.Externals :=
  {| AccessConfig.getmtime := demo_mtime;
     AccessConfig.isfile := demo_isfile;
     AccessConfig.isdir := demo_isdir;
     AccessConfig.read_file := demo_read_file;
     AccessConfig.json_loads := fun _ => None;
     AccessConfig.yaml_loads := demo_yaml_loads;
     AccessConfig.render_to_string := fun _ _ => None;
     AccessConfig.get_rst_as_html := fun _ => None;
     AccessConfig.read_meta := fun _ => [];
     AccessConfig.path_to := demo_path_to;
     AccessConfig.symbolic_link := fun _ _ => None;
     AccessConfig.COURSES_PATH := "/srv/courses";
     AccessConfig.STATIC_URL_HOST_INJECT := "";
     AccessConfig.STATIC_URL := "/static/";
     AccessConfig.time_time := 100%Z |}.

(** A world in which the course directory has been modified at time 40
    and a further course [bad] is registered, whose index file exists but
    cannot be read. *)
Definition demo_refresh_mtime (path : string) : option Z :=
  if String.eqb path "/srv/courses" then Some 40%Z
  else if String.eqb path "/srv/courses/bad/index.yaml" then Some 50%Z
  else demo_mtime path.

Definition demo_refresh : AccessConfig.Externals :=
  {| AccessConfig.getmtime := demo_refresh_mtime;
     AccessConfig.isfile := fun path =>
       String.eqb path "/srv/courses/bad/index.yaml" || demo_isfile path;
     AccessConfig.isdir := fun path =>
       String.eqb path "/srv/courses/bad" || demo_isdir path;
     AccessConfig.read_file := demo_read_file;
     AccessConfig.json_loads := fun _ => None;
     AccessConfig.yaml_loads := demo_yaml_loads;
     AccessConfig.render_to_string := fun _ _ => None;
     AccessConfig.get_rst_as_html := fun _ => None;
     AccessConfig.read_meta := fun _ => [];
     AccessConfig.path_to := demo_path_to;
     AccessConfig.symbolic_link := fun _ _ => Some tt;
     AccessConfig.COURSES_PATH := "/srv/courses";
     AccessConfig.STATIC_URL_HOST_INJECT := "";
     AccessConfig.STATIC_URL := "/static/";
     AccessConfig.time_time := 100%Z |}.

(** Keys with a character above 127: the letter e with an acute accent,
    code point 233, which [\w] matches. *)
Definition e_acute : ascii := "233"%char.
Definition key_ee : string := String e_acute (String e_acute EmptyString).
Definition key_a_e : string := String "a" (String "|" (String e_acute EmptyString)).

(** A document with an unsupported tag on its first visited key. *)
Definition doc_unsupported : dict :=
  [("description", VStr "D"); ("x|foo", VInt 1)].

(** A document with the plain key [title] and the tagged key
    [title|i18n]. *)
Definition doc_title_twice : dict :=
  [("title|i18n", VDict [("en", VStr "A"); ("fi", VStr "B")]);
   ("title", VStr "plain")].

End Examples.

(** * Proofs *)

(** ** Dictionaries *)

Section Dictionaries.
Import Py.
Context {A : Type}.
Implicit Types (d : list (string * A)) (k : string) (v : A).

Lemma dict_has_get k d : dict_has k d = true <-> is_Some (dict_get k d).
Proof.
  induction d as [|[k' v'] d IH]; simpl.
  - split; [done | by intros [? ?]].
  - destruct (String.eqb k k'); [split; eauto | done].
Qed.

Lemma dict_has_false k d : dict_has k d = false <-> dict_get k d = None.
Proof.
  induction d as [|[k' v'] d IH]; simpl; [done|].
  destruct (String.eqb k k'); [split; done | done].
Qed.

Lemma dict_get_set_eq k v d : dict_get k (dict_set k v d) = Some v.
Proof.
  induction d as [|[k' v'] d IH]; simpl.
  - by rewrite String.eqb_refl.
  - destruct (String.eqb k k') eqn:E; simpl.
    + by rewrite String.eqb_refl.
    + by rewrite E.
Qed.

Lemma dict_get_set_ne k k' v d :
  k <> k' -> dict_get k' (dict_set k v d) = dict_get k' d.
Proof.
  intros Hne. induction d as [|[k0 v0] d IH]; simpl.
  - destruct (String.eqb_spec k' k); [congruence | done].
  - destruct (String.eqb_spec k k0) as [->|Hk]; simpl.
    + destruct (String.eqb_spec k' k0); [congruence | done].
    + by rewrite IH.
Qed.

Lemma dict_get_set k k' v d :
  dict_get k' (dict_set k v d) = if String.eqb k' k then Some v else dict_get k' d.
Proof.
  destruct (String.eqb_spec k' k) as [->|Hne].
  - apply dict_get_set_eq.
  - apply dict_get_set_ne. congruence.
Qed.

Lemma dict_has_set k k' v d :
  dict_has k' (dict_set k v d) = String.eqb k' k || dict_has k' d.
Proof.
  destruct (dict_has k' (dict_set k v d)) eqn:E.
  - apply dict_has_get in E. rewrite dict_get_set in E.
    destruct (String.eqb k' k); [done|]. symmetry. by apply dict_has_get.
  - apply dict_has_false in E. rewrite dict_get_set in E.
    destruct (String.eqb k' k); [done|]. symmetry. by apply dict_has_false.
Qed.

(** Assigning to a present key keeps the keys and their order. *)
Lemma dict_keys_set_present k v d :
  is_Some (dict_get k d) -> dict_keys (dict_set k v d) = dict_keys d.
Proof.
  induction d as [|[k' v'] d IH]; simpl; [by intros [? ?]|].
  destruct (String.eqb_spec k k') as [->|Hne]; simpl; [done|].
  intros Hs. f_equal. by apply IH.
Qed.

(** Assigning to a new key appends it. *)
Lemma dict_set_absent k v d :
  dict_get k d = None -> dict_set k v d = d ++ [(k, v)].
Proof.
  induction d as [|[k' v'] d IH]; simpl; [done|].
  destruct (String.eqb k k'); [done|]. intros Hn. by rewrite IH.
Qed.

(** Assigning the value a key already has changes nothing. *)
Lemma dict_set_same k v d : dict_get k d = Some v -> dict_set k v d = d.
Proof.
  induction d as [|[k' v'] d IH]; simpl; [done|].
  destruct (String.eqb_spec k k') as [->|Hne].
  - by intros [= ->].
  - intros Hg. by rewrite IH.
Qed.

Lemma dict_get_elem_of k v d : dict_get k d = Some v -> (k, v) ∈ d.
Proof.
  induction d as [|[k' v'] d IH]; simpl; [done|].
  destruct (String.eqb_spec k k') as [->|Hne].
  - intros [= ->]. by left.
  - intros Hg. right. by apply IH.
Qed.

Lemma dict_get_None_keys k d : dict_get k d = None <-> k ∉ dict_keys d.
Proof.
  induction d as [|[k' v'] d IH]; simpl.
  - split; [intros _ Hin; by apply elem_of_nil in Hin | done].
  - destruct (String.eqb_spec k k') as [->|Hne].
    + split; [done | intros Hn; exfalso; apply Hn; by left].
    + rewrite IH. unfold dict_keys. rewrite not_elem_of_cons. naive_solver.
Qed.

Lemma dict_get_NoDup k v d :
  NoDup (dict_keys d) -> (k, v) ∈ d -> dict_get k d = Some v.
Proof.
  induction d as [|[k' v'] d IH]; simpl; [by intros _ ?%elem_of_nil|].
  intros [Hk Hnd]%NoDup_cons [[= -> ->]|Hin]%elem_of_cons.
  - by rewrite String.eqb_refl.
  - destruct (String.eqb_spec k k') as [->|Hne]; [|by apply IH].
    exfalso. apply Hk. apply list_elem_of_fmap. by exists (k', v).
Qed.

End Dictionaries.

(** ** The course tree validators *)

Section CourseTree.
Import Py AccessCourse Examples.

Lemma fold_left_keys (cs : list Item) (acc : list string) :
  fold_left (fun keys c => (keys ++ [item_key c]) ++ Item_child_keys c) cs acc
  = acc ++ flat_map (fun c => item_key c :: Item_child_keys c) cs.
Proof.
  revert acc; induction cs as [|c cs IH]; intros acc; simpl.
  - by rewrite app_nil_r.
  - rewrite IH. by rewrite <- !app_assoc.
Qed.

Lemma Item_child_keys_unfold (p : Item) : Item_child_keys p = child_keys p.
Proof. by destruct p. Qed.

(** [child_keys] lists, depth first, the key of every item below a parent. *)
Lemma child_keys_flat_map {A} `{Parent A} (self : A) :
  child_keys self
  = flat_map (fun c => item_key c :: child_keys c) (children self).
Proof.
  unfold child_keys at 1. rewrite fold_left_keys. simpl.
  apply flat_map_ext. intros c. by rewrite Item_child_keys_unfold.
Qed.

Lemma fold_left_categories (cs : list Item) (acc : gset string) :
  fold_left (fun categories c =>
               let categories := {[ item_category c ]} ∪ categories in
               let _ := categories ∪ Item_child_categories c in
               categories) cs acc
  = list_to_set (map item_category cs) ∪ acc.
Proof.
  revert acc; induction cs as [|c cs IH]; intros acc; simpl.
  - set_solver.
  - rewrite IH. set_solver.
Qed.

(** What [child_categories] really collects: the categories of the direct
    children only. *)
Lemma child_categories_direct {A} `{Parent A} (self : A) :
  child_categories self = list_to_set (map item_category (children self)).
Proof. unfold child_categories. rewrite fold_left_categories. set_solver. Qed.

Lemma size_list_to_set_le (l : list string) :
  size (list_to_set l : gset string) <= length l.
Proof.
  induction l as [|x l IH].
  - rewrite list_to_set_nil, size_empty. simpl. lia.
  - rewrite list_to_set_cons, size_union_alt, size_singleton. simpl.
    pose proof (subseteq_size (list_to_set l ∖ {[x]}) (list_to_set l : gset string)) as Hs.
    assert (size (list_to_set l ∖ {[x]} : gset string) <= size (list_to_set l : gset string))
      by (apply Hs; set_solver).
    lia.
Qed.

Lemma length_size_NoDup (l : list string) :
  length l = size (list_to_set l : gset string) <-> NoDup l.
Proof.
  split.
  - induction l as [|x l IH]; intros Hlen; [constructor|].
    rewrite list_to_set_cons in Hlen. simpl in Hlen.
    destruct (decide (x ∈ l)) as [Hin|Hin].
    + assert (({[x]} ∪ list_to_set l : gset string) = list_to_set l) as Heq
        by set_solver.
      rewrite Heq in Hlen. pose proof (size_list_to_set_le l). lia.
    + rewrite size_union, size_singleton in Hlen by set_solver.
      constructor; [done|]. apply IH. lia.
  - intros Hnd. symmetry. by apply size_list_to_set.
Qed.

Lemma validate_keys_loop_ok (ms : list Module_) :
  validate_keys_loop ms = inr tt <-> Forall (fun m => NoDup (child_keys m)) ms.
Proof.
  induction ms as [|m ms IH]; simpl.
  - split; [constructor | done].
  - destruct (Nat.eqb_spec (length (child_keys m))
                (size (list_to_set (child_keys m) : gset string))) as [He|He]; simpl.
    + rewrite IH. apply length_size_NoDup in He.
      split; [by constructor | by inversion 1].
    + split; [done|]. inversion 1; subst.
      exfalso. apply He. by apply length_size_NoDup.
Qed.

Lemma validate_keys_loop_err (ms : list Module_) (e : ValueError) :
  validate_keys_loop ms = inl e ->
  exists m, m ∈ ms /\ ~ NoDup (child_keys m) /\
    e = DuplicateKeys (collect_duplicates (child_keys m)
                                          (list_to_set (child_keys m))).
Proof.
  induction ms as [|m ms IH]; simpl; [done|].
  destruct (Nat.eqb_spec (length (child_keys m))
              (size (list_to_set (child_keys m) : gset string))) as [He|He]; simpl.
  - intros Hl. destruct (IH Hl) as (m' & Hin & Hnd & ->).
    exists m'. split; [by right | done].
  - intros [= <-]. exists m. split; [by left|]. split; [|done].
    intros Hnd. apply He. by apply length_size_NoDup.
Qed.

Lemma validate_keys_loop_cases (ms : list Module_) :
  validate_keys_loop ms = inr tt \/
  exists ds, validate_keys_loop ms = inl (DuplicateKeys ds).
Proof.
  destruct (validate_keys_loop ms) as [e|[]] eqn:E; [right | by left].
  apply validate_keys_loop_err in E as (m & _ & _ & ->). eauto.
Qed.

Lemma validate_keys_raises_iff (values : Course) :
  (exists ds, validate_keys values = inl (DuplicateKeys ds)) <->
  exists m, m ∈ modules values /\ ~ NoDup (child_keys m).
Proof.
  unfold validate_keys. split.
  - intros [ds Hds].
    destruct (validate_keys_loop (modules values)) as [e|[]] eqn:E; [|done].
    apply validate_keys_loop_err in E as (m & Hin & Hnd & _). eauto.
  - intros (m & Hin & Hnd).
    destruct (validate_keys_loop_cases (modules values)) as [Hok|[ds Hds]].
    + apply validate_keys_loop_ok in Hok.
      rewrite Forall_forall in Hok. exfalso. apply Hnd, Hok. done.
    + exists ds. by rewrite Hds.
Qed.

(** The duplicates named in the error are the keys that occur more than
    once below the offending module. *)
Lemma collect_duplicates_loop (all : gset string) (rest seen : list string)
      (D S : gset string) :
  (forall k, k ∈ D <-> 2 <= count_occ String.eq_dec seen k) ->
  (forall k, k ∈ S <-> k ∈ all /\ count_occ String.eq_dec seen k = 0) ->
  (forall k, k ∈ rest -> k ∈ all) ->
  forall k,
    k ∈ fst (fold_left
           (fun '(duplicates, keyset) key =>
              if bool_decide (key ∈ duplicates) then (duplicates, keyset)
              else if bool_decide (key ∉ keyset)
                   then ({[ key ]} ∪ duplicates, keyset)
                   else (duplicates, keyset ∖ {[ key ]}))
           rest (D, S))
    <-> 2 <= count_occ String.eq_dec (seen ++ rest) k.
Proof.
  revert seen D S.
  induction rest as [|x rest IH]; intros seen D S HD HS Hall k.
  - simpl. rewrite app_nil_r. apply HD.
  - replace (seen ++ x :: rest) with ((seen ++ [x]) ++ rest)
      by (by rewrite <- app_assoc).
    assert (Hx : x ∈ all) by (apply Hall; by left).
    assert (Hrest : forall k, k ∈ rest -> k ∈ all)
      by (intros k' Hk'; apply Hall; by right).
    assert (Hcnt : forall k', count_occ String.eq_dec (seen ++ [x]) k'
                   = count_occ String.eq_dec seen k' + (if decide (x = k') then 1 else 0)).
    { intros k'. rewrite count_occ_app. simpl.
      destruct (String.eq_dec x k'), (decide (x = k')); done. }
    simpl. case_bool_decide as HxD.
    + apply IH; [| |done].
      * intros k'. rewrite Hcnt, HD. apply HD in HxD.
        destruct (decide (x = k')); [subst|]; lia.
      * intros k'. rewrite Hcnt, HS. apply HD in HxD.
        destruct (decide (x = k')); [subst|]; intuition lia.
    + rewrite HD in HxD. case_bool_decide as HxS.
      * rewrite HS in HxS.
        assert (count_occ String.eq_dec seen x = 1) as Hone.
        { destruct (count_occ String.eq_dec seen x) as [|[|n]]; [|done|lia].
          exfalso; apply HxS; done. }
        apply IH; [| |done].
        -- intros k'. rewrite Hcnt, elem_of_union, elem_of_singleton, HD.
           destruct (decide (x = k')); [subst|]; [intuition lia|].
           split; [intros [?|?]; [congruence|lia] | intros; right; lia].
        -- intros k'. rewrite Hcnt, HS.
           destruct (decide (x = k')); [subst|]; intuition lia.
      * assert (count_occ String.eq_dec seen x = 0) as Hzero.
        { by apply HS in HxS as [_ ?]. }
        apply IH; [| |done].
        -- intros k'. rewrite Hcnt, HD.
           destruct (decide (x = k')); [subst|]; lia.
        -- intros k'. rewrite Hcnt, elem_of_difference, elem_of_singleton, HS.
           destruct (decide (x = k')); [subst|]; [intuition lia|].
           intuition (try lia; try congruence).
Qed.

Lemma collect_duplicates_spec (keys : list string) (k : string) :
  k ∈ collect_duplicates keys (list_to_set keys)
  <-> 2 <= count_occ String.eq_dec keys k.
Proof.
  unfold collect_duplicates.
  apply (collect_duplicates_loop (list_to_set keys) keys [] ∅ (list_to_set keys)).
  - intros k'. simpl. split; [set_solver | lia].
  - intros k'. simpl. split; [by intros ? | by intros [? _]].
  - intros k' Hk'. by apply elem_of_list_to_set.
Qed.

Lemma check_categories_ok (cs : list string) (declared : dict) :
  check_categories cs declared = inr tt
  <-> forall c, c ∈ cs -> dict_has c declared = true.
Proof.
  induction cs as [|c cs IH]; simpl.
  - split; [intros _ c Hc; by apply elem_of_nil in Hc | done].
  - destruct (dict_has c declared) eqn:E.
    + rewrite IH. split.
      * intros Hall c' [->|Hin]%elem_of_cons; eauto.
      * intros Hall c' Hin. apply Hall. by right.
    + split; [done|]. intros Hall.
      rewrite Hall in E by (by left). done.
Qed.

Lemma validate_categories_loop_ok (ms : list Module_) (declared : dict) :
  validate_categories_loop ms declared = inr tt
  <-> forall m c, m ∈ ms -> c ∈ children m ->
                  dict_has (item_category c) declared = true.
Proof.
  induction ms as [|m ms IH]; simpl.
  - split; [intros _ m c Hm; by apply elem_of_nil in Hm | done].
  - destruct (check_categories (elements (child_categories m)) declared)
      as [e|[]] eqn:E.
    + split; [done|]. intros Hall.
      assert (check_categories (elements (child_categories m)) declared = inr tt)
        as Hok; [|congruence].
      apply check_categories_ok. intros c Hc.
      apply elem_of_elements in Hc. rewrite child_categories_direct in Hc.
      apply elem_of_list_to_set, list_elem_of_In, in_map_iff in Hc
        as (i & <- & Hi).
      apply (Hall m i); [by left | by apply list_elem_of_In].
    + rewrite IH. pose proof (proj1 (check_categories_ok _ _) E) as E'. split.
      * intros Hall m' c [->|Hin]%elem_of_cons Hc; [|eauto].
        apply E', elem_of_elements. rewrite child_categories_direct.
        apply elem_of_list_to_set, list_elem_of_In, in_map.
        by apply list_elem_of_In.
      * intros Hall m' c Hin. apply Hall. by right.
Qed.

(** The category check accepts a course exactly when every direct child of
    every module has a declared category; deeper items are not looked at. *)
Lemma validate_categories_direct_children (values : Course) :
  validate_categories values = inr values
  <-> forall m c, m ∈ modules values -> c ∈ children m ->
                  dict_has (item_category c) (categories values) = true.
Proof.
  unfold validate_categories.
  rewrite <- validate_categories_loop_ok.
  destruct (validate_categories_loop _ _) as [e|[]]; split; done.
Qed.

Lemma validate_module_keys_loop_cases (ms : list Module_) (keys : list string) :
  validate_module_keys_loop ms keys = inr tt \/
  exists k, validate_module_keys_loop ms keys = inl (DuplicateModuleKey k).
Proof.
  revert keys; induction ms as [|m ms IH]; intros keys; simpl; [by left|].
  case_bool_decide; [right; eauto | apply IH].
Qed.

Lemma validate_module_keys_cases (ms : list Module_) :
  validate_module_keys ms = inr ms \/
  exists k, validate_module_keys ms = inl (DuplicateModuleKey k).
Proof.
  unfold validate_module_keys.
  destruct (validate_module_keys_loop_cases ms []) as [->|[k ->]]; eauto.
Qed.

Lemma check_categories_cases (cs : list string) (declared : dict) :
  check_categories cs declared = inr tt \/
  exists c, check_categories cs declared = inl (CategoryNotFound c).
Proof.
  induction cs as [|c cs IH]; simpl; [by left|].
  destruct (dict_has c declared); [apply IH | right; eauto].
Qed.

Lemma validate_categories_cases (values : Course) :
  validate_categories values = inr values \/
  exists c, validate_categories values = inl (CategoryNotFound c).
Proof.
  unfold validate_categories.
  generalize (categories values) as declared.
  induction (modules values) as [|m ms IH]; intros declared; simpl; [by left|].
  destruct (check_categories_cases (elements (child_categories m)) declared)
    as [->|[c ->]]; [apply IH | right; eauto].
Qed.

Lemma validate_keys_cases (values : Course) :
  validate_keys values = inr values \/
  exists ds, validate_keys values = inl (DuplicateKeys ds).
Proof.
  unfold validate_keys.
  destruct (validate_keys_loop_cases (modules values)) as [->|[ds ->]]; eauto.
Qed.

(** When the whole construction reports the duplicate-key error. *)
Lemma Course_validate_duplicate (values : Course) :
  existsb is_DuplicateKeys (Course_validate values) = true <->
  validate_module_keys (modules values) = inr (modules values) /\
  validate_categories values = inr values /\
  exists m, m ∈ modules values /\ ~ NoDup (child_keys m).
Proof.
  rewrite <- validate_keys_raises_iff.
  unfold Course_validate, run_root_validator.
  destruct (validate_module_keys_cases (modules values)) as [->|[k ->]];
    [|simpl; split; [done | by intros [? _]]].
  destruct (validate_categories_cases values) as [->|[c ->]];
    [|simpl; split; [done | by intros (_ & ? & _)]].
  destruct (validate_keys_cases values) as [->|[ds ->]]; simpl.
  - split; [done|]. by intros (_ & _ & ? & ?).
  - split; [|done]. intros _. eauto.
Qed.

Lemma NoDup_flat_map_elem {A B} (f : A -> list B) (l : list A) (x : A) :
  NoDup (flat_map f l) -> x ∈ l -> NoDup (f x).
Proof.
  induction l as [|y l IH]; simpl; [by intros _ ?%elem_of_nil|].
  intros (Hy & _ & Hl)%NoDup_app [->|Hin]%elem_of_cons; eauto.
Qed.

(** C1 (amended).  The duplicate-key check looks at one module at a time:
    it raises exactly when two items below one and the same module, at any
    depth, share a key; the construction of the course reports that error
    exactly when, in addition, the module keys are distinct and the
    category check passes.  When the keys of all items of the course are
    pairwise distinct no duplicate-key error is raised. *)
Theorem validate_keys_within_module (values : Course) :
  ((exists ds, validate_keys values = inl (DuplicateKeys ds)) <->
   exists m, m ∈ modules values /\ ~ NoDup (child_keys m))
  /\ (existsb is_DuplicateKeys (Course_validate values) = true <->
      validate_module_keys (modules values) = inr (modules values) /\
      validate_categories values = inr values /\
      exists m, m ∈ modules values /\ ~ NoDup (child_keys m))
  /\ (NoDup (flat_map (child_keys (A:=Module_)) (modules values)) ->
      validate_keys values = inr values /\
      existsb is_DuplicateKeys (Course_validate values) = false).
Proof.
  split; [apply validate_keys_raises_iff|].
  split; [apply Course_validate_duplicate|].
  intros Hnd.
  assert (Hno : ~ exists m, m ∈ modules values /\ ~ NoDup (child_keys m)).
  { intros (m & Hin & Hdup). apply Hdup.
    by apply (NoDup_flat_map_elem _ (modules values)). }
  split.
  - destruct (validate_keys_cases values) as [->|Hex]; [done|].
    exfalso. by apply Hno, validate_keys_raises_iff.
  - destruct (existsb is_DuplicateKeys (Course_validate values)) eqn:E; [|done].
    exfalso. apply Course_validate_duplicate in E as (_ & _ & Hex). by apply Hno.
Qed.

Lemma validate_keys_within_module_witness :
  validate_keys course_distinct = inr course_distinct /\
  existsb is_DuplicateKeys (Course_validate course_distinct) = false.
Proof.
  apply (validate_keys_within_module course_distinct).
  apply (bool_decide_unpack _). vm_compute. exact I.
Defined.

(** C1, as stated, fails: the key [ex1] is used by an item of module [m1]
    and by an item of module [m2], and the course is accepted. *)
Lemma shared_key_across_modules_accepted :
  modules course_shared_key = [ex1_in "m1"; ex1_in "m2"] /\
  "ex1" ∈ child_keys (ex1_in "m1") /\
  "ex1" ∈ child_keys (ex1_in "m2") /\
  validate_keys course_shared_key = inr course_shared_key /\
  Course_validate course_shared_key = [].
Proof.
  split; [reflexivity|].
  split; [apply (bool_decide_unpack _); vm_compute; exact I|].
  split; [apply (bool_decide_unpack _); vm_compute; exact I|].
  split; vm_compute; reflexivity.
Qed.

(** The duplicates named by the error are the keys that occur at least
    twice below the first module that has any. *)
Lemma validate_keys_error_names_duplicates (values : Course) (e : ValueError) :
  validate_keys values = inl e ->
  exists m ds, m ∈ modules values /\ e = DuplicateKeys ds /\
    forall k, k ∈ ds <-> 2 <= count_occ String.eq_dec (child_keys m) k.
Proof.
  unfold validate_keys.
  destruct (validate_keys_loop (modules values)) as [e'|[]] eqn:E; [|done].
  intros [= <-]. apply validate_keys_loop_err in E as (m & Hin & _ & ->).
  exists m, (collect_duplicates (child_keys m) (list_to_set (child_keys m))).
  split; [done|]. split; [done|]. apply collect_duplicates_spec.
Qed.

(** C2: the category check at the failing input.  The exercise [b], a
    grandchild of the module, has the undeclared category [lab]; the
    category check and the whole construction accept the course. *)
Theorem validate_categories_skips_grandchild :
  dict_has "lab" (categories course_nested_lab) = false /\
  (exists m a b, m ∈ modules course_nested_lab /\ a ∈ children m /\
                 b ∈ children a /\ item_category b = "lab") /\
  validate_categories course_nested_lab = inr course_nested_lab /\
  Course_validate course_nested_lab = [].
Proof.
  split; [reflexivity|]. split.
  - exists (mkModule "m" "m"
              [mkItem Chapter "a" "hw" [mkItem Exercise "b" "lab" []]]),
           (mkItem Chapter "a" "hw" [mkItem Exercise "b" "lab" []]),
           (mkItem Exercise "b" "lab" []).
    repeat split; apply list_elem_of_In; by left.
  - split; vm_compute; reflexivity.
Qed.

(** The sibling walk [child_keys] does descend: the key of the same
    grandchild is collected. *)
Lemma child_keys_reaches_grandchild :
  Forall (fun m => child_keys m = ["a"; "b"]) (modules course_nested_lab).
Proof. repeat constructor. Qed.

End CourseTree.

(** ** [data_for_language] *)

Section DataForLanguage.
Import Py Examples.

Lemma dict_has_of_get {A} (k : string) (d : list (string * A)) (v : A) :
  dict_get k d = Some v -> dict_has k d = true.
Proof. intros Hg. apply dict_has_get. by rewrite Hg. Qed.

Lemma dict_has_of_get_None {A} (k : string) (d : list (string * A)) :
  dict_get k d = None -> dict_has k d = false.
Proof. apply dict_has_false. Qed.

(** The selection made by [access/config.py]. *)
Lemma config_data_for_language_selects
      (self : AccessConfig.ExerciseConfig.t) (lang : option string) :
  lang <> Some "_root" ->
  AccessConfig.ExerciseConfig.data self <> [] ->
  exists k variant,
    Spec.data_for_language (AccessConfig.ExerciseConfig.data self)
      (AccessConfig.ExerciseConfig.course_lang self) lang = Some k /\
    dict_get k (AccessConfig.ExerciseConfig.data self) = Some variant /\
    fst (AccessConfig.ExerciseConfig.data_for_language self lang)
    = Ok (Variant k) /\
    exists variant',
      AccessConfig.ExerciseConfig.deref
        (snd (AccessConfig.ExerciseConfig.data_for_language self lang))
        (Variant k) = Some (VDict variant') /\
      forall f, f <> "lang" -> dict_get f variant' = dict_get f variant.
Proof.
  intros Hroot Hne. destruct self as [dl f m p data]. simpl in *.
  unfold AccessConfig.ExerciseConfig.data_for_language, Spec.data_for_language.
  rewrite bool_decide_eq_false_2 by done. simpl.
  assert (Hfound : forall l v, dict_get l data = Some v ->
            exists variant',
              option_map VDict
                (dict_get l (dict_set l (dict_set "lang" (VStr l) v) data))
              = Some (VDict variant') /\
              forall f, f <> "lang" -> dict_get f variant' = dict_get f v).
  { intros l v _. rewrite dict_get_set_eq. eexists. split; [done|].
    intros f0 Hf. apply dict_get_set_ne. congruence. }
  assert (Hfirst : dict_get dl data = None ->
            exists k variant,
              head (dict_keys data) = Some k /\ dict_get k data = Some variant /\
              fst (match data with
                   | [] => (Raise IndexError,
                            AccessConfig.ExerciseConfig.mk dl f m p data)
                   | (k, _) :: _ =>
                       (Ok (Variant k),
                        AccessConfig.ExerciseConfig.mk dl f m p data)
                   end) = Ok (Variant k) /\
              exists variant',
                AccessConfig.ExerciseConfig.deref
                  (snd (match data with
                        | [] => (Raise IndexError,
                                 AccessConfig.ExerciseConfig.mk dl f m p data)
                        | (k, _) :: _ =>
                            (Ok (Variant k),
                             AccessConfig.ExerciseConfig.mk dl f m p data)
                        end)) (Variant k) = Some (VDict variant') /\
                forall f, f <> "lang" -> dict_get f variant' = dict_get f variant).
  { intros _. destruct data as [|[k v] data]; [done|]. exists k, v. simpl.
    rewrite String.eqb_refl. repeat (split; [done|]). by exists v. }
  destruct lang as [l|].
  - destruct (dict_get l data) as [v|] eqn:El; simpl.
    + exists l, v. rewrite (dict_has_of_get _ _ _ El). eauto.
    + rewrite (dict_has_of_get_None _ _ El).
      destruct (dict_get dl data) as [v|] eqn:Ed; simpl.
      * exists dl, v. rewrite (dict_has_of_get _ _ _ Ed). eauto.
      * rewrite (dict_has_of_get_None _ _ Ed). by apply Hfirst.
  - destruct (dict_get dl data) as [v|] eqn:Ed; simpl.
    + exists dl, v. rewrite (dict_has_of_get _ _ _ Ed). eauto.
    + rewrite (dict_has_of_get_None _ _ Ed). by apply Hfirst.
Qed.

(** The selection made by [access/course.py]. *)
Lemma course_data_for_language_selects
      (self : AccessCourse.ExerciseConfig.t) (lang : option string) :
  lang <> Some "_root" ->
  AccessCourse.ExerciseConfig.data self <> [] ->
  exists k variant,
    Spec.data_for_language (AccessCourse.ExerciseConfig.data self)
      (AccessCourse.ExerciseConfig.default_lang self) lang = Some k /\
    dict_get k (AccessCourse.ExerciseConfig.data self) = Some variant /\
    fst (AccessCourse.ExerciseConfig.data_for_language self lang)
    = Ok (Variant k) /\
    exists variant',
      AccessCourse.ExerciseConfig.deref
        (snd (AccessCourse.ExerciseConfig.data_for_language self lang))
        (Variant k) = Some (VDict variant') /\
      forall f, f <> "lang" -> dict_get f variant' = dict_get f variant.
Proof.
  intros Hroot Hne. destruct self as [data f m p dl]. simpl in *.
  unfold AccessCourse.ExerciseConfig.data_for_language, Spec.data_for_language.
  rewrite bool_decide_eq_false_2 by done. simpl.
  assert (Hfound : forall l v, dict_get l data = Some v ->
            exists variant',
              option_map VDict
                (dict_get l (dict_set l (dict_set "lang" (VStr l) v) data))
              = Some (VDict variant') /\
              forall f, f <> "lang" -> dict_get f variant' = dict_get f v).
  { intros l v _. rewrite dict_get_set_eq. eexists. split; [done|].
    intros f0 Hf. apply dict_get_set_ne. congruence. }
  assert (Hfirst : dict_get dl data = None ->
            exists k variant,
              head (dict_keys data) = Some k /\ dict_get k data = Some variant /\
              fst (match data with
                   | [] => (Raise IndexError,
                            AccessCourse.ExerciseConfig.mk data f m p dl)
                   | (k, _) :: _ =>
                       (Ok (Variant k),
                        AccessCourse.ExerciseConfig.mk data f m p dl)
                   end) = Ok (Variant k) /\
              exists variant',
                AccessCourse.ExerciseConfig.deref
                  (snd (match data with
                        | [] => (Raise IndexError,
                                 AccessCourse.ExerciseConfig.mk data f m p dl)
                        | (k, _) :: _ =>
                            (Ok (Variant k),
                             AccessCourse.ExerciseConfig.mk data f m p dl)
                        end)) (Variant k) = Some (VDict variant') /\
                forall f, f <> "lang" -> dict_get f variant' = dict_get f variant).
  { intros _. destruct data as [|[k v] data]; [done|]. exists k, v. simpl.
    rewrite String.eqb_refl. repeat (split; [done|]). by exists v. }
  destruct lang as [l|].
  - destruct (dict_get l data) as [v|] eqn:El; simpl.
    + exists l, v. rewrite (dict_has_of_get _ _ _ El). eauto.
    + rewrite (dict_has_of_get_None _ _ El).
      destruct (dict_get dl data) as [v|] eqn:Ed; simpl.
      * exists dl, v. rewrite (dict_has_of_get _ _ _ Ed). eauto.
      * rewrite (dict_has_of_get_None _ _ Ed). by apply Hfirst.
  - destruct (dict_get dl data) as [v|] eqn:Ed; simpl.
    + exists dl, v. rewrite (dict_has_of_get _ _ _ Ed). eauto.
    + rewrite (dict_has_of_get_None _ _ Ed). by apply Hfirst.
Qed.

(** C9.  For every exercise with at least one variant and every language
    selector, [data_for_language] returns the variant for [lang] if
    present, otherwise the variant for the default language if present,
    otherwise the first variant, and it does not raise: the result is the
    stored variant of that language, which agrees with the variant held
    before the call in every field but [lang].  The sentinel [_root] is no
    language selector: for it the whole variant set is returned and the
    record is left as it is.  Both versions of the method, in
    [access/config.py] and in [access/course.py]. *)
Theorem data_for_language_selects (lang : option string) :
  (forall self : AccessConfig.ExerciseConfig.t,
      lang <> Some "_root" ->
      AccessConfig.ExerciseConfig.data self <> [] ->
      exists k variant,
        Spec.data_for_language (AccessConfig.ExerciseConfig.data self)
          (AccessConfig.ExerciseConfig.course_lang self) lang = Some k /\
        dict_get k (AccessConfig.ExerciseConfig.data self) = Some variant /\
        fst (AccessConfig.ExerciseConfig.data_for_language self lang)
        = Ok (Variant k) /\
        exists variant',
          AccessConfig.ExerciseConfig.deref
            (snd (AccessConfig.ExerciseConfig.data_for_language self lang))
            (Variant k) = Some (VDict variant') /\
          forall f, f <> "lang" -> dict_get f variant' = dict_get f variant)
  /\
  (forall self : AccessCourse.ExerciseConfig.t,
      lang <> Some "_root" ->
      AccessCourse.ExerciseConfig.data self <> [] ->
      exists k variant,
        Spec.data_for_language (AccessCourse.ExerciseConfig.data self)
          (AccessCourse.ExerciseConfig.default_lang self) lang = Some k /\
        dict_get k (AccessCourse.ExerciseConfig.data self) = Some variant /\
        fst (AccessCourse.ExerciseConfig.data_for_language self lang)
        = Ok (Variant k) /\
        exists variant',
          AccessCourse.ExerciseConfig.deref
            (snd (AccessCourse.ExerciseConfig.data_for_language self lang))
            (Variant k) = Some (VDict variant') /\
          forall f, f <> "lang" -> dict_get f variant' = dict_get f variant)
  /\
  (forall self : AccessConfig.ExerciseConfig.t,
      AccessConfig.ExerciseConfig.data_for_language self (Some "_root")
      = (Ok WholeSet, self))
  /\
  (forall self : AccessCourse.ExerciseConfig.t,
      AccessCourse.ExerciseConfig.data_for_language self (Some "_root")
      = (Ok WholeSet, self)).
Proof.
  split; [|split; [|split]].
  - intros self Hroot Hne. by apply config_data_for_language_selects.
  - intros self Hroot Hne. by apply course_data_for_language_selects.
  - done.
  - done.
Qed.

Lemma data_for_language_selects_witness :
  (exists k variant,
      Spec.data_for_language (AccessConfig.ExerciseConfig.data exercise_en)
        (AccessConfig.ExerciseConfig.course_lang exercise_en) (Some "fi")
      = Some k /\
      dict_get k (AccessConfig.ExerciseConfig.data exercise_en) = Some variant /\
      fst (AccessConfig.ExerciseConfig.data_for_language exercise_en (Some "fi"))
      = Ok (Variant k) /\
      exists variant',
        AccessConfig.ExerciseConfig.deref
          (snd (AccessConfig.ExerciseConfig.data_for_language
                  exercise_en (Some "fi")))
          (Variant k) = Some (VDict variant') /\
        forall f, f <> "lang" -> dict_get f variant' = dict_get f variant).
Proof.
  apply (proj1 (data_for_language_selects (Some "fi")) exercise_en);
    [discriminate|].
  simpl. discriminate.
Defined.

(** The sentinel on an example: [_root] is no variant, and what is
    returned is the whole variant set, not the variant of the default
    language [en]. *)
Lemma data_for_language_root_example :
  AccessConfig.ExerciseConfig.data_for_language exercise_en (Some "_root")
  = (Ok WholeSet, exercise_en) /\
  AccessCourse.ExerciseConfig.data_for_language exercise_en' (Some "_root")
  = (Ok WholeSet, exercise_en') /\
  AccessConfig.ExerciseConfig.deref exercise_en WholeSet
  <> AccessConfig.ExerciseConfig.deref exercise_en (Variant "en").
Proof. repeat split. discriminate. Qed.

(** What the call does to the record ([access/config.py]): nothing, or
    the [lang] field of the returned variant is set to that variant's
    language. *)
Lemma config_data_for_language_effect
      (self : AccessConfig.ExerciseConfig.t) (lang : option string) :
  snd (AccessConfig.ExerciseConfig.data_for_language self lang) = self \/
  exists k variant,
    fst (AccessConfig.ExerciseConfig.data_for_language self lang)
    = Ok (Variant k) /\
    dict_get k (AccessConfig.ExerciseConfig.data self) = Some variant /\
    snd (AccessConfig.ExerciseConfig.data_for_language self lang)
    = AccessConfig.ExerciseConfig.mk
        (AccessConfig.ExerciseConfig.course_lang self)
        (AccessConfig.ExerciseConfig.file self)
        (AccessConfig.ExerciseConfig.mtime self)
        (AccessConfig.ExerciseConfig.ptime self)
        (dict_set k (dict_set "lang" (VStr k) variant)
                  (AccessConfig.ExerciseConfig.data self)).
Proof.
  destruct self as [dl f m p data].
  unfold AccessConfig.ExerciseConfig.data_for_language.
  case_bool_decide; [by left|]. simpl.
  destruct lang as [l|].
  - destruct (dict_get l data) as [v|] eqn:El; simpl; [right; eauto|].
    destruct (dict_get dl data) as [v|] eqn:Ed; simpl; [right; eauto|].
    left. by destruct data as [|[? ?] ?].
  - destruct (dict_get dl data) as [v|] eqn:Ed; simpl; [right; eauto|].
    left. by destruct data as [|[? ?] ?].
Qed.

Lemma course_data_for_language_effect
      (self : AccessCourse.ExerciseConfig.t) (lang : option string) :
  snd (AccessCourse.ExerciseConfig.data_for_language self lang) = self \/
  exists k variant,
    fst (AccessCourse.ExerciseConfig.data_for_language self lang)
    = Ok (Variant k) /\
    dict_get k (AccessCourse.ExerciseConfig.data self) = Some variant /\
    snd (AccessCourse.ExerciseConfig.data_for_language self lang)
    = AccessCourse.ExerciseConfig.mk
        (dict_set k (dict_set "lang" (VStr k) variant)
                  (AccessCourse.ExerciseConfig.data self))
        (AccessCourse.ExerciseConfig.file self)
        (AccessCourse.ExerciseConfig.mtime self)
        (AccessCourse.ExerciseConfig.ptime self)
        (AccessCourse.ExerciseConfig.default_lang self).
Proof.
  destruct self as [data f m p dl].
  unfold AccessCourse.ExerciseConfig.data_for_language.
  case_bool_decide; [by left|]. simpl.
  destruct lang as [l|].
  - destruct (dict_get l data) as [v|] eqn:El; simpl; [right; eauto|].
    destruct (dict_get dl data) as [v|] eqn:Ed; simpl; [right; eauto|].
    left. by destruct data as [|[? ?] ?].
  - destruct (dict_get dl data) as [v|] eqn:Ed; simpl; [right; eauto|].
    left. by destruct data as [|[? ?] ?].
Qed.

(** The cases of [data_for_language] in [access/config.py]. *)
Lemma config_data_for_language_cases
      (self : AccessConfig.ExerciseConfig.t) (lang : option string) :
  let stamped k variant :=
    AccessConfig.ExerciseConfig.mk
      (AccessConfig.ExerciseConfig.course_lang self)
      (AccessConfig.ExerciseConfig.file self)
      (AccessConfig.ExerciseConfig.mtime self)
      (AccessConfig.ExerciseConfig.ptime self)
      (Props.stamp (AccessConfig.ExerciseConfig.data self) k variant) in
  (lang = Some "_root" ->
   AccessConfig.ExerciseConfig.data_for_language self lang = (Ok WholeSet, self))
  /\ (forall l variant,
        lang = Some l -> l <> "_root" ->
        dict_get l (AccessConfig.ExerciseConfig.data self) = Some variant ->
        AccessConfig.ExerciseConfig.data_for_language self lang
        = (Ok (Variant l), stamped l variant))
  /\ (forall variant,
        lang <> Some "_root" ->
        Props.variant_of (AccessConfig.ExerciseConfig.data self) lang = None ->
        dict_get (AccessConfig.ExerciseConfig.course_lang self)
                 (AccessConfig.ExerciseConfig.data self) = Some variant ->
        AccessConfig.ExerciseConfig.data_for_language self lang
        = (Ok (Variant (AccessConfig.ExerciseConfig.course_lang self)),
           stamped (AccessConfig.ExerciseConfig.course_lang self) variant))
  /\ (lang <> Some "_root" ->
      Props.variant_of (AccessConfig.ExerciseConfig.data self) lang = None ->
      dict_get (AccessConfig.ExerciseConfig.course_lang self)
               (AccessConfig.ExerciseConfig.data self) = None ->
      snd (AccessConfig.ExerciseConfig.data_for_language self lang) = self).
Proof.
  destruct self as [dl f m p data]. cbv zeta. cbn [AccessConfig.ExerciseConfig.data
    AccessConfig.ExerciseConfig.course_lang AccessConfig.ExerciseConfig.file
    AccessConfig.ExerciseConfig.mtime AccessConfig.ExerciseConfig.ptime].
  unfold AccessConfig.ExerciseConfig.data_for_language, Props.stamp.
  split; [|split; [|split]].
  - intros ->. by rewrite bool_decide_eq_true_2.
  - intros l variant -> Hl Hv.
    rewrite bool_decide_eq_false_2 by congruence. simpl. by rewrite Hv.
  - intros variant Hroot Hnone Hv. rewrite bool_decide_eq_false_2 by done.
    destruct lang as [l|]; simpl in *; rewrite ?Hnone, Hv; done.
  - intros Hroot Hnone Hv. rewrite bool_decide_eq_false_2 by done.
    destruct lang as [l|]; simpl in *; rewrite ?Hnone, Hv;
      by destruct data as [|[? ?] ?].
Qed.

(** The cases of [data_for_language] in [access/course.py]. *)
Lemma course_data_for_language_cases
      (self : AccessCourse.ExerciseConfig.t) (lang : option string) :
  let stamped k variant :=
    AccessCourse.ExerciseConfig.mk
      (Props.stamp (AccessCourse.ExerciseConfig.data self) k variant)
      (AccessCourse.ExerciseConfig.file self)
      (AccessCourse.ExerciseConfig.mtime self)
      (AccessCourse.ExerciseConfig.ptime self)
      (AccessCourse.ExerciseConfig.default_lang self) in
  (lang = Some "_root" ->
   AccessCourse.ExerciseConfig.data_for_language self lang = (Ok WholeSet, self))
  /\ (forall l variant,
        lang = Some l -> l <> "_root" ->
        dict_get l (AccessCourse.ExerciseConfig.data self) = Some variant ->
        AccessCourse.ExerciseConfig.data_for_language self lang
        = (Ok (Variant l), stamped l variant))
  /\ (forall variant,
        lang <> Some "_root" ->
        Props.variant_of (AccessCourse.ExerciseConfig.data self) lang = None ->
        dict_get (AccessCourse.ExerciseConfig.default_lang self)
                 (AccessCourse.ExerciseConfig.data self) = Some variant ->
        AccessCourse.ExerciseConfig.data_for_language self lang
        = (Ok (Variant (AccessCourse.ExerciseConfig.default_lang self)),
           stamped (AccessCourse.ExerciseConfig.default_lang self) variant))
  /\ (lang <> Some "_root" ->
      Props.variant_of (AccessCourse.ExerciseConfig.data self) lang = None ->
      dict_get (AccessCourse.ExerciseConfig.default_lang self)
               (AccessCourse.ExerciseConfig.data self) = None ->
      snd (AccessCourse.ExerciseConfig.data_for_language self lang) = self).
Proof.
  destruct self as [data f m p dl]. cbv zeta. cbn [AccessCourse.ExerciseConfig.data
    AccessCourse.ExerciseConfig.default_lang AccessCourse.ExerciseConfig.file
    AccessCourse.ExerciseConfig.mtime AccessCourse.ExerciseConfig.ptime].
  unfold AccessCourse.ExerciseConfig.data_for_language, Props.stamp.
  split; [|split; [|split]].
  - intros ->. by rewrite bool_decide_eq_true_2.
  - intros l variant -> Hl Hv.
    rewrite bool_decide_eq_false_2 by congruence. simpl. by rewrite Hv.
  - intros variant Hroot Hnone Hv. rewrite bool_decide_eq_false_2 by done.
    destruct lang as [l|]; simpl in *; rewrite ?Hnone, Hv; done.
  - intros Hroot Hnone Hv. rewrite bool_decide_eq_false_2 by done.
    destruct lang as [l|]; simpl in *; rewrite ?Hnone, Hv;
      by destruct data as [|[? ?] ?].
Qed.

(** What the stamp leaves alone. *)
Lemma stamp_frame (data : list (string * dict)) (k : string) (variant : dict) :
  dict_get k data = Some variant ->
  let data' := dict_set k (dict_set "lang" (VStr k) variant) data in
  dict_keys data' = dict_keys data /\
  (forall l, l <> k -> dict_get l data' = dict_get l data) /\
  (exists variant', dict_get k data' = Some variant' /\
     dict_get "lang" variant' = Some (VStr k) /\
     forall f, f <> "lang" -> dict_get f variant' = dict_get f variant).
Proof.
  intros Hk data'. split; [|split].
  - apply dict_keys_set_present. by rewrite Hk.
  - intros l Hl. apply dict_get_set_ne. congruence.
  - eexists. split; [apply dict_get_set_eq|]. split; [apply dict_get_set_eq|].
    intros f Hf. apply dict_get_set_ne. congruence.
Qed.

(** C10 (amended).  [data_for_language] is not pure.  When the variant for
    [lang] exists, that variant is returned and the record afterwards is the
    record with the [lang] field of that stored variant set to [lang]; when
    it does not and the variant of the default language exists, the same
    holds of the default language.  The sentinel [_root] and the fallback to
    the first variant leave the record as it is.  The stamp changes nothing
    else: the languages and their order, the other variants and the other
    fields of the stamped variant stay, as do the file and time fields.
    Both versions of the method. *)
Theorem data_for_language_stamps_lang (lang : option string) :
  (forall self : AccessConfig.ExerciseConfig.t,
      let stamped k variant :=
        AccessConfig.ExerciseConfig.mk
          (AccessConfig.ExerciseConfig.course_lang self)
          (AccessConfig.ExerciseConfig.file self)
          (AccessConfig.ExerciseConfig.mtime self)
          (AccessConfig.ExerciseConfig.ptime self)
          (Props.stamp (AccessConfig.ExerciseConfig.data self) k variant) in
      (lang = Some "_root" ->
       AccessConfig.ExerciseConfig.data_for_language self lang
       = (Ok WholeSet, self))
      /\ (forall l variant,
            lang = Some l -> l <> "_root" ->
            dict_get l (AccessConfig.ExerciseConfig.data self) = Some variant ->
            AccessConfig.ExerciseConfig.data_for_language self lang
            = (Ok (Variant l), stamped l variant))
      /\ (forall variant,
            lang <> Some "_root" ->
            Props.variant_of (AccessConfig.ExerciseConfig.data self) lang = None ->
            dict_get (AccessConfig.ExerciseConfig.course_lang self)
                     (AccessConfig.ExerciseConfig.data self) = Some variant ->
            AccessConfig.ExerciseConfig.data_for_language self lang
            = (Ok (Variant (AccessConfig.ExerciseConfig.course_lang self)),
               stamped (AccessConfig.ExerciseConfig.course_lang self) variant))
      /\ (lang <> Some "_root" ->
          Props.variant_of (AccessConfig.ExerciseConfig.data self) lang = None ->
          dict_get (AccessConfig.ExerciseConfig.course_lang self)
                   (AccessConfig.ExerciseConfig.data self) = None ->
          snd (AccessConfig.ExerciseConfig.data_for_language self lang) = self))
  /\
  (forall self : AccessCourse.ExerciseConfig.t,
      let stamped k variant :=
        AccessCourse.ExerciseConfig.mk
          (Props.stamp (AccessCourse.ExerciseConfig.data self) k variant)
          (AccessCourse.ExerciseConfig.file self)
          (AccessCourse.ExerciseConfig.mtime self)
          (AccessCourse.ExerciseConfig.ptime self)
          (AccessCourse.ExerciseConfig.default_lang self) in
      (lang = Some "_root" ->
       AccessCourse.ExerciseConfig.data_for_language self lang
       = (Ok WholeSet, self))
      /\ (forall l variant,
            lang = Some l -> l <> "_root" ->
            dict_get l (AccessCourse.ExerciseConfig.data self) = Some variant ->
            AccessCourse.ExerciseConfig.data_for_language self lang
            = (Ok (Variant l), stamped l variant))
      /\ (forall variant,
            lang <> Some "_root" ->
            Props.variant_of (AccessCourse.ExerciseConfig.data self) lang = None ->
            dict_get (AccessCourse.ExerciseConfig.default_lang self)
                     (AccessCourse.ExerciseConfig.data self) = Some variant ->
            AccessCourse.ExerciseConfig.data_for_language self lang
            = (Ok (Variant (AccessCourse.ExerciseConfig.default_lang self)),
               stamped (AccessCourse.ExerciseConfig.default_lang self) variant))
      /\ (lang <> Some "_root" ->
          Props.variant_of (AccessCourse.ExerciseConfig.data self) lang = None ->
          dict_get (AccessCourse.ExerciseConfig.default_lang self)
                   (AccessCourse.ExerciseConfig.data self) = None ->
          snd (AccessCourse.ExerciseConfig.data_for_language self lang) = self))
  /\
  (forall (data : list (string * dict)) (k : string) (variant : dict),
      dict_get k data = Some variant ->
      dict_keys (Props.stamp data k variant) = dict_keys data /\
      (forall l, l <> k -> dict_get l (Props.stamp data k variant) = dict_get l data) /\
      (exists variant',
          dict_get k (Props.stamp data k variant) = Some variant' /\
          dict_get "lang" variant' = Some (VStr k) /\
          forall f, f <> "lang" -> dict_get f variant' = dict_get f variant)).
Proof.
  split; [|split].
  - intros self. apply config_data_for_language_cases.
  - intros self. apply course_data_for_language_cases.
  - intros data k variant Hk. by apply stamp_frame.
Qed.

(** C10, as stated, fails: the stored variant [en] has no [lang] field
    before the call and has one after it. *)
Lemma data_for_language_mutates :
  dict_get "en" (AccessConfig.ExerciseConfig.data exercise_en)
  = Some [("title", VStr "T")] /\
  dict_get "en"
    (AccessConfig.ExerciseConfig.data
       (snd (AccessConfig.ExerciseConfig.data_for_language exercise_en (Some "en"))))
  = Some [("title", VStr "T"); ("lang", VStr "en")] /\
  dict_get "en"
    (AccessCourse.ExerciseConfig.data
       (snd (AccessCourse.ExerciseConfig.data_for_language exercise_en' (Some "en"))))
  = Some [("title", VStr "T"); ("lang", VStr "en")].
Proof. repeat split. Qed.

(** A second call with the same selector changes nothing more. *)
Lemma config_data_for_language_twice
      (self : AccessConfig.ExerciseConfig.t) (lang : option string) :
  let self' := snd (AccessConfig.ExerciseConfig.data_for_language self lang) in
  AccessConfig.ExerciseConfig.data_for_language self' lang
  = (fst (AccessConfig.ExerciseConfig.data_for_language self lang), self').
Proof.
  destruct self as [dl f m p data]. cbv zeta.
  unfold AccessConfig.ExerciseConfig.data_for_language.
  destruct (decide (lang = Some "_root")) as [Hr|Hr].
  { by rewrite !bool_decide_eq_true_2 by done. }
  rewrite !bool_decide_eq_false_2 by done. simpl.
  assert (Hstamp : forall l v, dict_get l data = Some v ->
     dict_set l (dict_set "lang" (VStr l) (dict_set "lang" (VStr l) v))
              (dict_set l (dict_set "lang" (VStr l) v) data)
     = dict_set l (dict_set "lang" (VStr l) v) data).
  { intros l v Hv. apply dict_set_same. rewrite dict_get_set_eq. f_equal.
    symmetry. apply dict_set_same. apply dict_get_set_eq. }
  destruct lang as [l|].
  - destruct (dict_get l data) as [v|] eqn:El; simpl.
    + rewrite dict_get_set_eq. simpl. by rewrite Hstamp.
    + destruct (dict_get dl data) as [v|] eqn:Ed; simpl.
      * destruct (String.eqb_spec l dl) as [->|Hne]; [congruence|].
        rewrite dict_get_set_ne by congruence. rewrite El.
        rewrite dict_get_set_eq. simpl. by rewrite Hstamp.
      * destruct data as [|[k v] data]; simpl; [done|].
        simpl in El, Ed. by rewrite El, Ed.
  - destruct (dict_get dl data) as [v|] eqn:Ed; simpl.
    + rewrite dict_get_set_eq. simpl. by rewrite Hstamp.
    + destruct data as [|[k v] data]; simpl; [done|].
      simpl in Ed. by rewrite Ed.
Qed.

End DataForLanguage.

(** ** The result monad *)

Section ResultMonad.

Lemma bind_Ok {A B} (m : result A) (k : A -> result B) (b : B) :
  bind m k = Ok b -> exists a, m = Ok a /\ k a = Ok b.
Proof. destruct m as [a|e]; simpl; [eauto | done]. Qed.

Lemma foldM_app {A B} (f : A -> B -> result A) (l1 l2 : list B) (acc : A) :
  foldM f (l1 ++ l2) acc = bind (foldM f l1 acc) (foldM f l2).
Proof.
  revert acc; induction l1 as [|x l1 IH]; intros acc; simpl; [done|].
  destruct (f acc x) as [acc'|e]; simpl; [apply IH | done].
Qed.

(** An invariant of the accumulator is kept by a loop that ends well. *)
Lemma foldM_invariant {A B} (P : A -> Prop) (f : A -> B -> result A)
      (l : list B) (acc acc' : A) :
  (forall a x a', x ∈ l -> P a -> f a x = Ok a' -> P a') ->
  P acc -> foldM f l acc = Ok acc' -> P acc'.
Proof.
  revert acc; induction l as [|x l IH]; intros acc Hstep Hacc; simpl.
  - by intros [= <-].
  - intros (a & Ha & Hrest)%bind_Ok.
    apply (IH a); [|by eapply Hstep; [left| |]|done].
    intros a0 y a1 Hy. apply Hstep. by right.
Qed.

Lemma foldM_not_raise {A B} (e0 : exn) (f : A -> B -> result A)
      (l : list B) (acc : A) :
  (forall a x, x ∈ l -> f a x <> Raise e0) -> foldM f l acc <> Raise e0.
Proof.
  revert acc; induction l as [|x l IH]; intros acc Hstep; simpl; [done|].
  destruct (f acc x) as [acc'|e] eqn:E; simpl.
  - apply IH. intros a y Hy. apply Hstep. by right.
  - rewrite <- E. apply Hstep. by left.
Qed.

End ResultMonad.

(** ** The include resolver *)

Section IncludeResolver.
Import Py Builtins AccessConfig AccessConfig.ConfigParser Examples.

Lemma dict_get_app {A} (k : string) (a b : list (string * A)) :
  dict_get k (a ++ b)
  = match dict_get k a with Some v => Some v | None => dict_get k b end.
Proof.
  induction a as [|[k' v'] a IH]; simpl; [done|].
  by destruct (String.eqb k k').
Qed.

Lemma dict_get_update {A} (k : string) (rd new : list (string * A)) :
  NoDup (dict_keys new) ->
  dict_get k (dict_update rd new)
  = match dict_get k new with Some v => Some v | None => dict_get k rd end.
Proof.
  unfold dict_update. revert rd.
  induction new as [|[k0 v0] new IH]; intros rd Hnd; simpl; [done|].
  simpl in Hnd. apply NoDup_cons in Hnd as [Hk0 Hnd]. rewrite IH by done.
  rewrite dict_get_set.
  destruct (String.eqb_spec k k0) as [->|Hne]; [|done].
  apply dict_get_None_keys in Hk0. by rewrite Hk0.
Qed.

Lemma dict_update_keeps {A} (k : string) (rd new : list (string * A)) :
  is_Some (dict_get k rd) -> is_Some (dict_get k (dict_update rd new)).
Proof.
  unfold dict_update. revert rd.
  induction new as [|[k0 v0] new IH]; intros rd Hs; simpl; [done|].
  apply IH. rewrite dict_get_set. by destruct (String.eqb k k0).
Qed.

(** Without [force]: when no included key is in the accumulator, all are
    added, in order. *)
Lemma merge_steps_absent (target_file include_file : string)
      (new rd : dict) :
  NoDup (dict_keys new) ->
  (forall k, k ∈ dict_keys new -> dict_get k rd = None) ->
  foldM (merge_step target_file include_file) new rd = Ok (rd ++ new).
Proof.
  revert rd. induction new as [|[k v] new IH]; intros rd Hnd Habs; simpl.
  - by rewrite app_nil_r.
  - simpl in Hnd. apply NoDup_cons in Hnd as [Hk Hnd].
    rewrite (Habs k) by (by left). simpl.
    rewrite (dict_set_absent k v rd) by (apply Habs; by left).
    rewrite IH; [by rewrite <- app_assoc | done |].
    intros k' Hk'. rewrite dict_get_app, (Habs k') by (by right). simpl.
    destruct (String.eqb_spec k' k) as [->|Hne]; [done | done].
Qed.

(** Without [force]: the first included key that is in the accumulator
    raises the error, which carries both values and both files. *)
Lemma merge_steps_collision (target_file include_file : string)
      (pre post rd : dict) (k : string) (v old : value) :
  NoDup (dict_keys pre) ->
  (forall k', k' ∈ dict_keys pre -> dict_get k' rd = None) ->
  dict_get k rd = Some old ->
  foldM (merge_step target_file include_file) (pre ++ (k, v) :: post) rd
  = Raise (ConfigError (KeyAlreadyExists k old target_file v include_file)).
Proof.
  intros Hnd Habs Hold.
  rewrite foldM_app, merge_steps_absent by done. simpl.
  by rewrite dict_get_app, Hold.
Qed.

Lemma merge_step_keeps (target_file include_file : string)
      (rd rd' : dict) (item : string * value) (k : string) :
  is_Some (dict_get k rd) ->
  merge_step target_file include_file rd item = Ok rd' ->
  is_Some (dict_get k rd').
Proof.
  destruct item as [k0 v0]. simpl. intros Hs.
  destruct (dict_get k0 rd) eqn:E; [done|]. intros [= <-].
  rewrite dict_get_set. by destruct (String.eqb k k0).
Qed.

(** The value of [force], for an include entry that is a mapping. *)
Lemma merge_include_dict (rd d : dict) (new_data : value)
      (target_file include_file : string) :
  merge_include rd (VDict d) new_data target_file include_file
  = if match dict_get "force" d with Some f => truthy f | None => false end
    then update rd new_data
    else bind (items new_data)
              (fun new_items =>
                 foldM (merge_step target_file include_file) new_items rd).
Proof.
  unfold merge_include. simpl.
  destruct (dict_has "force" d) eqn:Eh.
  - apply dict_has_get in Eh as [f Ef]. by rewrite Ef.
  - apply dict_has_false in Eh. by rewrite Eh.
Qed.

Lemma update_keeps (rd rd' : dict) (other : value) (k : string) :
  is_Some (dict_get k rd) -> update rd other = Ok rd' ->
  is_Some (dict_get k rd').
Proof.
  intros Hs. unfold update.
  assert (Hfold : forall pairs, foldM update_pair pairs rd = Ok rd' ->
                                is_Some (dict_get k rd')).
  { intros pairs.
    apply (foldM_invariant (fun rd => is_Some (dict_get k rd))); [|done].
    intros a x a' _ Ha. unfold update_pair.
    intros ([k0 v0] & _ & Hk0)%bind_Ok.
    destruct k0; try done. injection Hk0 as <-.
    rewrite dict_get_set. by destruct (String.eqb k s). }
  destruct other as [| | |s|l|n]; simpl; try done.
  - apply Hfold.
  - apply Hfold.
  - intros [= <-]. by apply dict_update_keeps.
Qed.

Lemma merge_include_keeps (rd rd' : dict) (include_data new_data : value)
      (target_file include_file : string) (k : string) :
  is_Some (dict_get k rd) ->
  merge_include rd include_data new_data target_file include_file = Ok rd' ->
  is_Some (dict_get k rd').
Proof.
  intros Hs. unfold merge_include.
  intros (hf & _ & (force & _ & Hm)%bind_Ok)%bind_Ok.
  destruct force.
  - by eapply update_keeps.
  - apply bind_Ok in Hm as (new_items & _ & Hf).
    revert Hf. apply (foldM_invariant (fun rd => is_Some (dict_get k rd))); [|done].
    intros a x a' _ Ha Hstep. by eapply merge_step_keeps.
Qed.

Section WithExternals.
Context `{Externals}.

(** The keys of the host document are in the result of [_include]. *)
Lemma include_keeps_host_keys (host r : dict) (target_file course_dir : string)
      (k : string) :
  _include (VDict host) target_file course_dir = Ok r ->
  is_Some (dict_get k host) -> is_Some (dict_get k r).
Proof.
  unfold _include. simpl.
  intros (includes & _ & (l & _ & Hf)%bind_Ok)%bind_Ok Hs.
  revert Hf. apply (foldM_invariant (fun rd => is_Some (dict_get k rd))); [|done].
  intros a x a' _ Ha ([include_file new_data] & _ & Hm)%bind_Ok.
  by eapply merge_include_keeps.
Qed.

(** With an empty include list the result is the host document. *)
Lemma include_nothing (host : dict) (target_file course_dir : string) :
  dict_get "include" host = Some (VList []) ->
  _include (VDict host) target_file course_dir = Ok host.
Proof. intros Hi. unfold _include. simpl. by rewrite Hi. Qed.

(** An include entry without [template_context]: the loader is applied to
    the path of the include file.  The JSON loader then fails on the
    string; the YAML loader parses the path as if it were the text.  The
    content of the file is not read. *)
Lemma load_include_direct (d : dict) (file target_file course_dir : string)
      (include_file : string) :
  dict_get "file" d = Some (VStr file) ->
  dict_get "template_context" d = None ->
  get_config (OsPath.join course_dir file) = Ok include_file ->
  load_include (VDict d) target_file course_dir
  = match format_of include_file with
    | Some json_load => Raise AttributeError
    | Some yaml_safe_load =>
        match yaml_loads include_file with
        | Some v => Ok (include_file, v)
        | None => Raise YAMLError
        end
    | None => Raise KeyError
    end.
Proof.
  intros Hfile Hctx Hcfg. unfold load_include, check_fields. simpl.
  rewrite (dict_has_of_get _ _ _ Hfile). simpl. rewrite Hfile. simpl.
  rewrite Hcfg. simpl.
  destruct (format_of include_file) as [[|]|]; simpl; [| |done].
  - by rewrite (dict_has_of_get_None _ _ Hctx).
  - rewrite (dict_has_of_get_None _ _ Hctx). simpl.
    by destruct (yaml_loads include_file).
Qed.

End WithExternals.

(** C5: the include resolver at the failing input.  The host document is
    [{a: 1, include: [{file: inc}]}]; [inc.yaml] exists and its text
    [{b: 2}] parses to the mapping [b: 2]; the entry has no
    [template_context].  The loader is given the path of the file, which
    YAML reads as a string, and [new_data.items()] raises. *)
Theorem include_direct_parses_path :
  read_file (Externals := demo) "/srv/courses/c/inc.yaml" = Some "{b: 2}" /\
  yaml_loads (Externals := demo) "{b: 2}" = Some (VDict [("b", VInt 2)]) /\
  get_config (H := demo) "/srv/courses/c/inc"
  = Ok "/srv/courses/c/inc.yaml" /\
  load_include (H := demo) (VDict [("file", VStr "inc")])
    "/srv/courses/c/ex.yaml" "/srv/courses/c"
  = Ok ("/srv/courses/c/inc.yaml", VStr "/srv/courses/c/inc.yaml") /\
  _include (H := demo) doc_host "/srv/courses/c/ex.yaml" "/srv/courses/c"
  = Raise AttributeError.
Proof. repeat split; vm_compute; reflexivity. Qed.

(** The sibling path [ConfigParser.parse] opens the file and parses its
    text. *)
Lemma parse_reads_content :
  parse (H := demo) "/srv/courses/c/inc.yaml" = Ok (VDict [("b", VInt 2)]).
Proof. vm_compute. reflexivity. Qed.

Lemma dict_has_app {A} (k : string) (a b : list (string * A)) :
  dict_has k (a ++ b) = dict_has k a || dict_has k b.
Proof.
  induction a as [|[k' v'] a IH]; simpl; [done|].
  by destruct (String.eqb k k').
Qed.

Lemma find_has_app (rd new : dict) (k : string) (v : value) :
  k ∉ dict_keys new ->
  List.find (fun kv => dict_has (fst kv) (rd ++ [(k, v)])) new
  = List.find (fun kv => dict_has (fst kv) rd) new.
Proof.
  induction new as [|[k' v'] new IH]; simpl; [done|].
  intros [Hne Hk]%not_elem_of_cons. rewrite dict_has_app. simpl.
  destruct (String.eqb_spec k' k) as [->|_]; [done|].
  rewrite orb_false_r. destruct (dict_has k' rd); [done|]. by apply IH.
Qed.

(** The loop over the included items is the merge of the specification
    without [force]. *)
Lemma merge_steps_find (target_file include_file : string) (new : dict) :
  forall rd : dict,
    NoDup (dict_keys new) ->
    foldM (merge_step target_file include_file) new rd
    = Spec.merge rd target_file (Spec.mkIncluded false include_file new).
Proof.
  unfold Spec.merge. cbn [Spec.inc_force Spec.inc_data Spec.inc_file].
  induction new as [|[k v] new IH]; intros rd Hnd; cbn [foldM List.find fst].
  - by rewrite app_nil_r.
  - simpl in Hnd. apply NoDup_cons in Hnd as [Hk Hnd]. unfold merge_step at 1.
    destruct (dict_get k rd) as [old|] eqn:Eold; cbn [bind].
    + by rewrite (dict_has_of_get _ _ _ Eold), Eold.
    + rewrite (dict_has_of_get_None _ _ Eold), dict_set_absent by done.
      rewrite IH, find_has_app by done.
      destruct (List.find _ new) as [[k' v']|] eqn:Ef.
      * apply find_some in Ef as [_ Hhas]. cbn [fst] in Hhas.
        apply dict_has_get in Hhas as [old' Hold'].
        by rewrite dict_get_app, Hold'.
      * by rewrite <- app_assoc.
Qed.

(** What the merge of the specification does, case by case. *)
Lemma merge_cases (acc : dict) (host_file : string) (entry : Spec.included) :
  NoDup (dict_keys (Spec.inc_data entry)) ->
  (Spec.inc_force entry = true ->
   Spec.merge acc host_file entry
   = Ok (dict_update acc (Spec.inc_data entry)) /\
   forall k, dict_get k (dict_update acc (Spec.inc_data entry))
             = match dict_get k (Spec.inc_data entry) with
               | Some v => Some v
               | None => dict_get k acc
               end)
  /\ (Spec.inc_force entry = false ->
      (forall k, k ∈ dict_keys (Spec.inc_data entry) -> dict_get k acc = None) ->
      Spec.merge acc host_file entry = Ok (acc ++ Spec.inc_data entry))
  /\ (Spec.inc_force entry = false ->
      forall pre k v post old,
        Spec.inc_data entry = pre ++ (k, v) :: post ->
        (forall k', k' ∈ dict_keys pre -> dict_get k' acc = None) ->
        dict_get k acc = Some old ->
        Spec.merge acc host_file entry
        = Raise (ConfigError
                   (KeyAlreadyExists k old host_file v (Spec.inc_file entry)))).
Proof.
  destruct entry as [force f new]. cbn [Spec.inc_force Spec.inc_data Spec.inc_file].
  intros Hnd. split; [|split].
  - intros ->. split; [done|]. intros k. by apply dict_get_update.
  - intros -> Habs. rewrite <- merge_steps_find by done.
    by apply merge_steps_absent.
  - intros -> pre k v post old -> Habs Hold.
    rewrite <- merge_steps_find by done.
    apply merge_steps_collision; [|done|done].
    unfold dict_keys in Hnd. rewrite map_app in Hnd.
    by apply NoDup_app in Hnd as [? _].
Qed.

Section MergePolicy.
Context `{Externals}.

(** [_include] merges the loaded entries in the order of the list, from
    the host document. *)
Lemma include_refines (host : dict) (includes : list value)
      (loaded : list Spec.included) (target_file course_dir : string) :
  dict_get "include" host = Some (VList includes) ->
  Forall2 (fun include_data entry =>
             exists d, include_data = VDict d /\
               Props.forced d = Spec.inc_force entry /\
               load_include include_data target_file course_dir
               = Ok (Spec.inc_file entry, VDict (Spec.inc_data entry)) /\
               NoDup (dict_keys (Spec.inc_data entry)))
          includes loaded ->
  _include (VDict host) target_file course_dir
  = Spec.include_all host target_file loaded.
Proof.
  intros Hinc Hall. unfold _include, Spec.include_all. cbn [bind getitem].
  rewrite Hinc. cbn [bind iter]. clear Hinc. generalize host as acc.
  induction Hall as [|e entry es entries (d & -> & Hforce & Hload & Hnd) _ IH];
    intros acc; cbn [foldM]; [done|].
  rewrite Hload. cbn [bind]. rewrite merge_include_dict.
  fold (Props.forced d). rewrite Hforce.
  destruct entry as [[|] f new];
    cbn [Spec.inc_force Spec.inc_data Spec.inc_file] in *.
  - cbn [update bind]. apply IH.
  - cbn [items bind]. rewrite merge_steps_find by done.
    destruct (Spec.merge acc target_file (Spec.mkIncluded false f new));
      cbn [bind]; [apply IH | done].
Qed.

(** C6 (amended).  [_include] on a host document whose include entries
    are loaded as mappings: the result is the merge of the specification,
    entry by entry in the order of the include list, starting from the host
    document.  With a true [force] the accumulator is updated, so every
    included key gets the included value; otherwise, when no included key
    is in the accumulator they are all added after its entries, and the
    first included key that the accumulator has raises the configuration
    error, which carries the key, the value in the accumulator, the host
    file, the included value and the file being included. *)
Theorem include_merge_policy (host : dict) (includes : list value)
        (loaded : list Spec.included) (target_file course_dir : string) :
  dict_get "include" host = Some (VList includes) ->
  Forall2 (fun include_data entry =>
             exists d, include_data = VDict d /\
               Props.forced d = Spec.inc_force entry /\
               load_include include_data target_file course_dir
               = Ok (Spec.inc_file entry, VDict (Spec.inc_data entry)) /\
               NoDup (dict_keys (Spec.inc_data entry)))
          includes loaded ->
  _include (VDict host) target_file course_dir
  = Spec.include_all host target_file loaded
  /\ Spec.include_all host target_file [] = Ok host
  /\ (forall pre entry,
        Spec.include_all host target_file (pre ++ [entry])
        = bind (Spec.include_all host target_file pre)
               (fun acc => Spec.merge acc target_file entry))
  /\ (forall acc entry,
        NoDup (dict_keys (Spec.inc_data entry)) ->
        (Spec.inc_force entry = true ->
         Spec.merge acc target_file entry
         = Ok (dict_update acc (Spec.inc_data entry)) /\
         forall k, dict_get k (dict_update acc (Spec.inc_data entry))
                   = match dict_get k (Spec.inc_data entry) with
                     | Some v => Some v
                     | None => dict_get k acc
                     end)
        /\ (Spec.inc_force entry = false ->
            (forall k, k ∈ dict_keys (Spec.inc_data entry) ->
                       dict_get k acc = None) ->
            Spec.merge acc target_file entry
            = Ok (acc ++ Spec.inc_data entry))
        /\ (Spec.inc_force entry = false ->
            forall pre k v post old,
              Spec.inc_data entry = pre ++ (k, v) :: post ->
              (forall k', k' ∈ dict_keys pre -> dict_get k' acc = None) ->
              dict_get k acc = Some old ->
              Spec.merge acc target_file entry
              = Raise (ConfigError
                         (KeyAlreadyExists k old target_file v
                                           (Spec.inc_file entry))))).
Proof.
  intros Hinc Hall. split; [by apply (include_refines host includes)|].
  split; [done|].
  split.
  - intros pre entry. unfold Spec.include_all. rewrite foldM_app.
    destruct (foldM _ pre host) as [acc|]; cbn [bind foldM]; [|done].
    by destruct (Spec.merge acc target_file entry).
  - intros acc entry. apply merge_cases.
Qed.

End MergePolicy.

(** The example of the specification: [{a: 1}] merged with an include
    that produces [{b: 2}], without [force], is [{a: 1, b: 2}]. *)
Lemma include_merge_policy_witness :
  _include (H := demo_rendering) (VDict doc_host_template)
           "/srv/courses/c/ex.yaml" "/srv/courses/c"
  = Spec.include_all doc_host_template "/srv/courses/c/ex.yaml"
      [Spec.mkIncluded false "/srv/courses/c/inc.yaml" [("b", VInt 2)]]
  /\ Spec.include_all doc_host_template "/srv/courses/c/ex.yaml"
       [Spec.mkIncluded false "/srv/courses/c/inc.yaml" [("b", VInt 2)]]
     = Ok (doc_host_template ++ [("b", VInt 2)]).
Proof.
  split; [|vm_compute; reflexivity].
  refine (proj1 (include_merge_policy (H := demo_rendering) doc_host_template
                   [VDict [("file", VStr "inc"); ("template_context", VDict [])]]
                   [Spec.mkIncluded false "/srv/courses/c/inc.yaml"
                                    [("b", VInt 2)]]
                   "/srv/courses/c/ex.yaml" "/srv/courses/c" _ _)).
  - reflexivity.
  - constructor; [|constructor].
    exists [("file", VStr "inc"); ("template_context", VDict [])].
    split; [reflexivity|]. split; [reflexivity|].
    split; [vm_compute; reflexivity|].
    apply (bool_decide_unpack _). vm_compute. exact I.
Defined.

(** C6, as stated, fails where it says that the error names both
    conflicting sources.  The host document [{a: 1}] has no key [b]; the
    first include, [inc.yaml], adds [b: 2], and the second, [inc2.yaml],
    brings [b: 3].  The error names the host file as the place where [b]
    exists with the value 2, and [inc2.yaml]; the file [inc.yaml], from
    which the value 2 comes, is not in it. *)
Lemma include_collision_names_host :
  dict_get "b" (doc_host_two false) = None /\
  load_include (H := demo_rendering)
    (VDict [("file", VStr "inc"); ("template_context", VDict [])])
    "/srv/courses/c/ex.yaml" "/srv/courses/c"
  = Ok ("/srv/courses/c/inc.yaml", VDict [("b", VInt 2)]) /\
  _include (H := demo_rendering) (VDict (doc_host_two false))
           "/srv/courses/c/ex.yaml" "/srv/courses/c"
  = Raise (ConfigError
             (KeyAlreadyExists "b" (VInt 2) "/srv/courses/c/ex.yaml"
                               (VInt 3) "/srv/courses/c/inc2.yaml")).
Proof. repeat split; vm_compute; reflexivity. Qed.

(** With [force] on the second include its value wins. *)
Lemma include_forced_example :
  _include (H := demo_rendering) (VDict (doc_host_two true))
           "/srv/courses/c/ex.yaml" "/srv/courses/c"
  = Ok (doc_host_two true ++ [("b", VInt 3)]).
Proof. vm_compute. reflexivity. Qed.

(** Both define [a], no [force]: the error; with [force] the included
    value wins. *)
Lemma merge_include_examples :
  merge_include [("a", VInt 1)] (VDict [("file", VStr "inc")])
                (VDict [("a", VInt 2)]) "host.yaml" "inc.yaml"
  = Raise (ConfigError (KeyAlreadyExists "a" (VInt 1) "host.yaml"
                                         (VInt 2) "inc.yaml")) /\
  merge_include [("a", VInt 1)]
                (VDict [("file", VStr "inc"); ("force", VBool true)])
                (VDict [("a", VInt 2)]) "host.yaml" "inc.yaml"
  = Ok [("a", VInt 2)].
Proof. split; reflexivity. Qed.

End IncludeResolver.

(** ** The course and exercise cache *)

Section Cache.
Import Py Builtins AccessConfig Examples.
Import CourseConfig.

(** C4 (amended).  A [language] field that is a non-empty list makes its
    first element the default language, and stores it under [lang]; when
    [language] is absent the document's own [lang] value is the default
    language if there is one, and the fixed fallback [en] otherwise. *)
Theorem default_lang_derivation (data : dict) :
  (forall first rest,
      dict_get "language" data = Some (VList (first :: rest)) ->
      _default_lang data = (Ok first, dict_set "lang" first data))
  /\ (dict_get "language" data = None ->
      _default_lang data
      = (Ok (default (VStr DEFAULT_LANG) (dict_get "lang" data)), data) /\
      (dict_get "lang" data = None ->
       _default_lang data = (Ok (VStr "en"), data))).
Proof.
  unfold _default_lang. split.
  - intros first rest ->. simpl. by rewrite dict_get_set_eq.
  - intros ->. simpl. split; [done|]. by intros ->.
Qed.

Lemma default_lang_derivation_witness :
  _default_lang [("name", VStr "C"); ("language", VList [VStr "fi"; VStr "en"])]
  = (Ok (VStr "fi"),
     [("name", VStr "C"); ("language", VList [VStr "fi"; VStr "en"]);
      ("lang", VStr "fi")]).
Proof.
  apply (proj1 (default_lang_derivation
           [("name", VStr "C"); ("language", VList [VStr "fi"; VStr "en"])])
           (VStr "fi") [VStr "en"]).
  reflexivity.
Defined.

(** C4, as stated, fails: [language] is absent and the default language is
    not the fixed fallback but the document's [lang]. *)
Lemma default_lang_reads_lang :
  dict_get "language" [("name", VStr "C"); ("lang", VStr "fi")] = None /\
  fst (_default_lang [("name", VStr "C"); ("lang", VStr "fi")])
  = Ok (VStr "fi") /\
  VStr "fi" <> VStr DEFAULT_LANG.
Proof. repeat split. discriminate. Qed.

(** A [language] that is not a list is not looked at: the comparison
    [l == str] never holds, so the result is that of a document without
    [language]. *)
Lemma default_lang_not_a_list (data : dict) (l : value) :
  dict_get "language" data = Some l ->
  (forall l', l <> VList l') ->
  _default_lang data
  = (Ok (default (VStr DEFAULT_LANG) (dict_get "lang" data)), data).
Proof.
  intros Hl Hnl. unfold _default_lang. rewrite Hl. simpl.
  destruct l; try done. by specialize (Hnl l).
Qed.

Lemma default_lang_string_example :
  _default_lang [("language", VStr "fi")]
  = (Ok (VStr "en"), [("language", VStr "fi")]).
Proof. reflexivity. Qed.

Section WithExternals.
Context `{Externals}.

Lemma fresh_probe_fails (entry_mtime : Z) (entry_file : string) :
  getmtime entry_file = None -> fresh entry_mtime entry_file = false.
Proof. unfold fresh. by intros ->. Qed.

Lemma fresh_not_older (entry_mtime t : Z) (entry_file : string) :
  getmtime entry_file = Some t -> (t <= entry_mtime)%Z ->
  fresh entry_mtime entry_file = true.
Proof. unfold fresh. intros -> Hle. apply Z.geb_le. lia. Qed.

Lemma fresh_older (entry_mtime t : Z) (entry_file : string) :
  getmtime entry_file = Some t -> (entry_mtime < t)%Z ->
  fresh entry_mtime entry_file = false.
Proof.
  unfold fresh. intros -> Hlt. destruct (Z.geb_spec entry_mtime t); [lia|done].
Qed.

(** C3 (amended).  A cached course or exercise entry is returned unchanged
    when the probe of its file succeeds and the recorded mtime is not
    older.  When the probe fails with a filesystem error, that error is
    passed over and the entry is not used: the call goes on to load the
    entry from disk, as it does for a stale or missing entry. *)
Theorem cache_probe (course_key exercise_key : string) (_courses : courses)
        (config self : t) (exercise_root : ExerciseConfig.t) :
  dict_get course_key _courses = Some config ->
  bind (getitem (VDict (data self)) (VStr "exercises"))
       (fun listed => contains (VStr exercise_key) listed) = Ok true ->
  dict_get exercise_key (exercises self) = Some exercise_root ->
  (getmtime (file config) = None ->
   get course_key _courses = load_course course_key _courses)
  /\ (getmtime (ExerciseConfig.file exercise_root) = None ->
      exercise_config self exercise_key = load_exercise self exercise_key)
  /\ (forall t, getmtime (file config) = Some t -> (t <= mtime config)%Z ->
      get course_key _courses = (Ok (Some config), _courses))
  /\ (forall t, getmtime (ExerciseConfig.file exercise_root) = Some t ->
      (t <= ExerciseConfig.mtime exercise_root)%Z ->
      exercise_config self exercise_key = (Ok (Some exercise_root), self))
  /\ (forall t, getmtime (file config) = Some t -> (mtime config < t)%Z ->
      get course_key _courses = load_course course_key _courses)
  /\ (forall t, getmtime (ExerciseConfig.file exercise_root) = Some t ->
      (ExerciseConfig.mtime exercise_root < t)%Z ->
      exercise_config self exercise_key = load_exercise self exercise_key).
Proof.
  intros Hc Hlisted He.
  unfold get, exercise_config. rewrite Hc, Hlisted, He.
  repeat split.
  - intros Hp. by rewrite fresh_probe_fails.
  - intros Hp. by rewrite fresh_probe_fails.
  - intros t Hp Hle. by rewrite (fresh_not_older _ t).
  - intros t Hp Hle. by rewrite (fresh_not_older _ t).
  - intros t Hp Hlt. by rewrite (fresh_older _ t).
  - intros t Hp Hlt. by rewrite (fresh_older _ t).
Qed.

End WithExternals.

Lemma cache_probe_witness :
  get (H := demo) "d" [("d", cached_course_d)]
  = (Ok (Some cached_course_d), [("d", cached_course_d)]).
Proof.
  refine (proj1 (proj2 (proj2
    (cache_probe (H := demo) "d" "gone" [("d", cached_course_d)]
       cached_course_d cached_course_c cached_exercise _ _ _)))
    20%Z _ _).
  - reflexivity.
  - reflexivity.
  - reflexivity.
  - reflexivity.
  - simpl. lia.
Defined.

(** C3, as stated, fails.  The index file of the cached course [c] and the
    file of its cached exercise [gone] are no longer on disk, so both
    probes raise.  [get] does not return the cached course: it tries to
    load it again, finds no index file and returns [None].
    [exercise_config] does not return the cached exercise: it tries to
    load it again and the configuration error of the missing file
    propagates. *)
Lemma cache_probe_failure_reloads :
  dict_get "c" [("c", cached_course_c)] = Some cached_course_c /\
  getmtime (Externals := demo) (file cached_course_c) = None /\
  get (H := demo) "c" [("c", cached_course_c)]
  = (Ok None, [("c", cached_course_c)]) /\
  dict_get "gone" (exercises cached_course_c) = Some cached_exercise /\
  getmtime (Externals := demo) (ExerciseConfig.file cached_exercise) = None /\
  exercise_config (H := demo) cached_course_c "gone"
  = (Raise (ConfigError (NoSupportedConfig "/srv/courses/c/gone")),
     cached_course_c).
Proof. repeat split; vm_compute; reflexivity. Qed.

(** Loading a course: the module tree is walked depth first; an exercise
    with a config of its own or of its type is listed, the chapter
    without one is not; the first language of the list is the default. *)
Lemma get_loads_course_e :
  fst (get (H := demo) "e" [])
  = Ok (Some
     (mk [] "/srv/courses/e/index.yaml" 30 100
        [("name", VStr "E");
         ("language", VList [VStr "fi"; VStr "en"]);
         ("exercise_types", VDict [("t", VDict [("config", VStr "t.yaml")])]);
         ("modules",
          VList
            [VDict
               [("key", VStr "m1");
                ("children",
                 VList
                   [VDict [("key", VStr "ex1"); ("config", VStr "ex1.yaml")];
                    VDict [("key", VStr "ch1");
                           ("children",
                            VList [VDict [("key", VStr "ex2");
                                          ("type", VStr "t")]])]])]]);
         ("key", VStr "e"); ("mtime", VInt 30);
         ("dir", VStr "/srv/courses/e");
         ("static_url", VStr "/static/e/");
         ("exercises", VList [VStr "ex1"; VStr "ex2"]);
         ("config_files",
          VDict [("ex1", VStr "ex1.yaml"); ("ex2", VStr "t.yaml")]);
         ("lang", VStr "fi")]
        "fi" [])).
Proof. vm_compute. reflexivity. Qed.

(** Loading an exercise: one variant per language, each stamped with the
    key and the mtime, and the record is kept in the course.  The shorter
    key [view_type] is processed before [title|i18n]. *)
Lemma exercise_config_loads_variants :
  exercise_config (H := demo) course_c_ex "ex"
  = let exercise :=
      ExerciseConfig.mk "en" "/srv/courses/c/ex.yaml" 10 100
        [("en", [("view_type", VStr "v"); ("title", VStr "T");
                 ("key", VStr "ex"); ("mtime", VInt 10)]);
         ("fi", [("view_type", VStr "v"); ("title", VStr "U");
                 ("key", VStr "ex"); ("mtime", VInt 10)])] in
    (Ok (Some exercise), store_exercise course_c_ex "ex" exercise).
Proof. vm_compute. reflexivity. Qed.

End Cache.

(** ** The tag processor *)

Section TagProcessor.
Import Py Builtins AccessConfig AccessConfig.ConfigParser Examples.

Lemma rfind_lt (c : ascii) (s : string) (i : nat) :
  OsPath.rfind c s = Some i -> i < String.length s.
Proof.
  revert i; induction s as [|a s IH]; intros i; simpl; [done|].
  destruct (OsPath.rfind c s) as [j|].
  - intros [= <-]. specialize (IH j eq_refl). lia.
  - destruct (Ascii.eqb a c); [|done]. intros [= <-]. lia.
Qed.

Lemma length_substring_le (n m : nat) (s : string) :
  String.length (String.substring n m s) <= m.
Proof.
  revert n m; induction s as [|a s IH]; intros n m; simpl.
  - destruct n, m; simpl; lia.
  - destruct n as [|n].
    + destruct m as [|m]; simpl; [lia|]. specialize (IH 0 m). lia.
    + apply IH.
Qed.

(** The name left of a tag is shorter than the key: the loop ends. *)
Lemma match_tag_shorter (k name tag : string) :
  match_tag k = Some (name, tag) -> String.length name < String.length k.
Proof.
  unfold match_tag. destruct (OsPath.rfind "|" k) as [i|] eqn:Ei; [|done].
  destruct (_ && _); [|done]. intros [= <- _].
  apply rfind_lt in Ei. pose proof (length_substring_le 0 i k).
  unfold OsPath.take. lia.
Qed.

Lemma insert_key_perm (k : string) (l : list string) :
  Permutation (insert_key k l) (k :: l).
Proof.
  induction l as [|h t IH]; simpl; [done|].
  destruct (key_leb k h); [done|].
  rewrite IH. apply perm_swap.
Qed.

(** The sorted keys are the keys. *)
Lemma sorted_keys_perm (l : list string) : Permutation (sorted_keys l) l.
Proof.
  induction l as [|k l IH]; simpl; [done|].
  rewrite insert_key_perm. by rewrite IH.
Qed.

Lemma depth_entry (d : dict) (k : string) (v : value) :
  dict_get k d = Some v -> depth v < depth (VDict d).
Proof.
  intros Hg%dict_get_elem_of. simpl.
  assert (depth v <= list_max (map (fun kv => depth (snd kv)) d)); [|lia].
  pose proof (proj1 (list_max_le (map (fun kv => depth (snd kv)) d) _)
                (Nat.le_refl _)) as Hall.
  rewrite List.Forall_forall in Hall. apply Hall.
  apply in_map_iff. exists (k, v). split; [done|]. by apply list_elem_of_In.
Qed.

Lemma depth_element (l : list value) (v : value) :
  v ∈ l -> depth v < depth (VList l).
Proof.
  intros Hin. simpl.
  assert (depth v <= list_max (map depth l)); [|lia].
  pose proof (proj1 (list_max_le (map depth l) _) (Nat.le_refl _)) as Hall.
  rewrite List.Forall_forall in Hall. apply Hall.
  apply in_map. by apply list_elem_of_In.
Qed.

Lemma eqb_dict (d1 d2 : dict) :
  eqb (VDict d1) (VDict d2)
  = Nat.eqb (length d1) (length d2)
    && forallb (fun kv => match dict_get (fst kv) d2 with
                          | Some w => eqb (snd kv) w
                          | None => false
                          end) d1.
Proof.
  simpl. f_equal. induction d1 as [|[k v] d1 IH]; simpl; [done|].
  destruct (dict_get k d2); [|done]. by rewrite IH.
Qed.

Lemma eqb_list (l1 l2 : list value) :
  eqb (VList l1) (VList l2) = true
  <-> Forall2 (fun a b => eqb a b = true) l1 l2.
Proof.
  simpl. revert l2. induction l1 as [|x l1 IH]; intros [|y l2]; simpl.
  - split; [constructor | done].
  - split; [done | inversion 1].
  - split; [done | inversion 1].
  - rewrite andb_true_iff, IH. split.
    + intros [? ?]. by constructor.
    + inversion 1; subst. done.
Qed.

Lemma no_tags_entry (d : dict) (k : string) (v : value) :
  Spec.no_tags (VDict d) = true -> (k, v) ∈ d ->
  match_tag k = None /\ Spec.no_tags v = true.
Proof.
  simpl. rewrite forallb_forall. intros Hall Hin%list_elem_of_In.
  specialize (Hall _ Hin). simpl in Hall.
  by destruct (match_tag k).
Qed.

Lemma distinct_keys_entry (d : dict) (k : string) (v : value) :
  Spec.distinct_keys (VDict d) = true -> (k, v) ∈ d ->
  Spec.distinct_keys v = true.
Proof.
  simpl. rewrite andb_true_iff, forallb_forall.
  intros [_ Hall] Hin%list_elem_of_In. apply (Hall _ Hin).
Qed.

Lemma distinct_keys_NoDup (d : dict) :
  Spec.distinct_keys (VDict d) = true -> NoDup (dict_keys d).
Proof.
  simpl. rewrite andb_true_iff. intros [Hnd _].
  by apply bool_decide_eq_true in Hnd.
Qed.

Section WithExternals.
Context `{Externals}.

Lemma tag_loop_untagged (f : nat) (k : string) (v : value) (l : string)
      (c : bool) (st : closure) :
  match_tag k = None -> tag_loop f k v l c st = Ok ((k, v), st).
Proof. intros Hm. destruct f; simpl; by rewrite Hm. Qed.

Lemma run_processor_not_fuel (p : processor) (v : value) (l : string) :
  run_processor p v l <> Raise OutOfFuel.
Proof.
  destruct p; simpl.
  - by destruct v.
  - by destruct (get_rst_as_html v).
Qed.

(** A processor never returns a deeper value than it is given. *)
Lemma run_processor_depth (p : processor) (v v' : value) (l : string) :
  run_processor p v l = Ok v' -> depth v' <= depth v.
Proof.
  destruct p; simpl.
  - destruct v as [| | | | |d]; try done. intros [= <-].
    destruct (dict_get l d) as [w|] eqn:E; simpl; [|lia].
    apply depth_entry in E. simpl in E. lia.
  - destruct (get_rst_as_html v); simpl; [|done]. intros [= <-]. simpl. lia.
Qed.

Lemma tag_loop_S (f : nat) (k : string) (v : value) (l : string)
      (c : bool) (st : closure) :
  tag_loop (S f) k v l c st
  = match match_tag k with
    | None => Ok ((k, v), st)
    | Some (k', tag) =>
        match dict_get tag TAG_PROCESSOR_DICT with
        | None => Raise (ConfigError (UnsupportedProcessorTag tag))
        | Some p =>
            bind (run_processor p v l)
                 (fun v' => tag_loop f k' v' l c (note_tag tag v c st))
        end
    end.
Proof. reflexivity. Qed.

Lemma tag_loop_0 (k : string) (v : value) (l : string)
      (c : bool) (st : closure) :
  tag_loop 0 k v l c st
  = match match_tag k with
    | None => Ok ((k, v), st)
    | Some _ => Raise OutOfFuel
    end.
Proof. simpl. by destruct (match_tag k) as [[? ?]|]. Qed.

(** The fuel [len(k)] is enough for the tag loop. *)
Lemma tag_loop_fuel (f : nat) :
  forall (k : string) (v : value) (l : string) (c : bool) (st : closure),
    String.length k <= f -> tag_loop f k v l c st <> Raise OutOfFuel.
Proof.
  induction f as [|f IH]; intros k v l c st Hlen.
  - destruct k; [done | simpl in Hlen; lia].
  - rewrite tag_loop_S.
    destruct (match_tag k) as [[k' tag]|] eqn:Em; [|done].
    destruct (dict_get tag TAG_PROCESSOR_DICT) as [p|]; [|done].
    destruct (run_processor p v l) as [v'|e] eqn:Er; simpl.
    + apply IH. apply match_tag_shorter in Em. lia.
    + intros [= ->]. by apply run_processor_not_fuel in Er.
Qed.

Lemma tag_loop_depth (f : nat) :
  forall (k : string) (v : value) (l : string) (c : bool) (st st' : closure)
         (k' : string) (v' : value),
    tag_loop f k v l c st = Ok ((k', v'), st') -> depth v' <= depth v.
Proof.
  induction f as [|f IH]; intros k v l c st st' k' v'.
  - rewrite tag_loop_0.
    destruct (match_tag k) as [[? ?]|]; [done|]. by intros [= _ <- _].
  - rewrite tag_loop_S.
    destruct (match_tag k) as [[k0 tag]|] eqn:Em; [|by intros [= _ <- _]].
    destruct (dict_get tag TAG_PROCESSOR_DICT) as [p|]; [|done].
    destruct (run_processor p v l) as [v0|e] eqn:Er; simpl; [|done].
    intros Ht%IH. apply run_processor_depth in Er. lia.
Qed.

(** The key and value the tag loop ends with do not depend on the lists
    collected so far, nor on whether languages are collected. *)
Lemma tag_loop_indep (f : nat) :
  forall (k : string) (v : value) (l : string) (c : bool) (st st' : closure)
         (k' : string) (v' : value),
    tag_loop f k v l c st = Ok ((k', v'), st') ->
    forall c2 st2, exists st2', tag_loop f k v l c2 st2 = Ok ((k', v'), st2').
Proof.
  induction f as [|f IH]; intros k v l c st st' k' v'.
  - rewrite tag_loop_0.
    destruct (match_tag k) as [[? ?]|] eqn:Em; [done|]. intros [= <- <- _].
    intros c2 st2. rewrite tag_loop_0, Em. eauto.
  - rewrite tag_loop_S.
    destruct (match_tag k) as [[k0 tag]|] eqn:Em.
    + destruct (dict_get tag TAG_PROCESSOR_DICT) as [p|] eqn:Ep; [|done].
      destruct (run_processor p v l) as [v0|e] eqn:Er; cbn [bind]; [|done].
      intros Ht c2 st2. rewrite tag_loop_S, Em, Ep, Er. cbn [bind].
      eapply IH in Ht as [st2' Ht]. eexists. apply Ht.
    + intros [= <- <- _] c2 st2. rewrite tag_loop_S, Em. eauto.
Qed.

Lemma recursion_dict (f : nat) (n : dict) (l : string) (c : bool)
      (st : closure) :
  recursion (S f) (VDict n) l c st
  = bind (foldM (dict_entry (fun v => recursion f v l c) n l c)
                (sorted_keys (dict_keys n)) ([], st))
         (fun '(d, st) => Ok (VDict d, st)).
Proof. reflexivity. Qed.

Lemma recursion_list (f : nat) (lst : list value) (l : string) (c : bool)
      (st : closure) :
  recursion (S f) (VList lst) l c st
  = bind (foldM (list_entry (fun v => recursion f v l c)) lst ([], st))
         (fun '(l', st) => Ok (VList l', st)).
Proof. reflexivity. Qed.

Lemma sorted_keys_elem (n : dict) (k : string) :
  k ∈ sorted_keys (dict_keys n) -> exists v, dict_get k n = Some v.
Proof.
  rewrite sorted_keys_perm. intros Hk.
  destruct (dict_get k n) as [v|] eqn:E; [eauto|].
  by apply dict_get_None_keys in E.
Qed.

(** The fuel [depth n] is enough for [recursion]. *)
Lemma recursion_fuel (f : nat) :
  forall (n : value) (l : string) (c : bool) (st : closure),
    depth n <= f -> recursion f n l c st <> Raise OutOfFuel.
Proof.
  induction f as [|f IH]; intros n l c st Hd.
  - destruct n; simpl in *; try done; lia.
  - destruct n as [| | | |lst|d]; try done.
    + rewrite recursion_list.
      destruct (foldM _ lst ([], st)) as [[l' st']|e] eqn:Ef; simpl; [done|].
      intros [= ->]. revert Ef. apply foldM_not_raise.
      intros [l0 st0] v Hv. unfold list_entry.
      destruct (recursion f v l c st0) as [[r st1]|e] eqn:Er; simpl; [done|].
      intros [= ->]. revert Er. apply IH.
      apply depth_element in Hv. lia.
    + rewrite recursion_dict.
      destruct (foldM _ _ ([], st)) as [[d' st']|e] eqn:Ef; simpl; [done|].
      intros [= ->]. revert Ef. apply foldM_not_raise.
      intros [d0 st0] k Hk. unfold dict_entry.
      destruct (dict_get k d) as [v|] eqn:Ev; cbn [bind]; [|done].
      destruct (tag_loop (String.length k) k v l c st0)
        as [[[k' v'] st1]|e] eqn:Et; cbn [bind].
      * destruct (recursion f v' l c st1) as [[r st2]|e] eqn:Er; cbn [bind]; [done|].
        intros [= ->]. revert Er. apply IH.
        apply tag_loop_depth in Et. apply depth_entry in Ev. lia.
      * intros [= ->]. revert Et. by apply tag_loop_fuel.
Qed.

(** The list comprehension over elements that are returned unchanged up
    to equality. *)
Lemma list_entries_untagged
      (rec : value -> closure -> result (value * closure))
      (lst : list value) (st : closure) :
  (forall v, v ∈ lst -> exists r, rec v st = Ok (r, st) /\ eqb r v = true) ->
  forall acc, exists rs,
    foldM (list_entry rec) lst (acc, st) = Ok (acc ++ rs, st) /\
    Forall2 (fun r v => eqb r v = true) rs lst.
Proof.
  induction lst as [|v lst IH]; intros Hall acc; simpl.
  - exists []. by rewrite app_nil_r.
  - destruct (Hall v) as (r & Hr & Hrv); [by left|].
    rewrite Hr. simpl.
    destruct (IH (fun w Hw => Hall w (list_elem_of_further _ _ _ Hw))
                 (acc ++ [r])) as (rs & Hrs & Heq).
    exists (r :: rs). rewrite Hrs, <- app_assoc. split; [done|].
    by constructor.
Qed.

(** The loop over the keys of a mapping whose keys carry no tag and whose
    values are returned unchanged up to equality. *)
Lemma dict_entries_untagged
      (rec : value -> closure -> result (value * closure))
      (n : dict) (l : string) (c : bool) (st : closure) (ks : list string) :
  NoDup ks ->
  (forall k, k ∈ ks ->
     match_tag k = None /\
     exists v r, dict_get k n = Some v /\ rec v st = Ok (r, st) /\
                 eqb r v = true) ->
  forall d0, (forall k, k ∈ ks -> dict_get k d0 = None) ->
  exists rs,
    foldM (dict_entry rec n l c) ks (d0, st) = Ok (d0 ++ rs, st) /\
    dict_keys rs = ks /\
    forallb (fun kv => match dict_get (fst kv) n with
                       | Some w => eqb (snd kv) w
                       | None => false
                       end) rs = true.
Proof.
  induction ks as [|k ks IH]; intros Hnd Hall d0 Hd0; simpl.
  - exists []. by rewrite app_nil_r.
  - apply NoDup_cons in Hnd as [Hk Hnd].
    destruct (Hall k) as (Hm & v & r & Hv & Hr & Hrv); [by left|].
    rewrite Hv. cbn [bind]. rewrite (tag_loop_untagged _ _ _ _ _ _ Hm).
    cbn [bind]. rewrite Hr. cbn [bind].
    rewrite dict_set_absent by (apply Hd0; by left).
    destruct (IH Hnd (fun k' Hk' => Hall k' (list_elem_of_further _ _ _ Hk'))
                 (d0 ++ [(k, r)])) as (rs & Hrs & Hkeys & Heq).
    { intros k' Hk'. rewrite dict_get_app, Hd0 by (by right). simpl.
      destruct (String.eqb_spec k' k) as [->|]; [done | done]. }
    exists ((k, r) :: rs). rewrite Hrs, <- app_assoc.
    split; [done|]. split; [simpl; by rewrite Hkeys|].
    simpl. by rewrite Hv, Hrv, Heq.
Qed.

Lemma eqb_scalar_refl (n : value) :
  match n with VList _ | VDict _ => False | _ => True end -> eqb n n = true.
Proof.
  destruct n as [|b|z|s| |]; simpl; try done; intros _.
  - by destruct b.
  - apply Z.eqb_refl.
  - apply String.eqb_refl.
Qed.

(** A document without tags comes back from [recursion] equal to itself,
    and the two lists are left as they were. *)
Lemma recursion_untagged (f : nat) :
  forall (n : value) (l : string) (c : bool) (st : closure),
    depth n <= f ->
    Spec.distinct_keys n = true -> Spec.no_tags n = true ->
    exists n', recursion f n l c st = Ok (n', st) /\ eqb n' n = true.
Proof.
  induction f as [|f IH]; intros n l c st Hd Hdk Hnt.
  - destruct n; simpl in Hd; try lia; eexists; (split; [reflexivity|]);
      by apply eqb_scalar_refl.
  - destruct n as [| | | |lst|d];
      try (eexists; (split; [reflexivity|]); by apply eqb_scalar_refl).
    + rewrite recursion_list.
      destruct (list_entries_untagged (fun v => recursion f v l c) lst st)
        with (acc := @nil value) as (rs & Hrs & Heq).
      { intros v Hv. apply IH.
        - apply depth_element in Hv. lia.
        - simpl in Hdk. rewrite forallb_forall in Hdk.
          apply Hdk. by apply list_elem_of_In.
        - simpl in Hnt. rewrite forallb_forall in Hnt.
          apply Hnt. by apply list_elem_of_In. }
      rewrite Hrs. simpl. eexists. split; [done|]. by apply eqb_list.
    + rewrite recursion_dict.
      pose proof (distinct_keys_NoDup _ Hdk) as Hnd.
      destruct (dict_entries_untagged (fun v => recursion f v l c) d l c st
                  (sorted_keys (dict_keys d)))
        with (d0 := @nil (string * value)) as (rs & Hrs & Hkeys & Heq).
      { by rewrite sorted_keys_perm. }
      { intros k Hk. destruct (sorted_keys_elem _ _ Hk) as [v Hv].
        pose proof (dict_get_elem_of _ _ _ Hv) as Hin.
        destruct (no_tags_entry _ _ _ Hnt Hin) as [Hm Hv_nt].
        split; [done|].
        destruct (IH v l c st) as (r & Hr & Hrv); [| |done|].
        - apply depth_entry in Hv. lia.
        - by apply (distinct_keys_entry d k).
        - eauto. }
      { done. }
      rewrite Hrs. simpl. eexists. split; [done|].
      rewrite eqb_dict, Heq, andb_true_r. apply Nat.eqb_eq.
      transitivity (length (dict_keys rs));
        [unfold dict_keys; by rewrite length_map|].
      rewrite Hkeys, sorted_keys_perm. unfold dict_keys. by rewrite length_map.
Qed.

End WithExternals.
End TagProcessor.

(** ** The language variants *)

Section TagVariants.
Import Py Builtins AccessConfig AccessConfig.ConfigParser Examples.
Context `{Externals}.

Implicit Types (rec : value -> closure -> result (value * closure)).

Lemma dict_entry_Ok rec (n : dict) (l : string) (c : bool) (d d1 : dict)
      (st st1 : closure) (k : string) :
  dict_entry rec n l c (d, st) k = Ok (d1, st1) ->
  exists v k' v' sta r,
    dict_get k n = Some v /\
    tag_loop (String.length k) k v l c st = Ok ((k', v'), sta) /\
    rec v' sta = Ok (r, st1) /\ d1 = dict_set k' r d.
Proof.
  unfold dict_entry. destruct (dict_get k n) as [v|]; cbn [bind]; [|done].
  destruct (tag_loop _ k v l c st) as [[[k' v'] sta]|] eqn:Et; cbn [bind];
    [|done].
  destruct (rec v' sta) as [[r stb]|] eqn:Er; cbn [bind]; [|done].
  intros [= <- <-]. by exists v, k', v', sta, r.
Qed.

Lemma dict_entry_intro rec (n : dict) (l : string) (c : bool) (d : dict)
      (st sta st1 : closure) (k k' : string) (v v' r : value) :
  dict_get k n = Some v ->
  tag_loop (String.length k) k v l c st = Ok ((k', v'), sta) ->
  rec v' sta = Ok (r, st1) ->
  dict_entry rec n l c (d, st) k = Ok (dict_set k' r d, st1).
Proof.
  intros Hv Ht Hr. unfold dict_entry. rewrite Hv. cbn [bind].
  rewrite Ht. cbn [bind]. by rewrite Hr.
Qed.

Lemma list_entry_Ok rec (acc acc1 : list value) (st st1 : closure) (v : value) :
  list_entry rec (acc, st) v = Ok (acc1, st1) ->
  exists r, rec v st = Ok (r, st1) /\ acc1 = acc ++ [r].
Proof.
  unfold list_entry. destruct (rec v st) as [[r stb]|]; cbn [bind]; [|done].
  intros [= <- <-]. eauto.
Qed.

(** *** The resolved value does not depend on the collected lists *)

Lemma dict_entries_indep rec1 rec2 (n : dict) (l : string) (c1 c2 : bool) :
  (forall v st r st', rec1 v st = Ok (r, st') ->
                      forall st2, exists st2', rec2 v st2 = Ok (r, st2')) ->
  forall ks d st d' st',
    foldM (dict_entry rec1 n l c1) ks (d, st) = Ok (d', st') ->
    forall st2, exists st2',
      foldM (dict_entry rec2 n l c2) ks (d, st2) = Ok (d', st2').
Proof.
  intros Hrec. induction ks as [|k ks IH]; intros d st d' st'; cbn [foldM].
  - intros [= <- <-] st2. eauto.
  - intros ([d1 st1] & Hstep & Hrest)%bind_Ok st2.
    apply dict_entry_Ok in Hstep as (v & k' & v' & sta & r & Hv & Ht & Hr & ->).
    destruct (tag_loop_indep _ _ _ _ _ _ _ _ _ Ht c2 st2) as [sta2 Ht2].
    destruct (Hrec _ _ _ _ Hr sta2) as [stb2 Hr2].
    rewrite (dict_entry_intro _ _ _ _ _ _ _ _ _ _ _ _ _ Hv Ht2 Hr2). cbn [bind].
    by apply (IH _ _ _ _ Hrest).
Qed.

Lemma list_entries_indep rec1 rec2 :
  (forall v st r st', rec1 v st = Ok (r, st') ->
                      forall st2, exists st2', rec2 v st2 = Ok (r, st2')) ->
  forall lst acc st acc' st',
    foldM (list_entry rec1) lst (acc, st) = Ok (acc', st') ->
    forall st2, exists st2',
      foldM (list_entry rec2) lst (acc, st2) = Ok (acc', st2').
Proof.
  intros Hrec. induction lst as [|v lst IH]; intros acc st acc' st'; cbn [foldM].
  - intros [= <- <-] st2. eauto.
  - intros ([a1 st1] & Hstep & Hrest)%bind_Ok st2.
    apply list_entry_Ok in Hstep as (r & Hr & ->).
    destruct (Hrec _ _ _ _ Hr st2) as [stb2 Hr2].
    unfold list_entry at 1. rewrite Hr2. cbn [bind].
    by apply (IH _ _ _ _ Hrest).
Qed.

(** What [recursion] returns for a language is the same whether or not
    languages are collected, and whatever the two lists hold. *)
Lemma recursion_indep (f : nat) :
  forall (n : value) (l : string) (c : bool) (st st' : closure) (v : value),
    recursion f n l c st = Ok (v, st') ->
    forall c2 st2, exists st2', recursion f n l c2 st2 = Ok (v, st2').
Proof.
  induction f as [|f IH]; intros n l c st st' v.
  - destruct n; simpl; try done; intros [= <- <-]; eauto.
  - destruct n as [| | | |lst|d]; try (simpl; intros [= <- <-]; by eauto).
    + rewrite recursion_list.
      intros ([l' s1] & Hf & [= <- <-])%bind_Ok c2 st2.
      destruct (list_entries_indep (fun v => recursion f v l c)
                  (fun v => recursion f v l c2)) with (1 := fun v st r st' Hr =>
                  IH v l c st st' r Hr c2) (2 := Hf) (st2 := st2) as [s2 Hf2].
      rewrite recursion_list, Hf2. simpl. eauto.
    + rewrite recursion_dict.
      intros ([d' s1] & Hf & [= <- <-])%bind_Ok c2 st2.
      destruct (dict_entries_indep (fun v => recursion f v l c)
                  (fun v => recursion f v l c2) d l c c2)
        with (1 := fun v st r st' Hr => IH v l c st st' r Hr c2)
             (2 := Hf) (st2 := st2) as [s2 Hf2].
      rewrite recursion_dict, Hf2. simpl. eauto.
Qed.

(** *** The languages collected *)

Lemma note_tag_prefix (tag : string) (v : value) (c : bool) (st : closure) :
  lang_keys st `prefix_of` lang_keys (note_tag tag v c st).
Proof.
  unfold note_tag. destruct v; simpl; try done.
  destruct (c && _); simpl; [by apply prefix_app_r | done].
Qed.

Lemma tag_loop_prefix (f : nat) :
  forall k v l c st r st',
    tag_loop f k v l c st = Ok (r, st') ->
    lang_keys st `prefix_of` lang_keys st'.
Proof.
  induction f as [|f IH]; intros k v l c st r st'.
  - rewrite tag_loop_0. destruct (match_tag k); [done|]. by intros [= _ <-].
  - rewrite tag_loop_S. destruct (match_tag k) as [[k' tag]|];
      [|by intros [= _ <-]].
    destruct (dict_get tag TAG_PROCESSOR_DICT) as [p|]; [|done].
    destruct (run_processor p v l) as [v'|]; cbn [bind]; [|done].
    intros Ht%IH. etrans; [apply note_tag_prefix | done].
Qed.

Lemma dict_entries_prefix rec (n : dict) (l : string) (c : bool) :
  (forall v st r st', rec v st = Ok (r, st') ->
                      lang_keys st `prefix_of` lang_keys st') ->
  forall ks d st d' st',
    foldM (dict_entry rec n l c) ks (d, st) = Ok (d', st') ->
    lang_keys st `prefix_of` lang_keys st'.
Proof.
  intros Hrec ks d st d' st' Hf.
  apply (foldM_invariant
           (fun acc => lang_keys st `prefix_of` lang_keys (snd acc))
           _ _ _ _) with (3 := Hf); [|done].
  intros [d0 s0] k [d1 s1] _ Hp
         (v & k' & v' & sta & r & Hv & Ht & Hr & ->)%dict_entry_Ok.
  simpl in *. etrans; [done|]. etrans; [by eapply tag_loop_prefix|].
  by eapply Hrec.
Qed.

Lemma list_entries_prefix rec :
  (forall v st r st', rec v st = Ok (r, st') ->
                      lang_keys st `prefix_of` lang_keys st') ->
  forall lst acc st acc' st',
    foldM (list_entry rec) lst (acc, st) = Ok (acc', st') ->
    lang_keys st `prefix_of` lang_keys st'.
Proof.
  intros Hrec lst acc st acc' st' Hf.
  apply (foldM_invariant
           (fun acc => lang_keys st `prefix_of` lang_keys (snd acc))
           _ _ _ _) with (3 := Hf); [|done].
  intros [a0 s0] v [a1 s1] _ Hp (r & Hr & ->)%list_entry_Ok.
  simpl in *. etrans; [done|]. by eapply Hrec.
Qed.

(** Languages are only ever added. *)
Lemma recursion_prefix (f : nat) :
  forall n l c st v st',
    recursion f n l c st = Ok (v, st') ->
    lang_keys st `prefix_of` lang_keys st'.
Proof.
  induction f as [|f IH]; intros n l c st v st'.
  - destruct n; simpl; try done; by intros [= _ <-].
  - destruct n as [| | | |lst|d]; try (simpl; by intros [= _ <-]).
    + rewrite recursion_list.
      intros ([l' s1] & Hf & [= _ <-])%bind_Ok.
      eapply list_entries_prefix; [|exact Hf].
      intros v0 s r s' Hr. apply (IH _ _ _ _ _ _ Hr).
    + rewrite recursion_dict.
      intros ([d' s1] & Hf & [= _ <-])%bind_Ok.
      eapply dict_entries_prefix; [|exact Hf].
      intros v0 s r s' Hr. apply (IH _ _ _ _ _ _ Hr).
Qed.

Lemma elem_of_prefix {A} (l1 l2 : list A) (x : A) :
  l1 `prefix_of` l2 -> x ∈ l1 -> x ∈ l2.
Proof. intros [k ->] Hx. apply elem_of_app. by left. Qed.

(** The languages of an [i18n] mapping are collected when its key is
    processed. *)
Lemma tag_loop_harvest (f : nat) (k name : string) (m : dict) (l : string)
      (st st' : closure) (r : string * value) :
  match_tag k = Some (name, "i18n") ->
  tag_loop f k (VDict m) l true st = Ok (r, st') ->
  forall x, x ∈ dict_keys m -> x ∈ lang_keys st'.
Proof.
  intros Hm. destruct f as [|f].
  - by rewrite tag_loop_0, Hm.
  - rewrite tag_loop_S, Hm. simpl. intros Ht%tag_loop_prefix x Hx.
    eapply elem_of_prefix; [exact Ht|]. simpl.
    apply elem_of_app. by right.
Qed.

(** The languages of a top-level [i18n] mapping are among the collected
    ones after the default pass. *)
Lemma recursion_harvest (f : nat) (n : dict) (l : string) (st st' : closure)
      (v : value) (k name : string) (m : dict) :
  recursion (S f) (VDict n) l true st = Ok (v, st') ->
  dict_get k n = Some (VDict m) ->
  match_tag k = Some (name, "i18n") ->
  forall x, x ∈ dict_keys m -> x ∈ lang_keys st'.
Proof.
  rewrite recursion_dict.
  intros ([d s1] & Hf & [= _ <-])%bind_Ok Hk Hm x Hx.
  assert (Hin : k ∈ sorted_keys (dict_keys n)).
  { rewrite sorted_keys_perm. apply list_elem_of_fmap.
    exists (k, VDict m). split; [done | by apply dict_get_elem_of]. }
  apply list_elem_of_split in Hin as (ks1 & ks2 & Hks).
  rewrite Hks, foldM_app in Hf.
  apply bind_Ok in Hf as ([da sa] & _ & Hf). cbn [foldM] in Hf.
  apply bind_Ok in Hf as ([db sb] & Hstep & Hrest).
  apply dict_entry_Ok in Hstep
    as (v0 & k' & v' & sc & r & Hv0 & Ht & Hr & _).
  rewrite Hk in Hv0. injection Hv0 as <-.
  eapply elem_of_prefix.
  { eapply dict_entries_prefix; [|exact Hrest].
    intros v1 s r1 s' Hr1. apply (recursion_prefix _ _ _ _ _ _ _ Hr1). }
  eapply elem_of_prefix; [apply (recursion_prefix _ _ _ _ _ _ _ Hr)|].
  by eapply tag_loop_harvest.
Qed.

(** *** The name a key is stored under *)

Lemma tag_loop_key (f : nat) :
  forall k v l c st k' v' st',
    tag_loop f k v l c st = Ok ((k', v'), st') -> k' = Spec.strip_tags f k.
Proof.
  induction f as [|f IH]; intros k v l c st k' v' st'.
  - rewrite tag_loop_0. simpl. destruct (match_tag k) as [[? ?]|]; [done|].
    by intros [= <- _ _].
  - rewrite tag_loop_S. simpl.
    destruct (match_tag k) as [[k0 tag]|]; [|by intros [= <- _ _]].
    destruct (if String.eqb tag "i18n" then _ else _) as [p|]; [|done].
    destruct (run_processor p v l) as [v0|]; cbn [bind]; [|done].
    apply IH.
Qed.

(** An entry [name|i18n] whose value is a mapping [m]: the content of [m]
    for the language, or [None], is resolved and stored under [name]. *)
Lemma dict_entry_i18n rec (n : dict) (l : string) (c : bool) (d d1 : dict)
      (st st1 : closure) (k name : string) (m : dict) :
  dict_get k n = Some (VDict m) ->
  match_tag k = Some (name, "i18n") ->
  match_tag name = None ->
  dict_entry rec n l c (d, st) k = Ok (d1, st1) ->
  exists x sa,
    rec (default VNone (dict_get l m)) sa = Ok (x, st1) /\
    d1 = dict_set name x d.
Proof.
  intros Hk Hm Hname
         (v & k' & v' & sa & r & Hv & Ht & Hr & ->)%dict_entry_Ok.
  rewrite Hk in Hv. injection Hv as <-.
  pose proof (match_tag_shorter _ _ _ Hm) as Hlen.
  destruct (String.length k) as [|f]; [lia|].
  rewrite tag_loop_S, Hm in Ht. simpl in Ht.
  rewrite (tag_loop_untagged _ _ _ _ _ _ Hname) in Ht.
  injection Ht as <- <- <-. eauto.
Qed.

Lemma recursion_i18n_field (f : nat) (n : dict) (l : string) (c : bool)
      (st st' : closure) (v : value) (k name : string) (m : dict) :
  recursion (S f) (VDict n) l c st = Ok (v, st') ->
  NoDup (dict_keys n) ->
  dict_get k n = Some (VDict m) ->
  match_tag k = Some (name, "i18n") ->
  match_tag name = None ->
  (forall k2, k2 ∈ dict_keys n -> k2 <> k -> Spec.name_of k2 <> name) ->
  exists d x sa sb,
    v = VDict d /\ dict_get name d = Some x /\
    recursion f (default VNone (dict_get l m)) l c sa = Ok (x, sb).
Proof.
  rewrite recursion_dict.
  intros ([d s1] & Hf & [= <- <-])%bind_Ok Hnd Hk Hm Hname Huniq.
  assert (Hin : k ∈ sorted_keys (dict_keys n)).
  { rewrite sorted_keys_perm. apply list_elem_of_fmap.
    exists (k, VDict m). split; [done | by apply dict_get_elem_of]. }
  apply list_elem_of_split in Hin as (ks1 & ks2 & Hks).
  assert (Hk2 : (k ∉ ks2) /\ forall k2, k2 ∈ ks2 -> k2 ∈ dict_keys n).
  { rewrite <- (sorted_keys_perm (dict_keys n)), Hks in Hnd.
    apply NoDup_app in Hnd as (_ & _ & [Hk2 _]%NoDup_cons).
    split; [done|]. intros k2 Hin2.
    rewrite <- (sorted_keys_perm (dict_keys n)), Hks.
    apply elem_of_app. right. by right. }
  destruct Hk2 as [Hk2 Hsub].
  rewrite Hks, foldM_app in Hf.
  apply bind_Ok in Hf as ([da sa] & _ & Hf). cbn [foldM] in Hf.
  apply bind_Ok in Hf as ([db sb] & Hstep & Hrest).
  eapply dict_entry_i18n in Hstep as (x & sc & Hx & Hdb); [|done..].
  subst db. exists d, x, sc, sb. split; [done|]. split; [|done].
  apply (foldM_invariant (fun acc => dict_get name (fst acc) = Some x)
           _ _ _ _) with (3 := Hrest); [|simpl; apply dict_get_set_eq].
  intros [d0 s0] k2 [d2 s2] Hin2 Hp
         (v2 & k2' & v2' & s3 & r2 & _ & Ht2 & _ & ->)%dict_entry_Ok.
  simpl in *. apply tag_loop_key in Ht2. subst k2'.
  rewrite dict_get_set_ne; [done|].
  apply Huniq; [by apply Hsub|]. intros ->. done.
Qed.

(** *** [process_tags] *)

Lemma add_variants (fuel : nat) (doc : value) :
  forall langs root st root' st',
    NoDup langs ->
    (forall l, l ∈ langs -> dict_get l root = None) ->
    foldM (add_variant fuel doc) langs (root, st) = Ok (root', st') ->
    exists rs,
      root' = root ++ rs /\ dict_keys rs = langs /\
      Forall (fun kv => exists sa sb,
                recursion fuel doc (fst kv) false sa = Ok (snd kv, sb)) rs.
Proof.
  induction langs as [|l langs IH]; intros root st root' st' Hnd Habs;
    cbn [foldM].
  - intros [= <- <-]. exists []. by rewrite app_nil_r.
  - apply NoDup_cons in Hnd as [Hl Hnd].
    intros ([r1 s1] & Hstep & Hrest)%bind_Ok.
    unfold add_variant in Hstep.
    destruct (recursion fuel doc l false st) as [[r sb]|] eqn:Er;
      cbn [bind] in Hstep; [|done].
    injection Hstep as <- <-.
    rewrite dict_set_absent in Hrest by (apply Habs; by left).
    apply IH in Hrest as (rs & -> & Hkeys & Hall); [|done|].
    + exists ((l, r) :: rs). rewrite <- app_assoc. split; [done|].
      split; [simpl; by rewrite Hkeys|].
      constructor; [simpl; eauto | done].
    + intros l' Hl'. rewrite dict_get_app, Habs by (by right). simpl.
      destruct (String.eqb_spec l' l) as [->|]; [done | done].
Qed.

Lemma process_tags_Ok (doc : value) (L : string) (root : list (string * value)) :
  process_tags doc L = Ok root ->
  exists dflt st rs,
    recursion (depth doc) doc L true (mkClosure [] []) = Ok (dflt, st) /\
    root = (L, dflt) :: rs /\
    dict_keys rs = elements (list_to_set (lang_keys st) ∖ {[ L ]} : gset string) /\
    Forall (fun kv => exists sa sb,
              recursion (depth doc) doc (fst kv) false sa = Ok (snd kv, sb)) rs.
Proof.
  unfold process_tags.
  intros ([dflt st] & Hd & ([root' s'] & Hf & [= <-])%bind_Ok)%bind_Ok.
  apply add_variants in Hf as (rs & -> & Hkeys & Hall).
  - exists dflt, st, rs. done.
  - apply NoDup_elements.
  - intros l Hl%elem_of_elements. simpl.
    destruct (String.eqb_spec l L) as [->|]; [set_solver | done].
Qed.

(** The model of [process_tags] never runs out of fuel. *)
Lemma process_tags_fuel (doc : value) (L : string) :
  process_tags doc L <> Raise OutOfFuel.
Proof.
  unfold process_tags.
  destruct (recursion (depth doc) doc L true (mkClosure [] []))
    as [[dflt st]|e] eqn:Ed; cbn [bind].
  - destruct (foldM _ _ _) as [[root s']|e] eqn:Ef; cbn [bind]; [done|].
    intros [= ->]. revert Ef. apply foldM_not_raise.
    intros [r0 s0] l _. unfold add_variant.
    destruct (recursion (depth doc) doc l false s0) as [[r sb]|e] eqn:Er;
      cbn [bind]; [done|].
    intros [= ->]. revert Er. by apply recursion_fuel.
  - intros [= ->]. revert Ed. by apply recursion_fuel.
Qed.

End TagVariants.

Section TagExamples.
Import Py Builtins AccessConfig AccessConfig.ConfigParser Examples.

(** The example of the specification. *)
Lemma process_tags_i18n_example :
  process_tags (H := demo) doc_i18n "en"
  = Ok [("en", VDict [("field", VStr "A")]);
        ("fi", VDict [("field", VStr "B")])].
Proof. vm_compute. reflexivity. Qed.

(** An unsupported tag is the configuration error of the specification. *)
Lemma process_tags_unsupported_tag :
  process_tags (H := demo) (VDict [("x|foo", VInt 1)]) "en"
  = Raise (ConfigError (UnsupportedProcessorTag "foo")).
Proof. vm_compute. reflexivity. Qed.

End TagExamples.

(** ** The models of [get] and [exercise_config] do not run out of fuel *)

Section Fuel.
Import Py Builtins AccessConfig AccessConfig.ConfigParser.
Context `{Externals}.

Lemma bind_not_raise {A B} (e0 : exn) (m : result A) (k : A -> result B) :
  m <> Raise e0 -> (forall a, m = Ok a -> k a <> Raise e0) ->
  bind m k <> Raise e0.
Proof.
  destruct m as [a|e]; simpl; [eauto|].
  intros Hne _ [= ->]. by apply Hne.
Qed.

Create HintDb fuel.

Lemma contains_fuel (x c : value) : contains x c <> Raise OutOfFuel.
Proof. destruct c, x; done. Qed.

Lemma seq_index_fuel {A} (l : list A) (z : Z) : seq_index l z <> Raise OutOfFuel.
Proof.
  unfold seq_index. destruct (_ <? 0)%Z; [done|]. by destruct (nth_error _ _).
Qed.

Lemma getitem_fuel (c x : value) : getitem c x <> Raise OutOfFuel.
Proof.
  destruct c, x; simpl; try done; try apply seq_index_fuel.
  by destruct (dict_get _ _).
Qed.

Lemma setitem_fuel (c : value) (k : string) (v : value) :
  setitem c k v <> Raise OutOfFuel.
Proof. by destruct c. Qed.

Lemma iter_fuel (c : value) : iter c <> Raise OutOfFuel.
Proof. by destruct c. Qed.

Lemma str_fuel (v : value) : str v <> Raise OutOfFuel.
Proof. by destruct v as [|[|]| | | |]. Qed.

Lemma items_fuel (v : value) : items v <> Raise OutOfFuel.
Proof. by destruct v. Qed.

Lemma external_fuel {A} (r : option A) : external r <> Raise OutOfFuel.
Proof. by destruct r. Qed.

Lemma as_dict_fuel (v : value) : CourseConfig.as_dict v <> Raise OutOfFuel.
Proof. by destruct v. Qed.

Hint Resolve contains_fuel getitem_fuel setitem_fuel iter_fuel str_fuel
     items_fuel external_fuel as_dict_fuel : fuel.

Ltac fuel_step :=
  first [ done
        | solve [auto with fuel]
        | apply bind_not_raise; [ | intros ? ? ]
        | match goal with
          | |- (if ?b then _ else _) <> _ => destruct b
          | |- (match ?x with _ => _ end) <> _ => destruct x
          end ].
Ltac fuel := repeat fuel_step.

Lemma update_fuel (d : dict) (other : value) : update d other <> Raise OutOfFuel.
Proof.
  assert (Hfold : forall pairs, foldM update_pair pairs d <> Raise OutOfFuel).
  { intros pairs. apply foldM_not_raise. intros a x _.
    unfold update_pair, pair_of. fuel. }
  destruct other; simpl; try done; apply Hfold.
Qed.

Lemma check_fields_fuel (file_name : string) (data : value)
      (field_names : list string) :
  check_fields file_name data field_names <> Raise OutOfFuel.
Proof.
  unfold check_fields. apply foldM_not_raise. intros [] name _. fuel.
Qed.

Lemma get_config_fuel (path : string) : get_config path <> Raise OutOfFuel.
Proof.
  unfold get_config. fuel.
Qed.

Lemma call_loader_fuel (l : loader) (arg : loader_arg) :
  call_loader l arg <> Raise OutOfFuel.
Proof. destruct l, arg; simpl; fuel. Qed.

Lemma parse_fuel (path : string) : parse path <> Raise OutOfFuel.
Proof.
  unfold parse. destruct (format_of path) as [l|]; [|done].
  apply bind_not_raise.
  - unfold open. by destruct (read_file path).
  - intros f _. pose proof (call_loader_fuel l f) as Hl.
    destruct (call_loader l f) as [v|[]]; done.
Qed.

Hint Resolve update_fuel check_fields_fuel get_config_fuel call_loader_fuel
     parse_fuel : fuel.

Lemma load_include_fuel (include_data : value) (target_file course_dir : string) :
  load_include include_data target_file course_dir <> Raise OutOfFuel.
Proof. unfold load_include, join_value. fuel. Qed.

Lemma merge_include_fuel (rd : dict) (include_data new_data : value)
      (target_file include_file : string) :
  merge_include rd include_data new_data target_file include_file
  <> Raise OutOfFuel.
Proof.
  unfold merge_include. fuel.
  apply foldM_not_raise. intros rd0 [k v] _. simpl. fuel.
Qed.

Hint Resolve load_include_fuel merge_include_fuel : fuel.

Lemma include_fuel (data : value) (target_file course_dir : string) :
  _include data target_file course_dir <> Raise OutOfFuel.
Proof.
  unfold _include. fuel.
  all: apply foldM_not_raise; intros rd include_data _; fuel.
Qed.

Hint Resolve include_fuel : fuel.

Lemma load_fuel (exercise_key course_dir : string) :
  ExerciseConfig.load exercise_key course_dir <> Raise OutOfFuel.
Proof. unfold ExerciseConfig.load. fuel. Qed.

Lemma exercise_cfg_fuel (data exercise_vars : value) :
  CourseConfig.exercise_cfg data exercise_vars <> Raise OutOfFuel.
Proof. unfold CourseConfig.exercise_cfg. fuel. Qed.

Hint Resolve load_fuel exercise_cfg_fuel : fuel.

Lemma iter_depth (c e : value) (l : list value) :
  iter c = Ok l -> e ∈ l -> depth e < depth c \/ depth e = 0.
Proof.
  destruct c as [| | |s|lst|d]; simpl; try done; intros [= <-] Hin.
  - right. unfold chars in Hin.
    apply list_elem_of_In, in_map_iff in Hin as (a & <- & _). done.
  - left. apply depth_element in Hin. simpl in Hin. lia.
  - right. apply list_elem_of_In, in_map_iff in Hin as (a & <- & _). done.
Qed.

Lemma getitem_depth (c x v : value) :
  getitem c x = Ok v -> depth v < depth c \/ depth v = 0.
Proof.
  destruct c as [| | |s|lst|d]; try done.
  - destruct x; try done; simpl; unfold seq_index;
      (destruct (_ <? 0)%Z; [done|]);
      (destruct (nth_error _ _) as [a|] eqn:E; [|done]); intros [= <-];
      apply nth_error_In, in_map_iff in E as (a0 & <- & _); by right.
  - destruct x; try done; simpl; unfold seq_index;
      (destruct (_ <? 0)%Z; [done|]);
      (destruct (nth_error _ _) as [a|] eqn:E; [|done]); intros [= <-];
      apply nth_error_In, list_elem_of_In, depth_element in E;
      simpl in E; left; simpl; lia.
  - destruct x; try done. simpl.
    destruct (dict_get s d) as [w|] eqn:E; [|done]. intros [= <-].
    apply depth_entry in E. by left.
Qed.

(** The fuel [depth parent] is enough for the walk over the exercises. *)
Lemma recurse_exercises_fuel (f : nat) :
  forall (data parent : value) (acc : list string * dict),
    depth parent <= f ->
    CourseConfig.recurse_exercises f data parent acc <> Raise OutOfFuel.
Proof.
  induction f as [|f IH]; intros data parent acc Hd.
  - simpl. apply bind_not_raise; [auto with fuel|]. intros [|] _; [|done].
    simpl. apply bind_not_raise; [auto with fuel|]. intros c Hc.
    destruct parent; simpl in Hc, Hd; try done; lia.
  - simpl. apply bind_not_raise; [auto with fuel|]. intros [|] _; [|done].
    simpl. apply bind_not_raise; [auto with fuel|]. intros c Hc.
    apply bind_not_raise; [auto with fuel|]. intros children Hiter.
    apply foldM_not_raise. intros [keys config_files] exercise_vars Hin.
    apply bind_not_raise; [auto with fuel|]. intros has_key _.
    apply bind_not_raise; [fuel|]. intros acc' _.
    apply IH.
    apply getitem_depth in Hc. pose proof (iter_depth _ _ _ Hiter Hin). lia.
Qed.

Lemma default_lang_fuel (data : dict) :
  fst (CourseConfig._default_lang data) <> Raise OutOfFuel.
Proof.
  unfold CourseConfig._default_lang.
  destruct (default VNone (dict_get "language" data)) as [| | | |[|? ?]|];
    simpl; done.
Qed.

Lemma load_course_fuel (course_key : string) (_courses : CourseConfig.courses) :
  fst (CourseConfig.load_course course_key _courses) <> Raise OutOfFuel.
Proof.
  unfold CourseConfig.load_course.
  destruct (get_config _) as [f|e] eqn:Eg.
  - match goal with
    | |- fst (match ?loaded with _ => _ end) <> _ =>
        assert (Hl : loaded <> Raise OutOfFuel);
          [|destruct loaded as [config|]; simpl; [|congruence];
            by destruct (symbolic_link _ _)]
    end.
    apply bind_not_raise; [fuel|]. intros t _.
    apply bind_not_raise; [fuel|]. intros data _.
    apply bind_not_raise; [fuel|]. intros data1 _.
    apply bind_not_raise; [fuel|]. intros _ _.
    apply bind_not_raise; [fuel|]. intros data2 _.
    apply bind_not_raise; [fuel|]. intros data3 _.
    apply bind_not_raise; [fuel|]. intros data4 _.
    apply bind_not_raise; [fuel|]. intros has_static _.
    apply bind_not_raise; [fuel|]. intros data5 _.
    apply bind_not_raise; [fuel|]. intros has_modules _.
    apply bind_not_raise.
    + destruct has_modules; [|done].
      apply bind_not_raise; [fuel|]. intros ms Hms.
      apply bind_not_raise; [fuel|]. intros modules Hiter.
      apply bind_not_raise.
      * apply foldM_not_raise. intros acc module Hin.
        apply recurse_exercises_fuel.
        apply getitem_depth in Hms.
        pose proof (iter_depth _ _ _ Hiter Hin). lia.
      * intros [keys config_files] _. fuel.
    + intros data6 _. apply bind_not_raise; [fuel|]. intros d _.
      pose proof (default_lang_fuel d) as Hd.
      destruct (CourseConfig._default_lang d) as [[v|e] d'];
        simpl in Hd; [by destruct v | congruence].
  - pose proof (get_config_fuel
      (OsPath.join (CourseConfig._conf_dir (VStr course_key)
         (CourseConfig.course_meta course_key _courses)) INDEX)) as Hg.
    rewrite Eg in Hg. by destruct e.
Qed.

(** The model of [get] never runs out of fuel. *)
Lemma get_fuel (course_key : string) (_courses : CourseConfig.courses) :
  fst (CourseConfig.get course_key _courses) <> Raise OutOfFuel.
Proof.
  unfold CourseConfig.get.
  destruct (dict_get course_key _courses) as [config|];
    [|apply load_course_fuel].
  destruct (CourseConfig.fresh _ _); [done | apply load_course_fuel].
Qed.

Lemma stamp_version_fuel (f exercise_key : string) (t : Z) (version : value) :
  CourseConfig.stamp_version f exercise_key t version <> Raise OutOfFuel.
Proof. unfold CourseConfig.stamp_version. fuel. Qed.

Lemma load_exercise_fuel (self : CourseConfig.t) (exercise_key : string) :
  fst (CourseConfig.load_exercise self exercise_key) <> Raise OutOfFuel.
Proof.
  unfold CourseConfig.load_exercise.
  match goal with
  | |- fst (match ?loaded with _ => _ end) <> _ =>
      assert (Hl : loaded <> Raise OutOfFuel);
        [|destruct loaded as [[?|]|?]; simpl; [done | done | congruence]]
  end.
  apply bind_not_raise; [fuel|]. intros course_key _.
  apply bind_not_raise.
  { destruct (dict_has _ _); [|done].
    apply bind_not_raise; [fuel|]. intros cf _.
    unfold CourseConfig.get_method. by destruct cf. }
  intros file_name _.
  apply bind_not_raise; [by destruct file_name|]. intros name _.
  apply bind_not_raise; [fuel|]. intros [[f t] data] _.
  destruct (negb (truthy data)); [done|].
  apply bind_not_raise; [apply process_tags_fuel|]. intros root _.
  apply bind_not_raise; [|done].
  apply foldM_not_raise. intros acc [l version] _.
  apply bind_not_raise; [apply stamp_version_fuel | done].
Qed.

(** The model of [exercise_config] never runs out of fuel. *)
Lemma exercise_config_fuel (self : CourseConfig.t) (exercise_key : string) :
  fst (CourseConfig.exercise_config self exercise_key) <> Raise OutOfFuel.
Proof.
  unfold CourseConfig.exercise_config.
  match goal with
  | |- fst (match ?listed with _ => _ end) <> _ =>
      assert (Hl : listed <> Raise OutOfFuel) by fuel;
        destruct listed as [[|]|e]; [|done|simpl; congruence]
  end.
  destruct (dict_get exercise_key _) as [exercise_root|];
    [|apply load_exercise_fuel].
  destruct (CourseConfig.fresh _ _); [done | apply load_exercise_fuel].
Qed.

End Fuel.

(** ** More on the course tree validators *)

Section CourseTreeChecks.
Import Py AccessCourse Examples.

Lemma Item_tree_ind (P : Item -> Prop) :
  (forall kind k cat cs, Forall P cs -> P (mkItem kind k cat cs)) ->
  forall i, P i.
Proof.
  intros Hstep. fix IH 1. intros [kind k cat cs]. apply Hstep.
  induction cs as [|c cs IHcs]; constructor; [apply IH | apply IHcs].
Qed.

Lemma keys_below_intro (x : Item) (cs : list Item) :
  Props.below x cs ->
  item_key x ∈ flat_map (fun c => item_key c :: child_keys c) cs.
Proof.
  induction 1 as [c cs Hin|x c cs Hin _ IH].
  - apply list_elem_of_In, in_flat_map. exists c.
    split; [by apply list_elem_of_In | by left].
  - apply list_elem_of_In, in_flat_map. exists c.
    split; [by apply list_elem_of_In|]. right.
    rewrite (child_keys_flat_map c). by apply list_elem_of_In.
Qed.

Lemma keys_below_elim (cs : list Item) (k : string) :
  k ∈ flat_map (fun c => item_key c :: child_keys c) cs ->
  exists x, Props.below x cs /\ item_key x = k.
Proof.
  assert (Hitem : forall i k, k ∈ child_keys i ->
            exists x, Props.below x (item_children i) /\ item_key x = k).
  { induction i as [kind key cat cs' IH] using Item_tree_ind. intros k'.
    rewrite (child_keys_flat_map (mkItem kind key cat cs')).
    intros (c & Hc & Hk)%list_elem_of_In%in_flat_map.
    apply list_elem_of_In in Hc. rewrite Forall_forall in IH.
    destruct Hk as [<-|Hk].
    - exists c. split; [by apply Props.below_child | done].
    - apply list_elem_of_In, (IH c Hc) in Hk as (x & Hx & <-).
      exists x. split; [by eapply Props.below_deeper | done]. }
  intros (c & Hc & Hk)%list_elem_of_In%in_flat_map.
  apply list_elem_of_In in Hc. destruct Hk as [<-|Hk].
  - exists c. split; [by apply Props.below_child | done].
  - apply list_elem_of_In, Hitem in Hk as (x & Hx & <-).
    exists x. split; [by eapply Props.below_deeper | done].
Qed.

(** X1.  [child_keys] collects the key of every item at any depth below the
    parent, and nothing else. *)
Theorem child_keys_all_depths {A} `{Parent A} (self : A) (k : string) :
  k ∈ child_keys self
  <-> exists x, Props.below x (children self) /\ item_key x = k.
Proof.
  rewrite child_keys_flat_map. split.
  - apply keys_below_elim.
  - intros (x & Hx & <-). by apply keys_below_intro.
Qed.

Lemma validate_module_keys_loop_spec (ms : list Module_) :
  forall keys,
    (validate_module_keys_loop ms keys = inr tt
     <-> forall pre m post, ms = pre ++ m :: post ->
           module_key m ∉ keys ++ map module_key pre)
    /\ (forall e, validate_module_keys_loop ms keys = inl e ->
          exists pre m post,
            ms = pre ++ m :: post /\
            e = DuplicateModuleKey (module_key m) /\
            module_key m ∈ keys ++ map module_key pre /\
            forall pre' m' post', pre = pre' ++ m' :: post' ->
              module_key m' ∉ keys ++ map module_key pre').
Proof.
  induction ms as [|m ms IH]; intros keys; simpl.
  - split; [|done]. split; [|done]. intros _ [|? ?] ? ? ?; done.
  - case_bool_decide as Hin.
    + split.
      * split; [done|]. intros Hall. exfalso.
        apply (Hall [] m ms eq_refl). simpl. by rewrite app_nil_r.
      * intros e [= <-]. exists [], m, ms. simpl. rewrite app_nil_r.
        repeat split; try done. intros [|? ?] ? ? ?; done.
    + destruct (IH (keys ++ [module_key m])) as [IHok IHerr]. split.
      * rewrite IHok. split.
        -- intros Hall pre m1 post Heq.
           destruct pre as [|m0 pre]; simpl in Heq; injection Heq as -> ->.
           ++ simpl. by rewrite app_nil_r.
           ++ specialize (Hall pre m1 post eq_refl). simpl.
              by rewrite <- app_assoc in Hall.
        -- intros Hall pre m1 post ->.
           specialize (Hall (m :: pre) m1 post eq_refl). simpl in Hall.
           by rewrite <- app_assoc.
      * intros e (pre & m1 & post & -> & -> & Hm1 & Hfirst)%IHerr.
        exists (m :: pre), m1, post. simpl. rewrite <- app_assoc in Hm1.
        repeat split; try done.
        intros pre' m' post' Heq.
        destruct pre' as [|m0 pre']; simpl in Heq; injection Heq as <- Hpre.
        -- simpl. by rewrite app_nil_r.
        -- specialize (Hfirst pre' m' post' Hpre). simpl.
           by rewrite <- app_assoc in Hfirst.
Qed.

Lemma NoDup_prefixes (l : list string) :
  NoDup l <-> forall pre k post, l = pre ++ k :: post -> k ∉ pre.
Proof.
  split.
  - intros Hnd pre k post ->.
    apply NoDup_app in Hnd as (_ & Hd & _). intros Hin.
    apply (Hd k Hin). by left.
  - induction l as [|k l IH] using rev_ind; intros Hall; [constructor|].
    apply NoDup_app. split; [|split; [|apply NoDup_singleton]].
    + apply IH. intros pre k' post ->.
      apply (Hall pre k' (post ++ [k])). by rewrite <- app_assoc.
    + intros x Hx ->%list_elem_of_singleton. by apply (Hall l k []).
Qed.

Lemma validate_module_keys_spec (ms : list Module_) :
  (validate_module_keys ms = inr ms <-> NoDup (map module_key ms))
  /\ (forall e, validate_module_keys ms = inl e ->
        exists pre m post,
          ms = pre ++ m :: post /\
          e = DuplicateModuleKey (module_key m) /\
          module_key m ∈ map module_key pre /\
          NoDup (map module_key pre)).
Proof.
  destruct (validate_module_keys_loop_spec ms []) as [Hok Herr].
  unfold validate_module_keys. split.
  - rewrite NoDup_prefixes.
    destruct (validate_module_keys_loop ms []) as [e|[]] eqn:E.
    + split; [done|]. intros Hall. exfalso.
      assert (Hno : @inl ValueError unit e = inr tt); [|done].
      apply Hok. intros pre m post ->. simpl.
      apply (Hall (map module_key pre) (module_key m) (map module_key post)).
      by rewrite map_app.
    + split; [|done]. intros _ pre k post Heq.
      apply map_eq_app in Heq as (pre' & rest & -> & <- & Hrest).
      destruct rest as [|m post']; [done|]. injection Hrest as <- _.
      apply (proj1 Hok eq_refl pre' m post' eq_refl).
  - intros e He.
    destruct (validate_module_keys_loop ms []) as [e'|[]] eqn:E; [|done].
    injection He as <-.
    destruct (Herr e' eq_refl) as (pre & m & post & -> & -> & Hin & Hfirst).
    exists pre, m, post. simpl in Hin. repeat split; try done.
    apply NoDup_prefixes. intros p k q Heq.
    apply map_eq_app in Heq as (pre' & rest & -> & <- & Hrest).
    destruct rest as [|m' post']; [done|]. injection Hrest as <- _.
    apply (Hfirst pre' m' post' eq_refl).
Qed.

(** X2.  The module keys are accepted exactly when they are pairwise distinct;
    the error names the first key that repeats an earlier one. *)
Theorem validate_module_keys_distinct (ms : list Module_) :
  (validate_module_keys ms = inr ms <-> NoDup (map module_key ms))
  /\ (forall e, validate_module_keys ms = inl e ->
        exists pre m post,
          ms = pre ++ m :: post /\
          e = DuplicateModuleKey (module_key m) /\
          module_key m ∈ map module_key pre /\
          NoDup (map module_key pre)).
Proof. apply validate_module_keys_spec. Qed.

Lemma check_categories_err (cs : list string) (declared : dict)
      (e : ValueError) :
  check_categories cs declared = inl e ->
  exists c, c ∈ cs /\ e = CategoryNotFound c /\ dict_has c declared = false.
Proof.
  induction cs as [|c cs IH]; simpl; [done|].
  destruct (dict_has c declared) eqn:E.
  - intros (c' & Hin & He)%IH. exists c'. split; [by right | done].
  - intros [= <-]. exists c. split; [by left | done].
Qed.

(** X3.  The category check looks at the direct children of each module: it
    accepts exactly when the category of each of them is declared, and the
    error names an undeclared category of a direct child. *)
Theorem validate_categories_checks_children (values : Course) :
  (validate_categories values = inr values
   <-> forall m c, m ∈ modules values -> c ∈ children m ->
                   dict_has (item_category c) (categories values) = true)
  /\ (forall e, validate_categories values = inl e ->
        exists m c, m ∈ modules values /\ c ∈ children m /\
          e = CategoryNotFound (item_category c) /\
          dict_has (item_category c) (categories values) = false).
Proof.
  split.
  - unfold validate_categories.
    destruct (validate_categories_loop _ _) as [e|[]] eqn:E.
    + split; [done|]. intros Hall.
      apply validate_categories_loop_ok in Hall. congruence.
    + split; [|done]. intros _. by apply validate_categories_loop_ok.
  - unfold validate_categories. generalize (categories values) as declared.
    intros declared e.
    induction (modules values) as [|m ms IH]; simpl; [done|].
    destruct (check_categories _ declared) as [e'|[]] eqn:E.
    + intros [= <-].
      apply check_categories_err in E as (c & Hc & -> & Hundeclared).
      apply elem_of_elements in Hc. rewrite child_categories_direct in Hc.
      apply elem_of_list_to_set, list_elem_of_In, in_map_iff in Hc
        as (x & <- & Hx).
      exists m, x. split; [by left|]. split; [by apply list_elem_of_In|]. done.
    + intros He. destruct (IH He) as (m' & c & Hm' & Hc & Hrest).
      exists m', c. split; [by right | done].
Qed.

Lemma validate_keys_loop_first (ms : list Module_) (e : ValueError) :
  validate_keys_loop ms = inl e ->
  exists pre m post,
    ms = pre ++ m :: post /\
    Forall (fun m => NoDup (child_keys m)) pre /\
    ~ NoDup (child_keys m) /\
    e = DuplicateKeys (collect_duplicates (child_keys m)
                                          (list_to_set (child_keys m))).
Proof.
  induction ms as [|m ms IH]; simpl; [done|].
  destruct (Nat.eqb_spec (length (child_keys m))
              (size (list_to_set (child_keys m) : gset string))) as [He|He]; simpl.
  - intros (pre & m' & post & -> & Hpre & Hnd & ->)%IH.
    exists (m :: pre), m', post. split; [done|]. split; [|done].
    constructor; [by apply length_size_NoDup | done].
  - intros [= <-]. exists [], m, ms. split; [done|]. split; [constructor|].
    split; [|done]. intros Hnd. apply He. by apply length_size_NoDup.
Qed.

(** X4.  The duplicate-key error is raised for the first module below which a
    key repeats, and the set it carries holds exactly the keys that occur
    at least twice below that module. *)
Theorem validate_keys_reports_duplicates (values : Course) (e : ValueError) :
  validate_keys values = inl e ->
  exists pre m post ds,
    modules values = pre ++ m :: post /\
    Forall (fun m => NoDup (child_keys m)) pre /\
    e = DuplicateKeys ds /\
    (exists k, k ∈ ds) /\
    forall k, k ∈ ds <-> 2 <= count_occ String.eq_dec (child_keys m) k.
Proof.
  unfold validate_keys.
  destruct (validate_keys_loop (modules values)) as [e'|[]] eqn:E; [|done].
  intros [= <-].
  apply validate_keys_loop_first in E as (pre & m & post & Hms & Hpre & Hnd & ->).
  exists pre, m, post, (collect_duplicates (child_keys m)
                                           (list_to_set (child_keys m))).
  split; [done|]. split; [done|]. split; [done|].
  split; [|apply collect_duplicates_spec].
  destruct (decide (Exists (fun k => 2 <= count_occ String.eq_dec
                                               (child_keys m) k)
                           (child_keys m))) as [Hex|Hno].
  - apply Exists_exists in Hex as (k & _ & Hk).
    exists k. by apply collect_duplicates_spec.
  - exfalso. apply Hnd. apply NoDup_ListNoDup.
    apply (NoDup_count_occ String.eq_dec).
    intros k. destruct (decide (k ∈ child_keys m)) as [Hin|Hout].
    + destruct (le_lt_dec 2 (count_occ String.eq_dec (child_keys m) k));
        [|lia]. exfalso. apply Hno, Exists_exists. eauto.
    + assert (count_occ String.eq_dec (child_keys m) k = 0); [|lia].
      apply count_occ_not_In. intros Hin. apply Hout. by apply list_elem_of_In.
Qed.

Lemma validate_keys_reports_duplicates_witness :
  exists pre m post ds,
    modules course_dup_in_module = pre ++ m :: post /\
    Forall (fun m => NoDup (child_keys m)) pre /\
    DuplicateKeys {[ "ex1" ]} = DuplicateKeys ds /\
    (exists k, k ∈ ds) /\
    forall k, k ∈ ds <-> 2 <= count_occ String.eq_dec (child_keys m) k.
Proof.
  apply (validate_keys_reports_duplicates course_dup_in_module).
  vm_compute. reflexivity.
Defined.

(** X5.  The three structural checks of the construction of a course pass
    together exactly when the module keys are pairwise distinct, the
    category of every direct child of a module is declared, and below each
    module no key repeats.  At most one of their errors is reported. *)
Theorem Course_validate_accepts (values : Course) :
  (Course_validate values = []
   <-> NoDup (map module_key (modules values)) /\
       (forall m c, m ∈ modules values -> c ∈ children m ->
                    dict_has (item_category c) (categories values) = true) /\
       Forall (fun m => NoDup (child_keys m)) (modules values))
  /\ length (Course_validate values) <= 1.
Proof.
  unfold Course_validate, run_root_validator.
  pose proof (proj1 (validate_module_keys_spec (modules values))) as Hmk.
  pose proof (validate_categories_direct_children values) as Hcat.
  pose proof (validate_keys_loop_ok (modules values)) as Hkeys.
  unfold validate_keys.
  destruct (validate_module_keys (modules values)) as [e1|ms1] eqn:E1.
  { split; [|simpl; lia]. split; [done|]. intros [Hnd _].
    apply Hmk in Hnd. congruence. }
  destruct (validate_module_keys_cases (modules values)) as [Hms|[k Hk]];
    [|congruence].
  destruct (validate_categories values) as [e2|v2] eqn:E2.
  { split; [|simpl; lia]. split; [done|]. intros (_ & Hc & _).
    apply Hcat in Hc. congruence. }
  destruct (validate_categories_cases values) as [Hv|[c Hc]]; [|congruence].
  destruct (validate_keys_loop (modules values)) as [e3|[]] eqn:E3.
  { split; [|simpl; lia]. split; [done|]. intros (_ & _ & Hk).
    apply Hkeys in Hk. congruence. }
  split; [|simpl; lia]. split; [|done]. intros _.
  split; [apply Hmk; congruence|].
  split; [apply Hcat; congruence | by apply Hkeys].
Qed.

End CourseTreeChecks.

(** ** The [pre] root validators of [Item] and [Module] *)

Section PreValidators.
Import Py Builtins.

Lemma dict_get_del {A} (k k' : string) (d : list (string * A)) :
  dict_get k' (dict_del k d)
  = if String.eqb k' k then None else dict_get k' d.
Proof.
  induction d as [|[k0 v0] d IH]; simpl.
  - by destruct (String.eqb k' k).
  - destruct (String.eqb_spec k k0) as [->|Hne]; simpl.
    + rewrite IH. by destruct (String.eqb_spec k' k0).
    + rewrite IH. destruct (String.eqb_spec k' k0) as [->|Hne'].
      * destruct (String.eqb_spec k0 k); [congruence | done].
      * done.
Qed.

Lemma dict_keys_del {A} (k : string) (d : list (string * A)) :
  dict_keys (dict_del k d)
  = List.filter (fun k' => negb (String.eqb k k')) (dict_keys d).
Proof.
  induction d as [|[k0 v0] d IH]; simpl; [done|].
  destruct (String.eqb k k0); simpl; by rewrite IH.
Qed.

Lemma name_or_title_Ok (values values' : dict) :
  AccessCourse.name_or_title values = Ok values' ->
  dict_get "title" values' = None /\
  dict_get "name" values'
  = match dict_get "title" values with
    | Some title => Some title
    | None => dict_get "name" values
    end /\
  forall k, k <> "name" -> k <> "title" ->
            dict_get k values' = dict_get k values.
Proof.
  unfold AccessCourse.name_or_title.
  destruct (dict_has "name" values && dict_has "title" values); [done|].
  destruct (dict_get "title" values) as [title|] eqn:Et; intros [= <-].
  - split; [by rewrite dict_get_set, dict_get_del|].
    split; [by rewrite dict_get_set|].
    intros k Hn Ht. rewrite dict_get_set, dict_get_del.
    destruct (String.eqb_spec k "name"); [done|].
    by destruct (String.eqb_spec k "title").
  - done.
Qed.

(** X6.  [title] is another name for [name]: giving both is the only error;
    otherwise the result has no [title], its [name] is the given title or
    else the given name, and every other field is as it was. *)
Theorem name_or_title_alias (values : dict) :
  (AccessCourse.name_or_title values = Raise ValueError
   <-> is_Some (dict_get "name" values) /\ is_Some (dict_get "title" values))
  /\ (forall e, AccessCourse.name_or_title values = Raise e -> e = ValueError)
  /\ (forall values', AccessCourse.name_or_title values = Ok values' ->
        dict_get "title" values' = None /\
        dict_get "name" values'
        = match dict_get "title" values with
          | Some title => Some title
          | None => dict_get "name" values
          end /\
        forall k, k <> "name" -> k <> "title" ->
                  dict_get k values' = dict_get k values).
Proof.
  split; [|split; [|apply name_or_title_Ok]].
  - rewrite <- !dict_has_get. unfold AccessCourse.name_or_title.
    destruct (dict_has "name" values), (dict_has "title" values); simpl;
      try (split; [done | by intros [? ?]]);
      destruct (dict_get "title" values); split; done || by intros [? ?].
  - intros e. unfold AccessCourse.name_or_title.
    destruct (_ && _); [by intros [= <-]|].
    by destruct (dict_get "title" values).
Qed.

(** The first character of a key that is not empty. *)
Lemma first_char (a : ascii) (r : string) :
  getitem (VStr (String a r)) (VInt 0) = Ok (VStr (String a EmptyString)).
Proof. reflexivity. Qed.

Lemma private_field_first (a : ascii) (r : string) :
  eqb (VStr (String a EmptyString)) (VStr "_") = Props.private_field (String a r).
Proof.
  unfold Props.private_field, startswith.
  change (String.prefix "_" (String a r))
    with (if ascii_dec "_" a then String.prefix "" r else false).
  change (eqb (VStr (String a EmptyString)) (VStr "_"))
    with (Ascii.eqb a "_" && true).
  rewrite andb_true_r.
  destruct (ascii_dec "_" a) as [<-|Hne].
  - by destruct r.
  - destruct (Ascii.eqb_spec a "_") as [->|]; done.
Qed.

Lemma remove_fields_loop (values : dict) :
  forall kept,
    "" ∉ dict_keys values ->
    (forall k, k ∈ dict_keys values -> dict_get k kept = None) ->
    NoDup (dict_keys values) ->
    foldM (fun (kept : dict) '(k, v) =>
             first <- getitem (VStr k) (VInt 0);
             if negb (eqb first (VStr "_"))
             then Ok (dict_set k v kept)
             else Ok kept)
          values kept
    = Ok (kept ++ List.filter (fun kv => negb (Props.private_field (fst kv))) values).
Proof.
  induction values as [|[k v] values IH]; intros kept Hne Hfresh Hnd;
    cbn [foldM List.filter fst].
  - by rewrite app_nil_r.
  - apply NoDup_cons in Hnd as [Hk Hnd].
    destruct k as [|a r]; [exfalso; apply Hne; by left|].
    rewrite first_char. cbn [bind]. rewrite (private_field_first a r).
    assert (Hne' : "" ∉ dict_keys values).
    { intros Hin. apply Hne. by right. }
    destruct (Props.private_field (String a r)); simpl.
    + apply IH; [done| |done]. intros k' Hk'. apply Hfresh. by right.
    + rewrite dict_set_absent by (apply Hfresh; by left).
      rewrite IH; [by rewrite <- app_assoc|done| |done].
      intros k' Hk'. rewrite dict_get_app, Hfresh by (by right). simpl.
      destruct (String.eqb_spec k' (String a r)) as [->|]; [done | done].
Qed.

Lemma remove_fields_empty_key (values : dict) :
  "" ∈ dict_keys values ->
  AccessCourse.remove_fields values = Raise IndexError.
Proof.
  unfold AccessCourse.remove_fields.
  assert (Hloop : forall kept,
    "" ∈ dict_keys values ->
    foldM (fun (kept : dict) '(k, v) =>
             first <- getitem (VStr k) (VInt 0);
             if negb (eqb first (VStr "_"))
             then Ok (dict_set k v kept)
             else Ok kept)
          values kept = Raise IndexError).
  { induction values as [|[k v] values IH]; intros kept Hin; cbn [foldM].
    - by apply elem_of_nil in Hin.
    - destruct k as [|a r]; [done|].
      rewrite first_char. cbn [bind].
      apply elem_of_cons in Hin as [Hin|Hin]; [done|].
      destruct (negb _); by apply IH. }
  intros Hin. by rewrite Hloop.
Qed.

Lemma dict_get_filter_keys {A} (p : string -> bool) (k : string)
      (d : list (string * A)) :
  dict_get k (List.filter (fun kv => p (fst kv)) d)
  = if p k then dict_get k d else None.
Proof.
  induction d as [|[k0 v0] d IH]; simpl; [by destruct (p k)|].
  destruct (p k0) eqn:E0; simpl.
  - destruct (String.eqb_spec k k0) as [->|]; [by rewrite E0 | done].
  - rewrite IH. destruct (String.eqb_spec k k0) as [->|]; [by rewrite E0 | done].
Qed.

Lemma filter_keys {A} (p : string -> bool) (d : list (string * A)) :
  dict_keys (List.filter (fun kv => p (fst kv)) d) = List.filter p (dict_keys d).
Proof.
  unfold dict_keys. induction d as [|[k v] d IH]; [done|].
  cbn [List.filter map fst]. destruct (p k); cbn [map fst]; by rewrite IH.
Qed.

Lemma filter_twice {A} (p q : A -> bool) (l : list A) :
  List.filter q (List.filter p l) = List.filter (fun x => p x && q x) l.
Proof.
  induction l as [|x l IH]; [done|]. cbn [List.filter].
  destruct (p x); cbn [List.filter andb]; [|done].
  destruct (q x); by rewrite IH.
Qed.

Lemma remove_fields_Ok (values : dict) :
  NoDup (dict_keys values) -> "" ∉ dict_keys values ->
  AccessCourse.remove_fields values
  = Ok (dict_del "scale_points"
          (List.filter (fun kv => negb (Props.private_field (fst kv))) values)).
Proof.
  intros Hnd Hne. unfold AccessCourse.remove_fields.
  by rewrite (remove_fields_loop values []).
Qed.

(** X7.  The fields whose name starts with an underscore, and [scale_points],
    are dropped; the other fields stay, in their order.  A field with the
    empty name makes the validator fail with [IndexError]. *)
Theorem remove_fields_drops (values : dict) :
  NoDup (dict_keys values) ->
  ("" ∈ dict_keys values ->
   AccessCourse.remove_fields values = Raise IndexError)
  /\ ("" ∉ dict_keys values ->
      exists kept,
        AccessCourse.remove_fields values = Ok kept /\
        dict_keys kept
        = List.filter (fun k => negb (Props.private_field k)
                                && negb (String.eqb k "scale_points"))
                      (dict_keys values) /\
        forall k, dict_get k kept
                  = if Props.private_field k || String.eqb k "scale_points"
                    then None else dict_get k values).
Proof.
  intros Hnd. split; [apply remove_fields_empty_key|].
  intros Hne. eexists. split; [by apply remove_fields_Ok|]. split.
  - rewrite dict_keys_del, (filter_keys (fun k => negb (Props.private_field k))),
      filter_twice.
    apply List.filter_ext. intros k. by rewrite (String.eqb_sym k).
  - intros k. rewrite dict_get_del.
    rewrite (dict_get_filter_keys (fun k => negb (Props.private_field k))).
    destruct (String.eqb k "scale_points"); [by rewrite orb_true_r|].
    rewrite orb_false_r. by destruct (Props.private_field k).
Qed.

Lemma remove_fields_drops_witness :
  exists kept,
    AccessCourse.remove_fields
      [("key", VStr "a"); ("_note", VInt 1); ("scale_points", VInt 2);
       ("category", VStr "hw")] = Ok kept /\
    dict_keys kept = ["key"; "category"].
Proof.
  destruct (proj2 (remove_fields_drops
              [("key", VStr "a"); ("_note", VInt 1); ("scale_points", VInt 2);
               ("category", VStr "hw")]
              ltac:(apply (bool_decide_unpack _); vm_compute; exact I)))
    as (kept & Hk & Hkeys & _).
  - apply (bool_decide_unpack _). vm_compute. exact I.
  - exists kept. split; [exact Hk | exact Hkeys].
Defined.

Lemma dict_set_NoDup {A} (k : string) (v : A) (d : list (string * A)) :
  NoDup (dict_keys d) -> NoDup (dict_keys (dict_set k v d)).
Proof.
  intros Hnd. destruct (dict_get k d) as [w|] eqn:E.
  - by rewrite dict_keys_set_present.
  - rewrite dict_set_absent by done. unfold dict_keys. rewrite map_app.
    apply NoDup_app. split; [done|]. split; [|apply NoDup_singleton].
    intros x Hx ->%list_elem_of_singleton.
    by apply dict_get_None_keys in E.
Qed.

Lemma dict_del_NoDup {A} (k : string) (d : list (string * A)) :
  NoDup (dict_keys d) -> NoDup (dict_keys (dict_del k d)).
Proof.
  rewrite dict_keys_del. intros Hnd%NoDup_ListNoDup.
  by apply NoDup_ListNoDup, List.NoDup_filter.
Qed.

Lemma name_or_title_NoDup (values values' : dict) :
  NoDup (dict_keys values) ->
  AccessCourse.name_or_title values = Ok values' ->
  NoDup (dict_keys values').
Proof.
  intros Hnd. unfold AccessCourse.name_or_title.
  destruct (_ && _); [done|].
  destruct (dict_get "title" values); intros [= <-]; [|done].
  by apply dict_set_NoDup, dict_del_NoDup.
Qed.

(** X8.  The two [pre] validators of an item, one after the other: what is
    left has no [title], no [scale_points] and no field whose name starts
    with an underscore; [name] holds the given title or else the given
    name; every other field is as it was given. *)
Theorem Item_pre_validate_fields (values values' : dict) :
  NoDup (dict_keys values) ->
  AccessCourse.Item_pre_validate values = Ok values' ->
  dict_get "title" values' = None /\
  dict_get "scale_points" values' = None /\
  (forall k, Props.private_field k = true -> dict_get k values' = None) /\
  dict_get "name" values'
  = match dict_get "title" values with
    | Some title => Some title
    | None => dict_get "name" values
    end /\
  forall k, k <> "name" -> k <> "title" -> k <> "scale_points" ->
            Props.private_field k = false ->
            dict_get k values' = dict_get k values.
Proof.
  intros Hnd. unfold AccessCourse.Item_pre_validate.
  intros (values1 & H1 & H2)%bind_Ok.
  pose proof (name_or_title_NoDup _ _ Hnd H1) as Hnd1.
  apply name_or_title_Ok in H1 as (Htitle & Hname & Hrest).
  destruct (decide ("" ∈ dict_keys values1)) as [Hin|Hout].
  { by rewrite remove_fields_empty_key in H2. }
  rewrite remove_fields_Ok in H2 by done. injection H2 as <-.
  assert (Hget : forall k,
    dict_get k (dict_del "scale_points"
                  (List.filter (fun kv => negb (Props.private_field (fst kv)))
                               values1))
    = if String.eqb k "scale_points" then None
      else if Props.private_field k then None else dict_get k values1).
  { intros k. rewrite dict_get_del.
    rewrite (dict_get_filter_keys (fun k => negb (Props.private_field k))).
    by destruct (Props.private_field k). }
  split; [by rewrite Hget, Htitle|].
  split; [by rewrite Hget|].
  split; [intros k Hk; rewrite Hget, Hk; by destruct (String.eqb _ _)|].
  split; [by rewrite Hget, Hname|].
  intros k Hn Ht Hs Hp. rewrite Hget, Hp.
  destruct (String.eqb_spec k "scale_points"); [done|]. by apply Hrest.
Qed.

Lemma Item_pre_validate_fields_witness :
  AccessCourse.Item_pre_validate
    [("key", VStr "a"); ("title", VStr "A"); ("_note", VInt 1);
     ("category", VStr "hw")]
  = Ok [("key", VStr "a"); ("category", VStr "hw"); ("name", VStr "A")] /\
  dict_get "title"
    [("key", VStr "a"); ("category", VStr "hw"); ("name", VStr "A")] = None /\
  dict_get "name"
    [("key", VStr "a"); ("category", VStr "hw"); ("name", VStr "A")]
  = Some (VStr "A").
Proof.
  assert (Hrun : AccessCourse.Item_pre_validate
                   [("key", VStr "a"); ("title", VStr "A"); ("_note", VInt 1);
                    ("category", VStr "hw")]
                 = Ok [("key", VStr "a"); ("category", VStr "hw");
                       ("name", VStr "A")])
    by (vm_compute; reflexivity).
  split; [exact Hrun|].
  destruct (Item_pre_validate_fields
              [("key", VStr "a"); ("title", VStr "A"); ("_note", VInt 1);
               ("category", VStr "hw")]
              [("key", VStr "a"); ("category", VStr "hw"); ("name", VStr "A")])
    as (Htitle & _ & _ & Hname & _).
  - apply (bool_decide_unpack _). vm_compute. exact I.
  - exact Hrun.
  - split; [exact Htitle | exact Hname].
Defined.

End PreValidators.

(** ** More on the configuration parser *)

Section Strings.

Lemma app_nil (s : string) : "" +:+ s = s.
Proof. reflexivity. Qed.

Lemma app_cons (a : ascii) (s1 s2 : string) :
  String a s1 +:+ s2 = String a (s1 +:+ s2).
Proof. reflexivity. Qed.

Lemma rfind_app (c : ascii) (s1 s2 : string) :
  OsPath.rfind c (s1 +:+ s2)
  = match OsPath.rfind c s2 with
    | Some j => Some (String.length s1 + j)
    | None => OsPath.rfind c s1
    end.
Proof.
  induction s1 as [|a s1 IH].
  - rewrite app_nil. simpl. by destruct (OsPath.rfind c s2).
  - rewrite app_cons. simpl. rewrite IH. by destruct (OsPath.rfind c s2).
Qed.

Lemma substring_app_l (s1 s2 : string) :
  forall n m, n + m <= String.length s1 ->
    String.substring n m (s1 +:+ s2) = String.substring n m s1.
Proof.
  induction s1 as [|a s1 IH]; intros n m Hle.
  - simpl in Hle. assert (n = 0) as -> by lia. assert (m = 0) as -> by lia.
    rewrite app_nil. by destruct s2.
  - rewrite app_cons. simpl in *. destruct n as [|n].
    + destruct m as [|m]; [done|]. rewrite IH by lia. done.
    + apply IH. lia.
Qed.

Lemma substring_all (s : string) : String.substring 0 (String.length s) s = s.
Proof. induction s as [|a s IH]; simpl; [done | by rewrite IH]. Qed.

Lemma length_app (s1 s2 : string) :
  String.length (s1 +:+ s2) = String.length s1 + String.length s2.
Proof.
  induction s1 as [|a s1 IH]; [done|]. rewrite app_cons. simpl. by rewrite IH.
Qed.

Lemma take_app (s1 s2 : string) : OsPath.take (String.length s1) (s1 +:+ s2) = s1.
Proof.
  unfold OsPath.take. rewrite substring_app_l by lia. apply substring_all.
Qed.

Lemma drop_app (s1 s2 : string) : OsPath.drop (String.length s1) (s1 +:+ s2) = s2.
Proof.
  unfold OsPath.drop. rewrite length_app.
  replace (String.length s1 + String.length s2 - String.length s1)
    with (String.length s2) by lia.
  induction s1 as [|a s1 IH]; [apply substring_all|].
  rewrite app_cons. simpl. done.
Qed.

End Strings.

Section Parser.
Import Py Builtins AccessConfig AccessConfig.ConfigParser Examples.

Lemma check_fields_spec (file_name : string) (data : dict)
      (field_names : list string) :
  (check_fields file_name (VDict data) field_names = Ok tt
   <-> forall name, name ∈ field_names -> is_Some (dict_get name data))
  /\ (forall e, check_fields file_name (VDict data) field_names = Raise e ->
        exists pre name post,
          field_names = pre ++ name :: post /\
          (forall n, n ∈ pre -> is_Some (dict_get n data)) /\
          dict_get name data = None /\
          e = ConfigError (RequiredFieldMissing name file_name)).
Proof.
  unfold check_fields. induction field_names as [|name names [IHok IHerr]];
    cbn [foldM].
  - split; [|done]. split; [|done]. intros _ n Hn. by apply elem_of_nil in Hn.
  - cbn [contains bind]. destruct (dict_has name data) eqn:E; cbn [negb bind].
    + apply dict_has_get in E. split.
      * rewrite IHok. split.
        -- intros Hall n [->|Hn]%elem_of_cons; [done | by apply Hall].
        -- intros Hall n Hn. apply Hall. by right.
      * intros e (pre & n & post & -> & Hpre & Hn & ->)%IHerr.
        exists (name :: pre), n, post. split; [done|]. split; [|done].
        intros n' [->|Hn']%elem_of_cons; [done | by apply Hpre].
    + apply dict_has_false in E. split.
      * split; [done|]. intros Hall.
        destruct (Hall name) as [v Hv]; [by left | congruence].
      * intros e [= <-]. exists [], name, names. split; [done|].
        split; [|done]. intros n Hn. by apply elem_of_nil in Hn.
Qed.

(** X9.  [check_fields] on a mapping passes exactly when every required field
    is a key; otherwise the error names the first missing field, in the
    order of the list, and the file. *)
Theorem check_fields_required (file_name : string) (data : dict)
        (field_names : list string) :
  (check_fields file_name (VDict data) field_names = Ok tt
   <-> forall name, name ∈ field_names -> is_Some (dict_get name data))
  /\ (forall e, check_fields file_name (VDict data) field_names = Raise e ->
        exists pre name post,
          field_names = pre ++ name :: post /\
          (forall n, n ∈ pre -> is_Some (dict_get n data)) /\
          dict_get name data = None /\
          e = ConfigError (RequiredFieldMissing name file_name)).
Proof. apply check_fields_spec. Qed.

Section WithExternals.
Context `{Externals}.

Lemma get_config_unfold (path : string) :
  get_config path
  = if isfile path && Nat.ltb 0 (String.length (snd (OsPath.splitext path)))
       && dict_has (OsPath.drop 1 (snd (OsPath.splitext path))) FORMATS
    then Ok path
    else if isdir (OsPath.dirname path)
         then match isfile (path +:+ ".json"), isfile (path +:+ ".yaml") with
              | true, true => Raise (ConfigError (MultipleConfigFiles path))
              | true, false => Ok (path +:+ ".json")
              | false, true => Ok (path +:+ ".yaml")
              | false, false => Raise (ConfigError (NoSupportedConfig path))
              end
         else Raise (ConfigError (NoSupportedConfig path)).
Proof.
  assert (Hne : forall ext, String.eqb (path +:+ "." +:+ ext) "" = false).
  { intros ext. destruct path; [|done]. by rewrite app_nil. }
  unfold get_config.
  destruct (_ && _ && _); [done|].
  destruct (isdir (OsPath.dirname path)); cbn [bind]; [|done].
  change (dict_keys FORMATS) with ["json"; "yaml"]. cbn [foldM].
  change (path +:+ "." +:+ "json") with (path +:+ ".json").
  change (path +:+ "." +:+ "yaml") with (path +:+ ".yaml").
  destruct (isfile (path +:+ ".json")), (isfile (path +:+ ".yaml"));
    cbn [bind]; try done.
  - pose proof (Hne "json") as Hj.
    change (path +:+ "." +:+ "json") with (path +:+ ".json") in Hj.
    by rewrite Hj.
  - pose proof (Hne "yaml") as Hy.
    change (path +:+ "." +:+ "yaml") with (path +:+ ".yaml") in Hy.
    by rewrite Hy.
Qed.

(** X10.  What [get_config] returns is a file that exists: the path itself, or
    the path with [.json] or [.yaml] appended; when both of these exist it
    is never one of them.  It raises nothing but its two configuration
    errors: the one for rival files only when both exist, the one for no
    file only when the directory is missing or neither exists. *)
Theorem get_config_existing_file (path : string) :
  (forall f, get_config path = Ok f ->
     isfile f = true /\
     (f = path \/ f = path +:+ ".json" \/ f = path +:+ ".yaml") /\
     (isfile (path +:+ ".json") = true -> isfile (path +:+ ".yaml") = true ->
      f = path))
  /\ (forall e, get_config path = Raise e ->
        (e = ConfigError (MultipleConfigFiles path) /\
         isfile (path +:+ ".json") = true /\
         isfile (path +:+ ".yaml") = true)
        \/ (e = ConfigError (NoSupportedConfig path) /\
            (isdir (OsPath.dirname path) = false \/
             (isfile (path +:+ ".json") = false /\
              isfile (path +:+ ".yaml") = false)))).
Proof.
  rewrite get_config_unfold.
  destruct (isfile path) eqn:Ep; cbn [andb];
    [destruct (_ && _); [split; [|done]; intros f [= <-]; auto|]|];
    destruct (isdir _), (isfile (path +:+ ".json")) eqn:Ej,
      (isfile (path +:+ ".yaml")) eqn:Ey; split;
      try done;
      try (intros f [= <-]; split; [done|]; split; [auto | by intros]);
      intros e [= <-]; auto.
Qed.

(** X11.  The search for a path that is not itself a configuration file (it is
    not a file, or its extension is not a supported one): the directory
    must exist and exactly one of [path.json] and [path.yaml] must be a
    file, which is then the result. *)
Theorem get_config_search (path : string) :
  isfile path && Nat.ltb 0 (String.length (snd (OsPath.splitext path)))
  && dict_has (OsPath.drop 1 (snd (OsPath.splitext path))) FORMATS = false ->
  (get_config path = Ok (path +:+ ".json")
   <-> isdir (OsPath.dirname path) = true /\
       isfile (path +:+ ".json") = true /\ isfile (path +:+ ".yaml") = false)
  /\ (get_config path = Ok (path +:+ ".yaml")
      <-> isdir (OsPath.dirname path) = true /\
          isfile (path +:+ ".json") = false /\
          isfile (path +:+ ".yaml") = true)
  /\ (get_config path = Raise (ConfigError (MultipleConfigFiles path))
      <-> isdir (OsPath.dirname path) = true /\
          isfile (path +:+ ".json") = true /\
          isfile (path +:+ ".yaml") = true)
  /\ (get_config path = Raise (ConfigError (NoSupportedConfig path))
      <-> isdir (OsPath.dirname path) = false \/
          (isfile (path +:+ ".json") = false /\
           isfile (path +:+ ".yaml") = false)).
Proof.
  intros Hc. rewrite get_config_unfold, Hc.
  assert (Hjy : path +:+ ".json" <> path +:+ ".yaml").
  { intros Heq. assert (Hd : OsPath.drop (String.length path) (path +:+ ".json")
                            = OsPath.drop (String.length path) (path +:+ ".yaml"))
      by (by rewrite Heq).
    by rewrite !drop_app in Hd. }
  destruct (isdir _), (isfile (path +:+ ".json")), (isfile (path +:+ ".yaml"));
    (split; [|split; [|split]]); split; intros Hx; try done;
    try (by destruct Hx as (? & ? & ?));
    try (by destruct Hx as [?|[? ?]]);
    try (injection Hx as Hx;
         first [by destruct Hjy | by (symmetry in Hx; destruct Hjy)]);
    auto.
Qed.

(** [os.path.splitext] of a path with one of the two extensions
    appended. *)
Lemma splitext_app (path ext : string) :
  OsPath.rfind OsPath.sep ext = None ->
  OsPath.rfind OsPath.extsep ext = Some 0 ->
  OsPath.splitext (path +:+ ext)
  = if Props.dots_only path then (path +:+ ext, "") else (path, ext).
Proof.
  intros Hsep Hdot. unfold OsPath.splitext, Props.dots_only, OsPath.basename.
  rewrite !rfind_app, Hsep, Hdot, Nat.add_0_r.
  set (fi := match OsPath.rfind OsPath.sep path with
             | Some i => S i
             | None => 0
             end).
  assert (Hfi : fi <= String.length path).
  { subst fi. destruct (OsPath.rfind OsPath.sep path) as [i|] eqn:E; [|lia].
    apply rfind_lt in E. lia. }
  rewrite (proj2 (Nat.leb_le _ _) Hfi). cbn [andb].
  rewrite substring_app_l by lia. fold (OsPath.drop fi path).
  destruct (OsPath.all_char OsPath.extsep (OsPath.drop fi path)); cbn [negb];
    [done|]. by rewrite take_app, drop_app.
Qed.

(** X12.  What [get_config] returns is itself a complete configuration path:
    [get_config] maps it to itself and its extension is one that [parse]
    knows.  The exception is a path whose last component is empty or made
    of dots only: the file found for it by appending an extension has a
    name that [os.path.splitext] does not split, and [parse] rejects
    it. *)
Theorem get_config_stable (path f : string) :
  get_config path = Ok f ->
  (Props.dots_only path = false ->
   get_config f = Ok f /\ is_Some (format_of f))
  /\ (Props.dots_only path = true -> f <> path ->
      parse f = Raise (ConfigError (UnsupportedFormat f))).
Proof.
  assert (Hext : forall ext,
    ext = ".json" \/ ext = ".yaml" ->
    isfile (path +:+ ext) = true ->
    (Props.dots_only path = false ->
     get_config (path +:+ ext) = Ok (path +:+ ext) /\
     is_Some (format_of (path +:+ ext)))
    /\ (Props.dots_only path = true ->
        parse (path +:+ ext)
        = Raise (ConfigError (UnsupportedFormat (path +:+ ext))))).
  { intros ext Hext Hfile. split; intros Hd.
    - rewrite get_config_unfold. unfold format_of.
      rewrite splitext_app, Hd, Hfile by (by destruct Hext as [->| ->]).
      cbn [snd]. by destruct Hext as [->| ->].
    - unfold parse, format_of.
      rewrite splitext_app, Hd by (by destruct Hext as [->| ->]). done. }
  intros Hf. pose proof Hf as Hf'. rewrite get_config_unfold in Hf'.
  destruct (_ && _ && _) eqn:Ec.
  - injection Hf' as <-. split; [|done]. intros _. split; [done|].
    apply andb_true_iff in Ec as [_ Ec]. unfold format_of.
    by apply dict_has_get.
  - destruct (isdir _); [|done].
    destruct (isfile (path +:+ ".json")) eqn:Ej,
      (isfile (path +:+ ".yaml")) eqn:Ey; try done; injection Hf' as <-.
    + destruct (Hext ".json") as [H1 H2]; auto.
    + destruct (Hext ".yaml") as [H1 H2]; auto.
Qed.

Lemma foldM_Ok_all {A B} (f : A -> B -> result A) (l : list B) (acc acc' : A) :
  foldM f l acc = Ok acc' -> Forall (fun x => exists a a', f a x = Ok a') l.
Proof.
  revert acc. induction l as [|x l IH]; intros acc; cbn [foldM]; [constructor|].
  intros (a1 & Hstep & Hrest)%bind_Ok. constructor; [eauto | by eapply IH].
Qed.

(** What it takes for one include entry to be loaded. *)
Lemma load_include_Ok (include_data : value) (target_file course_dir : string)
      (include_file : string) (new_data : value) :
  load_include include_data target_file course_dir = Ok (include_file, new_data) ->
  exists d file,
    include_data = VDict d /\
    dict_get "file" d = Some (VStr file) /\
    get_config (OsPath.join course_dir file) = Ok include_file /\
    format_of include_file = Some yaml_safe_load.
Proof.
  unfold load_include.
  intros ([] & _ & (file & Hfile & (path & Hpath & (f & Hf & (l & Hl &
           (has_context & _ & (v & Hv & [= <- <-])%bind_Ok)%bind_Ok)%bind_Ok)
           %bind_Ok)%bind_Ok)%bind_Ok)%bind_Ok.
  destruct include_data as [| | |s|lst|d]; try done.
  simpl in Hfile. destruct (dict_get "file" d) as [w|] eqn:Ew; [|done].
  injection Hfile as ->. destruct file as [| | |file| |]; try done.
  injection Hpath as <-. exists d, file. split; [done|]. split; [done|].
  split; [done|].
  destruct (format_of f) as [[|]|]; try done. injection Hl as <-.
  destruct has_context; [|done].
  by apply bind_Ok in Hv as (ctx & _ & (rendered & _ & Hv)%bind_Ok).
Qed.

(** X13.  When [_include] returns, every include entry is a mapping whose
    [file] resolves to a YAML file.  An include file in JSON never loads:
    [json.load] is given a string, the rendered text or the path, in both
    branches. *)
Theorem include_loads_yaml_only (host r : dict) (includes : list value)
        (target_file course_dir : string) :
  dict_get "include" host = Some (VList includes) ->
  _include (VDict host) target_file course_dir = Ok r ->
  Forall (fun include_data =>
            exists d file include_file,
              include_data = VDict d /\
              dict_get "file" d = Some (VStr file) /\
              get_config (OsPath.join course_dir file) = Ok include_file /\
              format_of include_file = Some yaml_safe_load) includes.
Proof.
  intros Hinc. unfold _include. cbn [bind getitem]. rewrite Hinc. cbn [bind iter].
  intros Hall%foldM_Ok_all. eapply Forall_impl; [exact Hall|].
  intros inc (a & a' & ([f v] & Hload & _)%bind_Ok).
  apply load_include_Ok in Hload as (d & file & -> & Hfile & Hcfg & Hfmt).
  by exists d, file, f.
Qed.

Lemma merge_steps_extend (target_file include_file : string) (new rd rd' : dict) :
  foldM (merge_step target_file include_file) new rd = Ok rd' ->
  exists added, rd' = rd ++ added.
Proof.
  revert rd. induction new as [|[k v] new IH]; intros rd; cbn [foldM].
  - intros [= <-]. exists []. by rewrite app_nil_r.
  - intros (rd1 & Hstep & Hrest)%bind_Ok. unfold merge_step in Hstep.
    destruct (dict_get k rd) eqn:E; [done|]. injection Hstep as <-.
    rewrite dict_set_absent in Hrest by done.
    apply IH in Hrest as [added ->]. exists ((k, v) :: added).
    by rewrite <- app_assoc.
Qed.

(** X14.  Without [force] nothing of the host document is overwritten: when no
    include entry has a true [force], what [_include] returns is the host
    document followed by the added entries, so every host key keeps its
    value and its place. *)
Theorem include_without_force (host r : dict) (includes : list value)
        (target_file course_dir : string) :
  dict_get "include" host = Some (VList includes) ->
  Forall (fun include_data =>
            forall d, include_data = VDict d -> Props.forced d = false)
         includes ->
  _include (VDict host) target_file course_dir = Ok r ->
  (exists added, r = host ++ added)
  /\ forall k, is_Some (dict_get k host) -> dict_get k r = dict_get k host.
Proof.
  intros Hinc Hunforced. unfold _include. cbn [bind getitem]. rewrite Hinc.
  cbn [bind iter]. intros Hfold.
  assert (Hext : exists added, r = host ++ added).
  { clear Hinc. revert Hfold. generalize host as rd.
    induction Hunforced as [|inc incs Hinc1 _ IH]; intros rd; cbn [foldM].
    - intros [= <-]. exists []. by rewrite app_nil_r.
    - intros (rd1 & Hstep & Hrest)%bind_Ok.
      apply bind_Ok in Hstep as ([f v] & Hload & Hmerge).
      apply load_include_Ok in Hload as (d & file & -> & _).
      rewrite merge_include_dict in Hmerge.
      fold (Props.forced d) in Hmerge. rewrite (Hinc1 d eq_refl) in Hmerge.
      apply bind_Ok in Hmerge as (new & _ & Hsteps).
      apply merge_steps_extend in Hsteps as [added1 ->].
      apply IH in Hrest as [added2 ->]. exists (added1 ++ added2).
      by rewrite <- app_assoc. }
  split; [done|]. destruct Hext as [added ->].
  intros k [v Hv]. by rewrite dict_get_app, Hv.
Qed.

End WithExternals.

Lemma include_loads_yaml_only_witness :
  Forall (fun include_data =>
            exists d file include_file,
              include_data = VDict d /\
              dict_get "file" d = Some (VStr file) /\
              get_config (H := demo_rendering)
                         (OsPath.join "/srv/courses/c" file) = Ok include_file /\
              format_of include_file = Some yaml_safe_load)
         [VDict [("file", VStr "inc"); ("template_context", VDict [])]].
Proof.
  apply (include_loads_yaml_only (H := demo_rendering) doc_host_template
           (doc_host_template ++ [("b", VInt 2)]) _
           "/srv/courses/c/ex.yaml" "/srv/courses/c").
  - reflexivity.
  - vm_compute. reflexivity.
Defined.

Lemma include_without_force_witness :
  (exists added, doc_host_template ++ [("b", VInt 2)] = doc_host_template ++ added)
  /\ forall k, is_Some (dict_get k doc_host_template) ->
               dict_get k (doc_host_template ++ [("b", VInt 2)])
               = dict_get k doc_host_template.
Proof.
  apply (include_without_force (H := demo_rendering) doc_host_template
           (doc_host_template ++ [("b", VInt 2)])
           [VDict [("file", VStr "inc"); ("template_context", VDict [])]]
           "/srv/courses/c/ex.yaml" "/srv/courses/c").
  - reflexivity.
  - constructor; [|constructor]. intros d [= <-]. reflexivity.
  - vm_compute. reflexivity.
Defined.

Lemma get_config_stable_witness :
  get_config (H := demo) "/srv/courses/c/inc.yaml"
  = Ok "/srv/courses/c/inc.yaml" /\
  is_Some (format_of "/srv/courses/c/inc.yaml").
Proof.
  apply (proj1 (get_config_stable (H := demo) "/srv/courses/c/inc"
                  "/srv/courses/c/inc.yaml" eq_refl)).
  reflexivity.
Defined.

Lemma get_config_search_witness :
  get_config (H := demo) "/srv/courses/c/inc" = Ok "/srv/courses/c/inc.yaml".
Proof.
  apply (proj1 (proj2 (get_config_search (H := demo) "/srv/courses/c/inc"
                         eq_refl))).
  repeat split; reflexivity.
Defined.

End Parser.

(** ** More on the tag processor *)

Section KeyOrder.
Import Py Builtins AccessConfig AccessConfig.ConfigParser.

Lemma ascii_compare_lt_trans (a b c : ascii) :
  Ascii.compare a b = Lt -> Ascii.compare b c = Lt -> Ascii.compare a c = Lt.
Proof.
  unfold Ascii.compare. rewrite !N.compare_lt_iff. lia.
Qed.

Lemma string_leb_trans (s1 s2 s3 : string) :
  String.leb s1 s2 = true -> String.leb s2 s3 = true -> String.leb s1 s3 = true.
Proof.
  unfold String.leb. revert s2 s3.
  induction s1 as [|a s1 IH]; intros [|b s2] [|c s3]; simpl; try done.
  destruct (Ascii.compare a b) eqn:Eab; [| |done].
  - apply Ascii.compare_eq_iff in Eab as ->.
    destruct (Ascii.compare b c) eqn:Ebc; [apply IH | done | done].
  - destruct (Ascii.compare b c) eqn:Ebc; [| |done].
    + apply Ascii.compare_eq_iff in Ebc as ->. by rewrite Eab.
    + by rewrite (ascii_compare_lt_trans _ _ _ Eab Ebc).
Qed.

#[local] Instance key_le_trans : Transitive Props.key_le.
Proof.
  intros a b c. unfold Props.key_le, key_leb.
  rewrite !orb_true_iff, !andb_true_iff, !Nat.ltb_lt, !Nat.eqb_eq.
  intros [Hab|[Hab Lab]] [Hbc|[Hbc Lbc]]; try (left; lia).
  right. split; [lia|]. by eapply string_leb_trans.
Qed.

#[local] Instance key_le_antisym : AntiSymm eq Props.key_le.
Proof.
  intros a b. unfold Props.key_le, key_leb.
  rewrite !orb_true_iff, !andb_true_iff, !Nat.ltb_lt, !Nat.eqb_eq.
  intros [Hab|[Hab Lab]] [Hba|[Hba Lba]]; try lia.
  by apply String.leb_antisym.
Qed.

Lemma key_le_total (a b : string) : Props.key_le a b \/ Props.key_le b a.
Proof.
  unfold Props.key_le, key_leb.
  rewrite !orb_true_iff, !andb_true_iff, !Nat.ltb_lt, !Nat.eqb_eq.
  destruct (lt_eq_lt_dec (String.length a) (String.length b)) as [[?|?]|?];
    [by left; left| |by right; left].
  destruct (String.leb_total a b); [left | right]; right; split; done || lia.
Qed.

Lemma insert_key_sorted (k : string) (l : list string) :
  StronglySorted Props.key_le l -> StronglySorted Props.key_le (insert_key k l).
Proof.
  induction 1 as [|h t Ht IH Hall]; simpl; [repeat constructor|].
  destruct (key_leb k h) eqn:E.
  - constructor; [by constructor|]. constructor; [done|].
    eapply Forall_impl; [exact Hall|]. intros x Hx. by trans h.
  - constructor; [done|].
    rewrite (insert_key_perm k t). constructor; [|done].
    destruct (key_le_total k h) as [Hkh|Hhk]; [|done].
    unfold Props.key_le in Hkh. congruence.
Qed.

(** The keys are visited in the order of [(len(x), x)]. *)
Lemma sorted_keys_sorted (l : list string) :
  StronglySorted Props.key_le (sorted_keys l).
Proof.
  induction l as [|k l IH]; simpl; [constructor|]. by apply insert_key_sorted.
Qed.

(** The order of the visit does not depend on the order of the keys in
    the mapping. *)
Lemma sorted_keys_canonical (l1 l2 : list string) :
  Permutation l1 l2 -> sorted_keys l1 = sorted_keys l2.
Proof.
  intros Hp. apply (StronglySorted_unique Props.key_le);
    [apply sorted_keys_sorted..|].
  by rewrite !sorted_keys_perm.
Qed.

End KeyOrder.

Section TagPattern.
Import Py Builtins AccessConfig AccessConfig.ConfigParser.

Lemma drop_app_S (s1 s2 : string) (a : ascii) :
  OsPath.drop (S (String.length s1)) (s1 +:+ String a s2) = s2.
Proof.
  unfold OsPath.drop. rewrite length_app. cbn [String.length].
  replace (String.length s1 + S (String.length s2) - S (String.length s1))
    with (String.length s2) by lia.
  induction s1 as [|b s1 IH].
  - rewrite app_nil. simpl. apply substring_all.
  - rewrite app_cons. exact IH.
Qed.

Lemma all_word_no_bar (tag : string) :
  all_word tag = true -> OsPath.rfind "|" tag = None.
Proof.
  induction tag as [|a tag IH]; simpl; [done|].
  intros [Ha Htag]%andb_true_iff. rewrite (IH Htag).
  destruct (Ascii.eqb_spec a "|") as [->|]; done.
Qed.

Lemma all_word_no_newline (tag : string) :
  all_word tag = true -> endswith tag newline = false.
Proof.
  induction tag as [|a tag IH]; simpl; [done|].
  intros [Ha Htag]%andb_true_iff. destruct tag as [|b tag].
  - destruct (Ascii.eqb_spec a newline) as [->|]; done.
  - by apply IH.
Qed.

Lemma rfind_split (c : ascii) (s : string) (i : nat) :
  OsPath.rfind c s = Some i ->
  s = OsPath.take i s +:+ String c (OsPath.drop (S i) s).
Proof.
  revert i. induction s as [|a s IH]; intros i; simpl; [done|].
  destruct (OsPath.rfind c s) as [j|] eqn:E.
  - intros [= <-]. specialize (IH j eq_refl).
    unfold OsPath.take, OsPath.drop in *. simpl. rewrite app_cons.
    by rewrite <- IH.
  - destruct (Ascii.eqb_spec a c) as [->|]; [|done]. intros [= <-].
    unfold OsPath.take, OsPath.drop. simpl. rewrite app_nil.
    by rewrite Nat.sub_0_r, substring_all.
Qed.

Lemma substring_0_S (m : nat) (a : ascii) (r : string) :
  String.substring 0 (S m) (String a r) = String a (String.substring 0 m r).
Proof. reflexivity. Qed.

Lemma endswith_split (s : string) (c : ascii) :
  endswith s c = true ->
  s = OsPath.take (String.length s - 1) s +:+ String c "".
Proof.
  unfold OsPath.take. induction s as [|a s IH]; [done|].
  destruct s as [|b s].
  - simpl. by intros ->%Ascii.eqb_eq.
  - intros Hend. specialize (IH Hend).
    replace (String.length (String a (String b s)) - 1)
      with (S (String.length (String b s) - 1)) by (simpl; lia).
    rewrite substring_0_S, app_cons. by rewrite <- IH.
Qed.

(** X15.  The tag pattern [^(.+)\|(\w+)$].  A key made of a name, a bar and a
    tag is split into that name and that tag; conversely, what the pattern
    matches is such a key, possibly followed by one newline.  A tag is a
    non-empty word in the sense of [\w] on [str]: letters and digits also
    above 127, and the underscore. *)
Theorem match_tag_round_trip (k name tag : string) :
  (name <> "" -> has_char newline name = false ->
   tag <> "" -> all_word tag = true ->
   match_tag (name +:+ "|" +:+ tag) = Some (name, tag))
  /\ (match_tag k = Some (name, tag) ->
      name <> "" /\ tag <> "" /\ all_word tag = true /\
      has_char newline name = false /\
      (k = name +:+ "|" +:+ tag \/
       k = name +:+ "|" +:+ tag +:+ String newline "")).
Proof.
  split.
  - intros Hname Hnl Htag Hword. unfold match_tag.
    change ("|" +:+ tag) with (String "|" tag).
    rewrite rfind_app. cbn [OsPath.rfind]. rewrite (all_word_no_bar tag Hword).
    cbn [Ascii.eqb Bool.eqb]. rewrite Nat.add_0_r.
    rewrite take_app, drop_app_S, (all_word_no_newline tag Hword), Hnl, Hword.
    destruct (String.eqb_spec name ""); [done|].
    destruct (String.eqb_spec tag ""); done.
  - unfold match_tag. destruct (OsPath.rfind "|" k) as [i|] eqn:Ei; [|done].
    destruct (_ && _ && _ && _) eqn:Ec; [|done]. intros [= <- <-].
    apply andb_true_iff in Ec as [[[Hn Hnl]%andb_true_iff Ht]%andb_true_iff Hw].
    apply negb_true_iff in Hn, Hnl, Ht.
    apply String.eqb_neq in Hn, Ht.
    split; [done|]. split; [done|]. split; [done|]. split; [done|].
    pose proof (rfind_split _ _ _ Ei) as Hk.
    destruct (endswith (OsPath.drop (S i) k) newline) eqn:Ee.
    + right. apply endswith_split in Ee.
      change ("|" +:+ OsPath.take (String.length (OsPath.drop (S i) k) - 1)
                                  (OsPath.drop (S i) k) +:+ String newline "")
        with (String "|" (OsPath.take (String.length (OsPath.drop (S i) k) - 1)
                                      (OsPath.drop (S i) k)
                          +:+ String newline "")).
      by rewrite <- Ee.
    + by left.
Qed.

Lemma match_tag_round_trip_witness :
  match_tag ("title|rst" +:+ "|" +:+ "i18n") = Some ("title|rst", "i18n").
Proof.
  apply (proj1 (match_tag_round_trip "" "title|rst" "i18n")); done.
Defined.

End TagPattern.

Section TagResults.
Import Py Builtins AccessConfig AccessConfig.ConfigParser Examples.
Context `{Externals}.

(** The tag loop ends with a key that carries no tag. *)
Lemma tag_loop_final (f : nat) :
  forall k v l c st k' v' st',
    tag_loop f k v l c st = Ok ((k', v'), st') -> match_tag k' = None.
Proof.
  induction f as [|f IH]; intros k v l c st k' v' st'.
  - rewrite tag_loop_0. destruct (match_tag k) as [[? ?]|] eqn:E; [done|].
    by intros [= <- _ _].
  - rewrite tag_loop_S. destruct (match_tag k) as [[k0 tag]|] eqn:E;
      [|by intros [= <- _ _]].
    destruct (dict_get tag TAG_PROCESSOR_DICT) as [p|]; [|done].
    destruct (run_processor p v l) as [v0|]; cbn [bind]; [|done].
    apply IH.
Qed.

Lemma no_tags_set (d : dict) (k : string) (r : value) :
  Spec.no_tags (VDict d) = true -> match_tag k = None ->
  Spec.no_tags r = true -> Spec.no_tags (VDict (dict_set k r d)) = true.
Proof.
  intros Hd Hk Hr. induction d as [|[k0 v0] d IH]; cbn in *.
  - by rewrite Hk, Hr.
  - destruct (match_tag k0) eqn:E0; [done|].
    apply andb_true_iff in Hd as [Hv0 Hd].
    destruct (String.eqb k k0); cbn.
    + by rewrite Hk, Hr, Hd.
    + by rewrite E0, Hv0, IH.
Qed.

Lemma distinct_keys_set (d : dict) (k : string) (r : value) :
  Spec.distinct_keys (VDict d) = true -> Spec.distinct_keys r = true ->
  Spec.distinct_keys (VDict (dict_set k r d)) = true.
Proof.
  cbn. rewrite !andb_true_iff, !bool_decide_eq_true.
  intros [Hnd Hall] Hr. split; [by apply dict_set_NoDup|].
  clear Hnd. induction d as [|[k0 v0] d IH]; cbn in *.
  - by rewrite Hr.
  - apply andb_true_iff in Hall as [Hv0 Hall].
    destruct (String.eqb k k0); cbn.
    + by rewrite Hr, Hall.
    + by rewrite Hv0, IH.
Qed.

(** What [recursion] returns has no tagged key at any depth, and the keys
    of each of its mappings are distinct. *)
Lemma recursion_resolved (f : nat) :
  forall n l c st v st',
    recursion f n l c st = Ok (v, st') ->
    Spec.no_tags v = true /\ Spec.distinct_keys v = true.
Proof.
  induction f as [|f IH]; intros n l c st v st'.
  - destruct n; simpl; try done; by intros [= <- _].
  - destruct n as [| | | |lst|d]; try (simpl; by intros [= <- _]).
    + rewrite recursion_list.
      intros ([l' s1] & Hf & [= <- <-])%bind_Ok.
      apply (foldM_invariant
               (fun acc => Spec.no_tags (VList (fst acc)) = true /\
                           Spec.distinct_keys (VList (fst acc)) = true)
               _ _ _ _) with (3 := Hf); [|done].
      intros [a0 s0] x [a1 s2] _ [Hnt Hdk] (r & Hr & ->)%list_entry_Ok.
      apply IH in Hr as [Hr1 Hr2]. cbn in *.
      rewrite !forallb_app. cbn. by rewrite Hnt, Hdk, Hr1, Hr2.
    + rewrite recursion_dict.
      intros ([d' s1] & Hf & [= <- <-])%bind_Ok.
      apply (foldM_invariant
               (fun acc => Spec.no_tags (VDict (fst acc)) = true /\
                           Spec.distinct_keys (VDict (fst acc)) = true)
               _ _ _ _) with (3 := Hf).
      * intros [d0 s0] k [d1 s2] _ [Hnt Hdk]
               (v0 & k' & v' & sta & r & _ & Ht & Hr & ->)%dict_entry_Ok.
        apply IH in Hr as [Hr1 Hr2]. apply tag_loop_final in Ht.
        split; [by apply no_tags_set | by apply distinct_keys_set].
      * split; [done|]. cbn [fst Spec.distinct_keys forallb].
        rewrite andb_true_r. apply bool_decide_eq_true. constructor.
Qed.

Lemma process_tags_variant (doc : value) (L : string)
      (root : list (string * value)) (l : string) (v : value) :
  process_tags doc L = Ok root -> dict_get l root = Some v ->
  exists c sa sb, recursion (depth doc) doc l c sa = Ok (v, sb).
Proof.
  intros (dflt & st & rs & Hd & -> & _ & Hall)%process_tags_Ok. simpl.
  destruct (String.eqb_spec l L) as [->|Hne].
  - intros [= <-]. eauto.
  - intros Hg%dict_get_elem_of. rewrite List.Forall_forall in Hall.
    destruct (Hall (l, v)) as (sa & sb & Hr); [by apply list_elem_of_In|].
    eauto.
Qed.

(** X16.  Every variant that [process_tags] returns is fully resolved: no key
    of it, at any depth, still carries a tag. *)
Theorem process_tags_strips_all_tags (doc : value) (L : string)
        (root : list (string * value)) :
  process_tags doc L = Ok root ->
  forall l v, dict_get l root = Some v -> Spec.no_tags v = true.
Proof.
  intros Hp l v Hv.
  destruct (process_tags_variant _ _ _ _ _ Hp Hv) as (c & sa & sb & Hr).
  by apply recursion_resolved in Hr as [? _].
Qed.

(** X17.  A variant that [process_tags] returned is a fixed point: processed
    again, for any language, it gives the single variant equal to it. *)
Theorem process_tags_idempotent (doc : value) (L : string)
        (root : list (string * value)) :
  process_tags doc L = Ok root ->
  forall l v L', dict_get l root = Some v ->
    exists v', process_tags v L' = Ok [(L', v')] /\ eqb v' v = true.
Proof.
  intros Hp l v L' Hv.
  destruct (process_tags_variant _ _ _ _ _ Hp Hv) as (c & sa & sb & Hr).
  apply recursion_resolved in Hr as [Hnt Hdk].
  unfold process_tags.
  destruct (recursion_untagged (depth v) v L' true (mkClosure [] []))
    as (v' & Hr' & Heq); [done..|].
  exists v'. rewrite Hr'. cbn [bind lang_keys].
  assert ((list_to_set [] ∖ {[L']} : gset string) = ∅) as -> by set_solver.
  by rewrite elements_empty.
Qed.

(** *** Keys that cannot be processed *)

Lemma dict_entries_raise
      (rec : value -> closure -> result (value * closure))
      (n : dict) (l : string) (c : bool) (k : string) (v : value) :
  dict_get k n = Some v ->
  (forall st, exists e, tag_loop (String.length k) k v l c st = Raise e) ->
  forall ks acc, k ∈ ks ->
    exists e, foldM (dict_entry rec n l c) ks acc = Raise e.
Proof.
  intros Hv Hraise. induction ks as [|k0 ks IH]; intros acc Hin;
    [by apply elem_of_nil in Hin|].
  cbn [foldM].
  destruct (dict_entry rec n l c acc k0) as [acc1|e] eqn:Estep;
    cbn [bind]; [|eauto].
  destruct (decide (k0 = k)) as [->|Hne].
  - destruct acc as [d st], acc1 as [d1 st1].
    apply dict_entry_Ok in Estep as (v0 & k' & v' & sta & r & Hv0 & Ht & _).
    rewrite Hv in Hv0. injection Hv0 as <-.
    destruct (Hraise st) as [e He]. congruence.
  - apply IH. apply elem_of_cons in Hin as [?|?]; [congruence | done].
Qed.

Lemma tag_loop_rejects (k name tag : string) (v : value) (l : string)
      (c : bool) (st : closure) :
  match_tag k = Some (name, tag) ->
  (dict_get tag TAG_PROCESSOR_DICT = None ->
   tag_loop (String.length k) k v l c st
   = Raise (ConfigError (UnsupportedProcessorTag tag)))
  /\ (tag = "i18n" -> (forall m, v <> VDict m) ->
      tag_loop (String.length k) k v l c st = Raise AttributeError).
Proof.
  intros Hm. pose proof (match_tag_shorter _ _ _ Hm) as Hlen.
  destruct (String.length k) as [|f]; [lia|]. rewrite tag_loop_S, Hm. split.
  - by intros ->.
  - intros -> Hv. cbn. destruct v; try done. by destruct (Hv d).
Qed.

(** X18.  A key whose last tag is not a supported one, or is [i18n] over a
    value that is not a mapping, makes [process_tags] raise, wherever the
    key stands in the document's top-level mapping; when that key is the
    first one visited, that is the first in the order of the sort key
    [(len(x), x)], lengths being counted in characters, the exception is
    the configuration error that names the tag, or the [AttributeError] of
    the missing [get]. *)
Theorem process_tags_rejects (n : dict) (L k name tag : string) (v : value) :
  dict_get k n = Some v ->
  match_tag k = Some (name, tag) ->
  (dict_get tag TAG_PROCESSOR_DICT = None ->
   (exists e, process_tags (VDict n) L = Raise e) /\
   (forall rest, sorted_keys (dict_keys n) = k :: rest ->
      process_tags (VDict n) L
      = Raise (ConfigError (UnsupportedProcessorTag tag))))
  /\ (tag = "i18n" -> (forall m, v <> VDict m) ->
      (exists e, process_tags (VDict n) L = Raise e) /\
      (forall rest, sorted_keys (dict_keys n) = k :: rest ->
         process_tags (VDict n) L = Raise AttributeError)).
Proof.
  intros Hv Hm.
  assert (Hin : k ∈ sorted_keys (dict_keys n)).
  { rewrite sorted_keys_perm. apply list_elem_of_fmap.
    exists (k, v). split; [done | by apply dict_get_elem_of]. }
  set (f := depth (VDict n) - 1).
  assert (Hdep : depth (VDict n) = S f) by (subst f; simpl; lia).
  assert (Hany : forall e0 : exn,
    (forall st, tag_loop (String.length k) k v L true st = Raise e0) ->
    (exists e, process_tags (VDict n) L = Raise e) /\
    (forall rest, sorted_keys (dict_keys n) = k :: rest ->
       process_tags (VDict n) L = Raise e0)).
  { intros e0 Ht. unfold process_tags. rewrite Hdep, recursion_dict. split.
    - destruct (dict_entries_raise (fun v => recursion f v L true) n L true
                  k v Hv (fun st => ex_intro _ e0 (Ht st)) _
                  ([], mkClosure [] []) Hin) as [e ->].
      cbn [bind]. eauto.
    - intros rest ->. cbn [foldM]. unfold dict_entry at 1.
      rewrite Hv. cbn [bind]. by rewrite Ht. }
  split.
  - intros Htag. apply Hany. intros st.
    by apply (proj1 (tag_loop_rejects k name tag v L true st Hm)).
  - intros Htag Hnd. apply Hany. intros st.
    by apply (proj2 (tag_loop_rejects k name tag v L true st Hm)).
Qed.

(** *** The order of the keys in the document *)

Lemma foldM_ext {A B} (f g : A -> B -> result A) (l : list B) (acc : A) :
  (forall a x, f a x = g a x) -> foldM f l acc = foldM g l acc.
Proof.
  intros Hfg. revert acc. induction l as [|x l IH]; intros acc; cbn [foldM];
    [done|].
  rewrite Hfg. destruct (g acc x); cbn [bind]; [apply IH | done].
Qed.

Lemma list_max_perm (l1 l2 : list nat) :
  Permutation l1 l2 -> list_max l1 = list_max l2.
Proof.
  induction 1; simpl; lia.
Qed.

Lemma dict_get_perm {A} (k : string) (n1 n2 : list (string * A)) :
  NoDup (dict_keys n1) -> Permutation n1 n2 -> dict_get k n1 = dict_get k n2.
Proof.
  intros Hnd Hp.
  assert (Hnd2 : NoDup (dict_keys n2)).
  { unfold dict_keys in *. by rewrite <- Hp. }
  destruct (dict_get k n1) as [v|] eqn:E.
  - symmetry. apply dict_get_NoDup; [done|].
    rewrite <- Hp. by apply dict_get_elem_of.
  - symmetry. apply dict_get_None_keys. apply dict_get_None_keys in E.
    unfold dict_keys in *. by rewrite <- Hp.
Qed.

Lemma recursion_perm (f : nat) (n1 n2 : dict) (l : string) (c : bool)
      (st : closure) :
  NoDup (dict_keys n1) -> Permutation n1 n2 ->
  recursion f (VDict n1) l c st = recursion f (VDict n2) l c st.
Proof.
  intros Hnd Hp. destruct f as [|f]; [done|]. rewrite !recursion_dict.
  rewrite (sorted_keys_canonical (dict_keys n1) (dict_keys n2))
    by (unfold dict_keys; by rewrite Hp).
  f_equal. apply foldM_ext. intros [d s] k. unfold dict_entry.
  by rewrite (dict_get_perm k n1 n2).
Qed.

(** X19.  The result does not depend on the order in which the keys of the
    document's top-level mapping are written: the keys are visited in
    sorted order. *)
Theorem process_tags_key_order (n1 n2 : dict) (L : string) :
  NoDup (dict_keys n1) -> Permutation n1 n2 ->
  process_tags (VDict n1) L = process_tags (VDict n2) L.
Proof.
  intros Hnd Hp. unfold process_tags.
  assert (Hdep : depth (VDict n1) = depth (VDict n2)).
  { simpl. f_equal. apply list_max_perm. by rewrite Hp. }
  rewrite Hdep, (recursion_perm _ n1 n2) by done.
  destruct (recursion _ (VDict n2) L true _) as [[dflt st]|]; cbn [bind]; [|done].
  f_equal. apply foldM_ext. intros [root s] l. unfold add_variant.
  by rewrite (recursion_perm _ n1 n2).
Qed.

(** *** A plain key and a tagged key with the same name *)

Lemma recursion_i18n_last (f : nat) (n : dict) (l : string) (c : bool)
      (st st' : closure) (v : value) (k name : string) (m : dict) :
  recursion (S f) (VDict n) l c st = Ok (v, st') ->
  NoDup (dict_keys n) ->
  dict_get k n = Some (VDict m) ->
  match_tag k = Some (name, "i18n") ->
  match_tag name = None ->
  (forall k2, k2 ∈ dict_keys n -> k2 <> k -> Spec.name_of k2 = name ->
              Props.key_le k2 k) ->
  exists d x sa sb,
    v = VDict d /\ dict_get name d = Some x /\
    recursion f (default VNone (dict_get l m)) l c sa = Ok (x, sb).
Proof.
  rewrite recursion_dict.
  intros ([d s1] & Hf & [= <- <-])%bind_Ok Hnd Hk Hm Hname Hlast.
  assert (Hin : k ∈ sorted_keys (dict_keys n)).
  { rewrite sorted_keys_perm. apply list_elem_of_fmap.
    exists (k, VDict m). split; [done | by apply dict_get_elem_of]. }
  apply list_elem_of_split in Hin as (ks1 & ks2 & Hks).
  assert (Hk2 : forall k2, k2 ∈ ks2 ->
            k2 ∈ dict_keys n /\ k2 <> k /\ Props.key_le k k2).
  { intros k2 Hin2. split; [|split].
    - rewrite <- (sorted_keys_perm (dict_keys n)), Hks.
      apply elem_of_app. right. by right.
    - rewrite <- (sorted_keys_perm (dict_keys n)), Hks in Hnd.
      apply NoDup_app in Hnd as (_ & _ & [Hnotin _]%NoDup_cons).
      by intros ->.
    - pose proof (sorted_keys_sorted (dict_keys n)) as Hs. rewrite Hks in Hs.
      apply StronglySorted_app_1_r, StronglySorted_inv in Hs as [_ Hall].
      rewrite Forall_forall in Hall. by apply Hall. }
  rewrite Hks, foldM_app in Hf.
  apply bind_Ok in Hf as ([da sa] & _ & Hf). cbn [foldM] in Hf.
  apply bind_Ok in Hf as ([db sb] & Hstep & Hrest).
  eapply dict_entry_i18n in Hstep as (x & sc & Hx & Hdb); [|done..].
  subst db. exists d, x, sc, sb. split; [done|]. split; [|done].
  apply (foldM_invariant (fun acc => dict_get name (fst acc) = Some x)
           _ _ _ _) with (3 := Hrest); [|simpl; apply dict_get_set_eq].
  intros [d0 s0] k2 [d2 s2] Hin2 Hp
         (v2 & k2' & v2' & s3 & r2 & _ & Ht2 & _ & ->)%dict_entry_Ok.
  simpl in *. apply tag_loop_key in Ht2. subst k2'.
  rewrite dict_get_set_ne; [done|].
  destruct (Hk2 k2 Hin2) as (Hkeys & Hne & Hle). intros Hstrip.
  apply Hne. apply key_le_antisym; [by apply Hlast | done].
Qed.

(** X20.  When a mapping has both a plain key [name] and the tagged key
    [name|i18n], the tagged one wins in every variant: the shorter plain
    key is visited first and its value is overwritten, also by [None] for
    a language that the [i18n] mapping lacks. *)
Theorem process_tags_tagged_wins (n : dict) (L k name : string)
        (plain : value) (m : dict) (root : list (string * value)) :
  NoDup (dict_keys n) ->
  dict_get name n = Some plain ->
  match_tag name = None ->
  dict_get k n = Some (VDict m) ->
  match_tag k = Some (name, "i18n") ->
  (forall k2, k2 ∈ dict_keys n -> k2 <> k -> k2 <> name ->
              Spec.name_of k2 <> name) ->
  process_tags (VDict n) L = Ok root ->
  forall l v, dict_get l root = Some v ->
    exists d, v = VDict d /\
      (forall s, dict_get l m = Some (VStr s) ->
                 dict_get name d = Some (VStr s)) /\
      (dict_get l m = None -> dict_get name d = Some VNone).
Proof.
  intros Hnd Hplain Hname Hk Hm Hothers Hp l v Hv.
  destruct (process_tags_variant _ _ _ _ _ Hp Hv) as (c & sa & sb & Hr).
  set (f := depth (VDict n) - 1) in *.
  assert (Hdep : depth (VDict n) = S f) by (subst f; simpl; lia).
  rewrite Hdep in Hr.
  eapply recursion_i18n_last in Hr as (d & x & s1 & s2 & -> & Hx & Hrx);
    [|done..|].
  - exists d. split; [done|]. split.
    + intros s Hs. rewrite Hs in Hrx. simpl in Hrx.
      destruct f; simpl in Hrx; by injection Hrx as <-.
    + intros Hnone. rewrite Hnone in Hrx. simpl in Hrx.
      destruct f; simpl in Hrx; by injection Hrx as <-.
  - intros k2 Hin2 Hne2 Hstrip.
    destruct (decide (k2 = name)) as [->|Hne].
    + apply match_tag_shorter in Hm. unfold Props.key_le, key_leb.
      apply orb_true_iff. left. by apply Nat.ltb_lt.
    + by destruct (Hothers k2 Hin2 Hne2 Hne).
Qed.

End TagResults.

Section TagResultsExamples.
Import Py Builtins AccessConfig AccessConfig.ConfigParser Examples.

Lemma process_tags_strips_all_tags_witness :
  Spec.no_tags (VDict [("field", VStr "B")]) = true.
Proof.
  apply (process_tags_strips_all_tags (H := demo) doc_i18n "en"
           [("en", VDict [("field", VStr "A")]);
            ("fi", VDict [("field", VStr "B")])]
           ltac:(vm_compute; reflexivity) "fi").
  reflexivity.
Defined.

Lemma process_tags_idempotent_witness :
  exists v', process_tags (H := demo) (VDict [("field", VStr "B")]) "en"
             = Ok [("en", v')] /\
             eqb v' (VDict [("field", VStr "B")]) = true.
Proof.
  apply (process_tags_idempotent (H := demo) doc_i18n "en"
           [("en", VDict [("field", VStr "A")]);
            ("fi", VDict [("field", VStr "B")])]
           ltac:(vm_compute; reflexivity) "fi").
  reflexivity.
Defined.

Lemma process_tags_rejects_witness :
  process_tags (H := demo) (VDict doc_unsupported) "en"
  = Raise (ConfigError (UnsupportedProcessorTag "foo")).
Proof.
  apply (proj2 (proj1 (process_tags_rejects (H := demo) doc_unsupported "en"
                         "x|foo" "x" "foo" (VInt 1) eq_refl eq_refl)
                      eq_refl) ["description"]).
  reflexivity.
Defined.

(** Keys with a letter above 127.  The key made of [a], a bar and the
    letter 233 carries a tag, which is not a supported one.  The key made
    of two letters 233 has two characters, so it comes before [a|b] in
    the order of the sort key and its mapping is visited first. *)
Lemma tags_above_127_examples :
  match_tag key_a_e = Some ("a", String e_acute EmptyString) /\
  Spec.no_tags (VDict [(key_a_e, VInt 1)]) = false /\
  process_tags (H := demo) (VDict [(key_a_e, VInt 1)]) "en"
  = Raise (ConfigError (UnsupportedProcessorTag (String e_acute EmptyString))) /\
  sorted_keys ["a|b"; key_ee] = [key_ee; "a|b"] /\
  process_tags (H := demo)
    (VDict [(key_ee, VDict [("y|bar", VInt 1)]); ("a|b", VInt 2)]) "en"
  = Raise (ConfigError (UnsupportedProcessorTag "bar")).
Proof. repeat split; vm_compute; reflexivity. Qed.

Lemma process_tags_key_order_witness :
  process_tags (H := demo) (VDict doc_title_twice) "en"
  = process_tags (H := demo)
      (VDict [("title", VStr "plain");
              ("title|i18n", VDict [("en", VStr "A"); ("fi", VStr "B")])])
      "en".
Proof.
  apply (process_tags_key_order (H := demo)).
  - apply (bool_decide_unpack _). vm_compute. exact I.
  - apply perm_swap.
Defined.

Lemma process_tags_tagged_wins_witness :
  exists d, VDict [("title", VStr "B")] = VDict d /\
            dict_get "title" d = Some (VStr "B").
Proof.
  destruct (process_tags_tagged_wins (H := demo) doc_title_twice "en"
              "title|i18n" "title" (VStr "plain")
              [("en", VStr "A"); ("fi", VStr "B")]
              [("en", VDict [("title", VStr "A")]);
               ("fi", VDict [("title", VStr "B")])])
    with (l := "fi") (v := VDict [("title", VStr "B")])
    as (d & Hd & Hs & _).
  - apply (bool_decide_unpack _). vm_compute. exact I.
  - reflexivity.
  - reflexivity.
  - reflexivity.
  - reflexivity.
  - intros k2 Hk2 Hne1 Hne2. apply list_elem_of_In in Hk2. simpl in Hk2.
    destruct Hk2 as [<-|[<-|[]]]; [by destruct Hne1 | by destruct Hne2].
  - vm_compute. reflexivity.
  - reflexivity.
  - exists d. split; [exact Hd | apply Hs; reflexivity].
Defined.

End TagResultsExamples.

(** ** More on the course and exercise cache *)

Section CacheInvariants.
Import Py Builtins AccessConfig AccessConfig.ConfigParser Examples.
Import CourseConfig.
Context `{Externals}.

Lemma setitem_Ok (c : value) (k : string) (v : value) (c' : value) :
  setitem c k v = Ok c' -> exists d, c = VDict d /\ c' = VDict (dict_set k v d).
Proof. destruct c; try done. intros [= <-]. eauto. Qed.

(** The walk over the exercises keeps the two collections in step: a key
    is listed exactly when it has a config file. *)
Lemma recurse_exercises_agree (f : nat) :
  forall (data parent : value) (acc acc' : list string * dict),
    recurse_exercises f data parent acc = Ok acc' ->
    (forall x, x ∈ fst acc <-> is_Some (dict_get x (snd acc))) ->
    forall x, x ∈ fst acc' <-> is_Some (dict_get x (snd acc')).
Proof.
  induction f as [|f IH]; intros data parent acc acc'.
  - simpl. intros (has & _ & Hrest)%bind_Ok. destruct has; simpl in Hrest;
      [|by injection Hrest as <-].
    apply bind_Ok in Hrest as (c & _ & (cs & _ & Hrest)%bind_Ok).
    destruct cs; [by injection Hrest as <- | done].
  - simpl. intros (has & _ & Hrest)%bind_Ok. destruct has; simpl in Hrest;
      [|by injection Hrest as <-].
    apply bind_Ok in Hrest as (c & _ & (cs & _ & Hrest)%bind_Ok).
    intros Hacc.
    apply (foldM_invariant
             (fun a => forall x, x ∈ fst a <-> is_Some (dict_get x (snd a)))
             _ _ _ _) with (3 := Hrest); [|done].
    intros [keys cf] ev a' _ Hinv (has_key & _ & (a1 & Ha1 & Hrec)%bind_Ok)%bind_Ok.
    apply (IH _ _ _ _ Hrec).
    destruct has_key; [|by injection Ha1 as <-].
    apply bind_Ok in Ha1 as (key & _ & (ek & _ & (cfg & _ & Ha1)%bind_Ok)%bind_Ok).
    destruct (truthy cfg); injection Ha1 as <-; [|done].
    intros x. simpl in *. rewrite elem_of_app, list_elem_of_singleton.
    rewrite dict_get_set. destruct (String.eqb_spec x ek) as [->|Hne].
    + split; [eauto | by right].
    + rewrite Hinv. split; [by intros [?|?] | by left].
Qed.

(** What [load_course] leaves in the cache: nothing new, or the record it
    has built, stored before [symbolic_link] is called. *)
Lemma load_course_stored (course_key : string) (_courses : courses) :
  (snd (load_course course_key _courses) = _courses /\
   forall c, fst (load_course course_key _courses) <> Ok (Some c))
  \/ exists c,
       snd (load_course course_key _courses) = dict_set course_key c _courses /\
       getmtime (file c) = Some (mtime c) /\
       exercises c = [] /\
       Props.course_ok course_key c /\
       ((fst (load_course course_key _courses) = Ok (Some c) /\
         symbolic_link COURSES_PATH (data c) = Some tt)
        \/ (fst (load_course course_key _courses) = Raise ExternalError /\
            symbolic_link COURSES_PATH (data c) = None)).
Proof.
  unfold load_course.
  destruct (get_config _) as [f|e] eqn:Eg; [|left; by destruct e].
  match goal with
  | |- context [match ?loaded with _ => _ end] =>
      destruct loaded as [c|e] eqn:El; [|by left]
  end.
  right. exists c.
  assert (Hc : getmtime (file c) = Some (mtime c) /\ exercises c = [] /\
               Props.course_ok course_key c);
    [|destruct Hc as (? & ? & ?);
      destruct (symbolic_link COURSES_PATH (data c)) as [[]|]; cbn;
      repeat (split; [done|]); auto].
  apply bind_Ok in El as (t0 & Ht & El).
  destruct (getmtime f) as [t1|] eqn:Em; [|done]. injection Ht as ->.
  apply bind_Ok in El as (doc & Hparse & El).
  apply bind_Ok in El as (doc1 & Hdoc & El).
  assert (doc1 = doc) as -> by (destruct doc; first [done | by injection Hdoc as <-]).
  apply bind_Ok in El as ([] & Hname & El).
  apply bind_Ok in El as (data1 & (d0 & -> & ->)%setitem_Ok & El).
  apply bind_Ok in El as (data2 & (? & [= <-] & ->)%setitem_Ok & El).
  apply bind_Ok in El as (data3 & (? & [= <-] & ->)%setitem_Ok & El).
  cbn [contains bind] in El.
  apply bind_Ok in El as (data4 & Hstatic & El).
  set (d3 := dict_set "dir" (VStr (path_to (VStr course_key)))
               (dict_set "mtime" (VInt t0)
                  (dict_set "key" (VStr course_key) d0))) in *.
  assert (Hd3 : dict_get "key" d3 = Some (VStr course_key) /\
                dict_get "mtime" d3 = Some (VInt t0) /\
                dict_get "dir" d3 = Some (VStr (path_to (VStr course_key))) /\
                is_Some (dict_get "name" d3)).
  { subst d3. rewrite !dict_get_set. cbn. repeat split; try done.
    apply (proj1 (proj1 (check_fields_spec f d0 ["name"])) Hname). by left. }
  destruct Hd3 as (Hkey & Hmtime & Hdir & Hnm).
  assert (Hd4 : exists d4, data4 = VDict d4 /\
                dict_get "key" d4 = Some (VStr course_key) /\
                dict_get "mtime" d4 = Some (VInt t0) /\
                dict_get "dir" d4 = Some (VStr (path_to (VStr course_key))) /\
                is_Some (dict_get "name" d4) /\
                is_Some (dict_get "static_url" d4)).
  { destruct (dict_has "static_url" d3) eqn:Es; cbn in Hstatic;
      injection Hstatic as <-; eexists; (split; [done|]).
    - by apply dict_has_get in Es.
    - rewrite !dict_get_set. cbn. done. }
  destruct Hd4 as (d4 & -> & Hkey4 & Hmtime4 & Hdir4 & Hnm4 & Hst4).
  clear Hstatic Hkey Hmtime Hdir Hnm. clearbody d3. clear d3.
  cbn [contains bind] in El.
  apply bind_Ok in El as (data5 & Hmod & (d5 & Hd5 & El)%bind_Ok).
  assert (Hdata5 : data5 = VDict d5)
    by (destruct data5; first [done | by injection Hd5 as <-]).
  subst data5. clear Hd5.
  assert (Hd5 : (forall k, k <> "exercises" -> k <> "config_files" ->
                           dict_get k d5 = dict_get k d4) /\
                (dict_has "modules" d4 = true ->
                 exists keys config_files,
                   dict_get "exercises" d5 = Some (VList (map VStr keys)) /\
                   dict_get "config_files" d5 = Some (VDict config_files) /\
                   forall x, x ∈ keys <-> is_Some (dict_get x config_files))).
  { destruct (dict_has "modules" d4) eqn:Ehas.
    - apply bind_Ok in Hmod as (ms & _ & Hmod).
      apply bind_Ok in Hmod as (modules & _ & Hmod).
      apply bind_Ok in Hmod as ([keys cf] & Hwalk & Hmod).
      cbn in Hmod. injection Hmod as <-.
      split.
      + intros k Hk1 Hk2. rewrite !dict_get_set.
        destruct (String.eqb_spec k "config_files"); [done|].
        by destruct (String.eqb_spec k "exercises").
      + intros _. exists keys, cf. rewrite !dict_get_set. cbn.
        split; [done|]. split; [done|].
        apply (foldM_invariant
                 (fun a => forall x, x ∈ fst a <-> is_Some (dict_get x (snd a)))
                 _ _ _ _) with (3 := Hwalk).
        * intros a module a' _ Ha Hrec.
          by apply (recurse_exercises_agree _ _ _ _ _ Hrec).
        * intros x. simpl. split; [by intros ?%elem_of_nil | by intros [? ?]].
    - injection Hmod as <-. split; [done | done]. }
  destruct Hd5 as [Hsame Hmods].
  unfold _default_lang in El.
  set (l := default VNone (dict_get "language" d5)) in *.
  assert (Hfin : exists d6 lang0,
            c = mk (course_meta course_key _courses) f t0 time_time d6 lang0 [] /\
            default (VStr DEFAULT_LANG) (dict_get "lang" d6) = VStr lang0 /\
            forall k, k <> "lang" -> dict_get k d6 = dict_get k d5).
  { destruct l as [| | | |[|first rest]|]; cbn in El;
      try (destruct (default (VStr DEFAULT_LANG) (dict_get "lang" d5)) eqn:Elang;
           try done; injection El as <-; by eauto).
    rewrite dict_get_set_eq in El. cbn in El.
    destruct first; try done. injection El as <-.
    eexists _, _. split; [done|]. rewrite dict_get_set_eq. split; [done|].
    intros k Hk. by rewrite dict_get_set_ne. }
  destruct Hfin as (d6 & lang0 & -> & Hlang & Hsame6). cbn.
  split; [done|]. split; [done|].
  unfold Props.course_ok. cbn.
  rewrite !Hsame6, !Hsame by done.
  repeat split; try done.
  intros Hm. rewrite Hsame6, Hsame in Hm by done.
  apply dict_has_get in Hm.
  destruct (Hmods Hm) as (keys & cf & He & Hc & Hagree).
  exists keys, cf. by rewrite !Hsame6.
Qed.

Lemma load_course_Ok (course_key : string) (_courses _courses' : courses)
      (c : t) :
  load_course course_key _courses = (Ok (Some c), _courses') ->
  _courses' = dict_set course_key c _courses /\
  getmtime (file c) = Some (mtime c) /\
  exercises c = [] /\
  Props.course_ok course_key c.
Proof.
  intros E.
  destruct (load_course_stored course_key _courses)
    as [[_ Hno]|(c' & Hs & Hm & He & Hok & [[Hr _]|[Hr _]])];
    rewrite E in *; cbn [fst snd] in *.
  - by destruct (Hno c).
  - injection Hr as ->. by subst.
  - done.
Qed.

Lemma fresh_refl (t0 : Z) (f : string) :
  getmtime f = Some t0 -> fresh t0 f = true.
Proof. unfold fresh. intros ->. apply Z.geb_le. lia. Qed.

Lemma get_Ok (course_key : string) (_courses _courses' : courses) (c : t) :
  get course_key _courses = (Ok (Some c), _courses') ->
  dict_get course_key _courses' = Some c /\
  fresh (mtime c) (file c) = true /\
  ((_courses' = _courses /\ dict_get course_key _courses = Some c)
   \/ (_courses' = dict_set course_key c _courses /\ exercises c = [] /\
       Props.course_ok course_key c)).
Proof.
  unfold get.
  destruct (dict_get course_key _courses) as [config|] eqn:Ec.
  - destruct (fresh (mtime config) (file config)) eqn:Ef.
    + intros [= <- <-]. auto.
    + intros (-> & Hm & He & Hok)%load_course_Ok.
      rewrite dict_get_set_eq. split; [done|].
      split; [by apply fresh_refl | auto].
  - intros (-> & Hm & He & Hok)%load_course_Ok.
    rewrite dict_get_set_eq. split; [done|].
    split; [by apply fresh_refl | auto].
Qed.

(** X21.  After [get] has returned a course, the course is in the cache, and
    as long as its index file is not modified a second [get] returns the
    same record without loading anything and leaves the cache as it
    is. *)
Theorem get_then_cached (course_key : string) (_courses : courses) (c : t) :
  fst (get course_key _courses) = Ok (Some c) ->
  dict_get course_key (snd (get course_key _courses)) = Some c /\
  get course_key (snd (get course_key _courses))
  = (Ok (Some c), snd (get course_key _courses)).
Proof.
  destruct (get course_key _courses) as [r cs'] eqn:E. simpl. intros ->.
  apply get_Ok in E as (Hc & Hf & _). split; [done|].
  unfold get. by rewrite Hc, Hf.
Qed.

Lemma get_keeps_cache_aux (course_key : string) (_courses : courses) :
  (forall k, k <> course_key ->
     dict_get k (snd (get course_key _courses)) = dict_get k _courses)
  /\ ((forall c, fst (get course_key _courses) <> Ok (Some c)) ->
      snd (get course_key _courses) = _courses
      \/ exists c,
           snd (get course_key _courses) = dict_set course_key c _courses /\
           fst (get course_key _courses) = Raise ExternalError /\
           symbolic_link COURSES_PATH (data c) = None /\
           Props.course_ok course_key c)
  /\ (forall c, fst (get course_key _courses) = Ok (Some c) ->
        snd (get course_key _courses) = dict_set course_key c _courses /\
        (dict_get course_key _courses = Some c \/
         symbolic_link COURSES_PATH (data c) = Some tt)).
Proof.
  assert (Hload : (forall k, k <> course_key ->
            dict_get k (snd (load_course course_key _courses))
            = dict_get k _courses)
          /\ ((forall c, fst (load_course course_key _courses) <> Ok (Some c)) ->
              snd (load_course course_key _courses) = _courses
              \/ exists c,
                   snd (load_course course_key _courses)
                   = dict_set course_key c _courses /\
                   fst (load_course course_key _courses) = Raise ExternalError /\
                   symbolic_link COURSES_PATH (data c) = None /\
                   Props.course_ok course_key c)
          /\ (forall c, fst (load_course course_key _courses) = Ok (Some c) ->
                snd (load_course course_key _courses)
                = dict_set course_key c _courses /\
                (dict_get course_key _courses = Some c \/
                 symbolic_link COURSES_PATH (data c) = Some tt))).
  { destruct (load_course_stored course_key _courses)
      as [[Hs Hno]|(c & Hs & _ & _ & Hok & [[Hr Hl]|[Hr Hl]])];
      rewrite Hs; (split; [|split]).
    - done.
    - by left.
    - intros c Hc. by destruct (Hno c).
    - intros k Hk. by rewrite dict_get_set_ne.
    - intros Hno. by destruct (Hno c).
    - intros c' Hc'. rewrite Hr in Hc'. injection Hc' as <-. auto.
    - intros k Hk. by rewrite dict_get_set_ne.
    - intros _. right. by exists c.
    - intros c' Hc'. by rewrite Hr in Hc'. }
  unfold get. destruct (dict_get course_key _courses) as [config|] eqn:Ec;
    [|done].
  destruct (fresh _ _); [|done]. simpl. split; [done|].
  split; [intros Hno; by destruct (Hno config)|].
  intros c [= <-]. split; [|by left]. symmetry. by apply dict_set_same.
Qed.

(** X22.  [get] never evicts.  The entries of the other courses are left as
    they are.  When [get] returns a course, that course is the new entry of
    its key.  When it returns [None] or raises, the cache is unchanged, so a
    stale entry stays, with one exception: the new record is stored before
    [symbolic_link] is called, so when that call raises, [get] raises with
    the freshly loaded course already stored under its key. *)
Theorem get_keeps_cache (course_key : string) (_courses : courses) :
  (forall k, k <> course_key ->
     dict_get k (snd (get course_key _courses)) = dict_get k _courses)
  /\ ((forall c, fst (get course_key _courses) <> Ok (Some c)) ->
      snd (get course_key _courses) = _courses
      \/ exists c,
           snd (get course_key _courses) = dict_set course_key c _courses /\
           fst (get course_key _courses) = Raise ExternalError /\
           symbolic_link COURSES_PATH (data c) = None /\
           Props.course_ok course_key c)
  /\ (forall c, fst (get course_key _courses) = Ok (Some c) ->
        snd (get course_key _courses) = dict_set course_key c _courses /\
        (dict_get course_key _courses = Some c \/
         symbolic_link COURSES_PATH (data c) = Some tt)).
Proof. apply get_keeps_cache_aux. Qed.

(** X23.  Every course that [get] returns or leaves in the cache has in its
    data the key it was asked for, the mtime of the record, the directory,
    a name, a static URL and the language of the record, and the listed
    exercises are exactly the ones with a config file: [get] keeps this
    true of a cache that started empty. *)
Theorem get_keeps_courses_ok (course_key : string) (_courses : courses) :
  (forall k c, dict_get k _courses = Some c -> Props.course_ok k c) ->
  (forall k c, dict_get k (snd (get course_key _courses)) = Some c ->
               Props.course_ok k c)
  /\ (forall c, fst (get course_key _courses) = Ok (Some c) ->
        Props.course_ok course_key c).
Proof.
  intros Hok.
  assert (Hset : forall c, Props.course_ok course_key c ->
            forall k c0, dict_get k (dict_set course_key c _courses) = Some c0 ->
                         Props.course_ok k c0).
  { intros c Hc k c0. rewrite dict_get_set.
    destruct (String.eqb_spec k course_key) as [->|Hne]; [|apply Hok].
    by intros [= <-]. }
  destruct (get_keeps_cache_aux course_key _courses) as (_ & Hfail & _).
  destruct (get course_key _courses) as [[[c|]|e] cs'] eqn:E; cbn [fst snd] in *.
  - apply get_Ok in E as (Hc & _ & [[-> Hc0]|(-> & _ & Hcok)]).
    + split; [done|]. intros c0 [= <-]. by apply (Hok course_key).
    + split; [by apply Hset | by intros c0 [= <-]].
  - split; [|done].
    destruct Hfail as [->|(c & -> & _ & _ & Hc)]; [done|done|by apply Hset].
  - split; [|done].
    destruct Hfail as [->|(c & -> & _ & _ & Hc)]; [done|done|by apply Hset].
Qed.

(** *** Exercises *)

Lemma stamp_version_Ok (f exercise_key : string) (t0 : Z) (version : value)
      (v : dict) :
  stamp_version f exercise_key t0 version = Ok v ->
  dict_get "key" v = Some (VStr exercise_key) /\
  dict_get "mtime" v = Some (VInt t0) /\
  is_Some (dict_get "title" v) /\ is_Some (dict_get "view_type" v).
Proof.
  unfold stamp_version.
  intros ([] & Hcheck & (v1 & Hv1 & (v2 & Hv2 & Hv)%bind_Ok)%bind_Ok)%bind_Ok.
  apply setitem_Ok in Hv1 as (d & -> & ->).
  apply setitem_Ok in Hv2 as (? & [= <-] & ->). injection Hv as <-.
  pose proof (proj1 (proj1 (check_fields_spec f d ["title"; "view_type"]))
                Hcheck) as Hfields.
  rewrite !dict_get_set. cbn.
  repeat split; try done; apply Hfields; set_solver.
Qed.

Lemma stamp_versions (f exercise_key : string) (t0 : Z)
      (root : list (string * value)) :
  forall acc out,
    foldM (fun acc '(l, version) =>
             version <- stamp_version f exercise_key t0 version;
             Ok (acc ++ [(l, version)]))
          root acc = Ok out ->
    exists stamped,
      out = acc ++ stamped /\
      dict_keys stamped = dict_keys root /\
      forall l v, (l, v) ∈ stamped ->
        exists version, stamp_version f exercise_key t0 version = Ok v.
Proof.
  induction root as [|[l version] root IH]; intros acc out; cbn [foldM].
  - intros [= <-]. exists []. rewrite app_nil_r. split; [done|].
    split; [done|]. by intros l v ?%elem_of_nil.
  - intros (acc1 & (v1 & Hv1 & [= <-])%bind_Ok & Hrest)%bind_Ok.
    apply IH in Hrest as (stamped & -> & Hkeys & Hall).
    exists ((l, v1) :: stamped). rewrite <- app_assoc. split; [done|].
    split; [simpl; by rewrite Hkeys|].
    intros l' v' [[= -> ->]|Hin]%elem_of_cons; [eauto | by eapply Hall].
Qed.

Lemma load_Ok (exercise_key course_dir f : string) (t0 : Z) (doc : value) :
  ExerciseConfig.load exercise_key course_dir = Ok (f, t0, doc) ->
  getmtime f = Some t0.
Proof.
  unfold ExerciseConfig.load.
  intros (cf & _ & (d1 & _ & (has & _ & (d2 & _ & Hm)%bind_Ok)%bind_Ok)
          %bind_Ok)%bind_Ok.
  destruct (getmtime cf) eqn:E; [|done]. by injection Hm as <- <- <-.
Qed.

Lemma load_exercise_Ok (self self' : t) (exercise_key : string)
      (e : ExerciseConfig.t) :
  load_exercise self exercise_key = (Ok (Some e), self') ->
  self' = store_exercise self exercise_key e /\
  getmtime (ExerciseConfig.file e) = Some (ExerciseConfig.mtime e) /\
  Props.exercise_ok (lang self) exercise_key e.
Proof.
  unfold load_exercise.
  match goal with
  | |- (match ?loaded with _ => _ end) = _ -> _ =>
      destruct loaded as [[e0|]|err] eqn:El; [|done..]
  end.
  intros [= -> <-]. split; [done|].
  apply bind_Ok in El as (course_key & _ & El).
  apply bind_Ok in El as (file_name & _ & El).
  apply bind_Ok in El as (name & _ & El).
  apply bind_Ok in El as ([[f t0] doc] & Hload & El).
  destruct (negb (truthy doc)); [done|].
  apply bind_Ok in El as (root & Hroot & El).
  apply bind_Ok in El as (out & Hout & [= <-]).
  apply stamp_versions in Hout as (stamped & -> & Hkeys & Hall). simpl.
  split; [destruct (startswith name "/"); by eapply load_Ok|].
  unfold Props.exercise_ok. cbn.
  split; [done|].
  apply process_tags_Ok in Hroot as (dflt & st & rs & _ & -> & _).
  split.
  - destruct stamped as [|[l0 v0] stamped]; [done|].
    simpl in Hkeys. injection Hkeys as -> _. simpl.
    by rewrite String.eqb_refl.
  - intros l v Hv%dict_get_elem_of.
    destruct (Hall l v Hv) as [version Hs].
    by apply stamp_version_Ok in Hs.
Qed.

Lemma load_exercise_state (self : t) (exercise_key : string) :
  (forall e, fst (load_exercise self exercise_key) <> Ok (Some e)) ->
  snd (load_exercise self exercise_key) = self.
Proof.
  unfold load_exercise.
  match goal with
  | |- context [match ?loaded with _ => _ end] =>
      destruct loaded as [[e0|]|err]; [|done..]
  end.
  intros Hno. by destruct (Hno e0).
Qed.

Lemma exercise_config_Ok (self self' : t) (exercise_key : string)
      (e : ExerciseConfig.t) :
  exercise_config self exercise_key = (Ok (Some e), self') ->
  bind (getitem (VDict (data self)) (VStr "exercises"))
       (fun listed => contains (VStr exercise_key) listed) = Ok true /\
  fresh (ExerciseConfig.mtime e) (ExerciseConfig.file e) = true /\
  ((self' = self /\ dict_get exercise_key (exercises self) = Some e)
   \/ (self' = store_exercise self exercise_key e /\
       Props.exercise_ok (lang self) exercise_key e)).
Proof.
  unfold exercise_config.
  destruct (bind _ _) as [[|]|err] eqn:Elisted; [|done..].
  intros Hcfg. split; [done|]. revert Hcfg.
  destruct (dict_get exercise_key (exercises self)) as [root|] eqn:Ec.
  - destruct (fresh _ _) eqn:Ef.
    + intros [= <- <-]. auto.
    + intros (-> & Hm & Hok)%load_exercise_Ok.
      split; [by apply fresh_refl | auto].
  - intros (-> & Hm & Hok)%load_exercise_Ok.
    split; [by apply fresh_refl | auto].
Qed.

Lemma exercise_config_again (self : t) (exercise_key : string)
      (e : ExerciseConfig.t) :
  fst (exercise_config self exercise_key) = Ok (Some e) ->
  dict_get exercise_key (exercises (snd (exercise_config self exercise_key)))
  = Some e /\
  exercise_config (snd (exercise_config self exercise_key)) exercise_key
  = (Ok (Some e), snd (exercise_config self exercise_key)).
Proof.
  destruct (exercise_config self exercise_key) as [r self'] eqn:E. simpl.
  intros ->.
  apply exercise_config_Ok in E as (Hlisted & Hf & [[-> Hc]|[-> Hok]]).
  - split; [done|]. unfold exercise_config. by rewrite Hlisted, Hc, Hf.
  - simpl. rewrite dict_get_set_eq. split; [done|].
    unfold exercise_config, store_exercise. cbn [data exercises].
    by rewrite Hlisted, dict_get_set_eq, Hf.
Qed.

(** X24.  After [exercise_config] has returned an exercise, the exercise is
    held by the course, and as long as its file is not modified a second
    call returns the same record without loading anything. *)
Theorem exercise_config_then_cached (self : t) (exercise_key : string)
        (e : ExerciseConfig.t) :
  fst (exercise_config self exercise_key) = Ok (Some e) ->
  dict_get exercise_key (exercises (snd (exercise_config self exercise_key)))
  = Some e /\
  exercise_config (snd (exercise_config self exercise_key)) exercise_key
  = (Ok (Some e), snd (exercise_config self exercise_key)).
Proof. apply exercise_config_again. Qed.

Lemma exercise_config_frame (self : t) (exercise_key : string) :
  let self' := snd (exercise_config self exercise_key) in
  meta self' = meta self /\ file self' = file self /\
  mtime self' = mtime self /\ ptime self' = ptime self /\
  data self' = data self /\ lang self' = lang self /\
  (forall k, k <> exercise_key ->
     dict_get k (exercises self') = dict_get k (exercises self)) /\
  ((forall e, fst (exercise_config self exercise_key) <> Ok (Some e)) ->
   self' = self).
Proof.
  destruct (exercise_config self exercise_key) as [[[e|]|err] self'] eqn:E;
    simpl.
  - apply exercise_config_Ok in E as (_ & _ & [[-> _]|[-> _]]).
    + repeat split; try done.
    + simpl. repeat split; try done.
      * intros k Hk. by rewrite dict_get_set_ne.
      * intros Hno. by destruct (Hno e).
  - assert (self' = self) as ->; [|done].
    revert E. unfold exercise_config.
    destruct (bind _ _) as [[|]|?]; [|intros ?; by simplify_eq..].
    pose proof (load_exercise_state self exercise_key) as Hs.
    destruct (dict_get exercise_key (exercises self)) as [root|];
      [destruct (fresh _ _); [done|]|];
      intros E; rewrite E in Hs; simpl in Hs; by apply Hs.
  - assert (self' = self) as ->; [|done].
    revert E. unfold exercise_config.
    destruct (bind _ _) as [[|]|?]; [|intros ?; by simplify_eq..].
    pose proof (load_exercise_state self exercise_key) as Hs.
    destruct (dict_get exercise_key (exercises self)) as [root|];
      [destruct (fresh _ _); [done|]|];
      intros E; rewrite E in Hs; simpl in Hs; by apply Hs.
Qed.

Lemma exercise_config_ok_aux (self : t) (exercise_key : string) :
  Props.exercises_ok self ->
  let self' := snd (exercise_config self exercise_key) in
  Props.exercises_ok self' /\
  (forall e, fst (exercise_config self exercise_key) = Ok (Some e) ->
             Props.exercise_ok (lang self) exercise_key e) /\
  data self' = data self /\ lang self' = lang self /\
  file self' = file self /\ mtime self' = mtime self /\
  (forall k, k <> exercise_key ->
     dict_get k (exercises self') = dict_get k (exercises self)) /\
  ((forall e, fst (exercise_config self exercise_key) <> Ok (Some e)) ->
   self' = self).
Proof.
  intros Hok self'.
  destruct (exercise_config_frame self exercise_key)
    as (_ & Hfile & Hmtime & _ & Hdata & Hlang & Hothers & Hfail).
  fold self' in Hfile, Hmtime, Hdata, Hlang, Hothers, Hfail.
  assert (Hret : forall e, fst (exercise_config self exercise_key) = Ok (Some e) ->
                           Props.exercise_ok (lang self) exercise_key e /\
                           dict_get exercise_key (exercises self') = Some e).
  { intros e He. subst self'.
    destruct (exercise_config self exercise_key) as [r s1] eqn:E.
    simpl in *. subst r.
    apply exercise_config_Ok in E as (_ & _ & [[-> Hc]|[-> Hnew]]).
    - split; [by apply Hok | done].
    - split; [done|]. simpl. apply dict_get_set_eq. }
  split; [|split; [intros e0 He; by apply Hret | by repeat (split; [done|])]].
  intros k e. rewrite Hlang.
  destruct (String.eqb_spec k exercise_key) as [->|Hne].
  - destruct (fst (exercise_config self exercise_key)) as [[e0|]|err] eqn:Er.
    + destruct (Hret e0 eq_refl) as [Hok0 Hget]. rewrite Hget.
      by intros [= <-].
    + rewrite Hfail by done. apply Hok.
    + rewrite Hfail by done. apply Hok.
  - rewrite Hothers by done. apply Hok.
Qed.

(** X25.  [exercise_config] changes nothing of the course but the entry of the
    exercise asked for, and nothing at all when it returns [None] or
    raises.  Every exercise it returns or leaves in the course has the
    variant of the course language, and each of its variants has a title
    and a view type and carries the key of the exercise and the mtime of
    its file. *)
Theorem exercise_config_keeps_ok (self : t) (exercise_key : string) :
  Props.exercises_ok self ->
  let self' := snd (exercise_config self exercise_key) in
  Props.exercises_ok self' /\
  (forall e, fst (exercise_config self exercise_key) = Ok (Some e) ->
             Props.exercise_ok (lang self) exercise_key e) /\
  data self' = data self /\ lang self' = lang self /\
  file self' = file self /\ mtime self' = mtime self /\
  (forall k, k <> exercise_key ->
     dict_get k (exercises self') = dict_get k (exercises self)) /\
  ((forall e, fst (exercise_config self exercise_key) <> Ok (Some e)) ->
   self' = self).
Proof. apply exercise_config_ok_aux. Qed.

(** What [data_for_language] does on an exercise that has the variant of
    the course language: for a selector other than [_root] it picks the
    variant of the requested language if there is one and the variant of
    the course language otherwise, and stamps it. *)
Lemma data_for_language_ok (L k : string) (e : ExerciseConfig.t)
      (language : option string) :
  Props.exercise_ok L k e -> language <> Some "_root" ->
  exists l variant,
    (language = Some l \/
     (l = L /\ forall l0, language = Some l0 ->
                          dict_get l0 (ExerciseConfig.data e) = None)) /\
    dict_get l (ExerciseConfig.data e) = Some variant /\
    ExerciseConfig.data_for_language e language
    = (Ok (Variant l),
       ExerciseConfig.mk (ExerciseConfig.course_lang e) (ExerciseConfig.file e)
         (ExerciseConfig.mtime e) (ExerciseConfig.ptime e)
         (dict_set l (dict_set "lang" (VStr l) variant)
                   (ExerciseConfig.data e))).
Proof.
  intros (Hl & [vL HL] & _) Hroot.
  unfold ExerciseConfig.data_for_language.
  case_bool_decide; [done|]. cbn [ExerciseConfig.try_languages].
  rewrite Hl. destruct language as [l0|].
  - destruct (dict_get l0 (ExerciseConfig.data e)) as [v0|] eqn:E0.
    + exists l0, v0. auto.
    + rewrite HL. exists L, vL. split; [|done]. right. split; [done|].
      by intros ? [= <-].
  - rewrite HL. exists L, vL. split; [|done]. right. by split.
Qed.

Lemma stamped_exercise_ok (L k l : string) (e : ExerciseConfig.t)
      (variant : dict) :
  Props.exercise_ok L k e ->
  dict_get l (ExerciseConfig.data e) = Some variant ->
  Props.exercise_ok L k
    (ExerciseConfig.mk (ExerciseConfig.course_lang e) (ExerciseConfig.file e)
       (ExerciseConfig.mtime e) (ExerciseConfig.ptime e)
       (dict_set l (dict_set "lang" (VStr l) variant) (ExerciseConfig.data e))).
Proof.
  intros (Hl & HL & Hall) Hv. unfold Props.exercise_ok. cbn.
  split; [done|]. split.
  - rewrite dict_get_set. by destruct (String.eqb L l).
  - intros l1 v1. rewrite dict_get_set.
    destruct (String.eqb_spec l1 l) as [->|Hne]; [|apply Hall].
    intros [= <-]. rewrite !dict_get_set. cbn. by apply (Hall l).
Qed.

Lemma data_for_language_keeps_ok (L k : string) (e : ExerciseConfig.t)
      (language : option string) :
  Props.exercise_ok L k e ->
  Props.exercise_ok L k (snd (ExerciseConfig.data_for_language e language)).
Proof.
  intros Hok.
  destruct (config_data_for_language_effect e language)
    as [->|(l & variant & _ & Hv & ->)]; [done|].
  by apply stamped_exercise_ok.
Qed.

Lemma store_exercise_ok (self : t) (k : string) (e : ExerciseConfig.t) :
  Props.exercises_ok self -> Props.exercise_ok (lang self) k e ->
  Props.exercises_ok (store_exercise self k e).
Proof.
  intros Hok He k0 e0. unfold store_exercise. cbn. rewrite dict_get_set.
  destruct (String.eqb_spec k0 k) as [->|Hne]; [by intros [= <-] | apply Hok].
Qed.

(** X26.  [exercise_data] on a course whose exercises are as [exercise_config]
    makes them.  They stay so.  When [exercise_config] finds the exercise,
    [data_for_language] does not raise, and for a selector other than
    [_root] what is returned is the variant of the requested language if
    the exercise has one and the variant of the course language otherwise,
    never an arbitrary first variant; that variant, as stored in the
    course after the call, carries its own language, the key of the
    exercise, the mtime of its file, a title and a view type. *)
Theorem exercise_data_selects (self : t) (exercise_key : string)
        (language : option string) :
  Props.exercises_ok self ->
  Props.exercises_ok (snd (exercise_data self exercise_key language))
  /\ (forall e, fst (exercise_config self exercise_key) = Ok (Some e) ->
        (exists s, fst (exercise_data self exercise_key language)
                   = Ok (Some s)) /\
        (language <> Some "_root" ->
         exists l e' v,
           fst (exercise_data self exercise_key language)
           = Ok (Some (Variant l)) /\
           (language = Some l \/
            (l = lang self /\
             forall l0, language = Some l0 ->
                        dict_get l0 (ExerciseConfig.data e) = None)) /\
           dict_get exercise_key
             (exercises (snd (exercise_data self exercise_key language)))
           = Some e' /\
           dict_get l (ExerciseConfig.data e') = Some v /\
           dict_get "lang" v = Some (VStr l) /\
           dict_get "key" v = Some (VStr exercise_key) /\
           dict_get "mtime" v = Some (VInt (ExerciseConfig.mtime e')) /\
           is_Some (dict_get "title" v) /\
           is_Some (dict_get "view_type" v))).
Proof.
  intros Hok.
  destruct (exercise_config_ok_aux self exercise_key Hok)
    as (Hok1 & Hret & _ & Hlang & _).
  unfold exercise_data.
  destruct (exercise_config self exercise_key) as [[[e|]|err] self1] eqn:E;
    simpl in *; [|split; [done|]; by intros e0 [=]..].
  specialize (Hret e eq_refl). rewrite <- Hlang in Hret.
  split.
  - pose proof (data_for_language_keeps_ok _ _ _ language Hret) as Hkeep.
    destruct (ExerciseConfig.data_for_language e language) as [[s|err] e1];
      simpl in *; by apply store_exercise_ok.
  - intros e0 [= <-]. split.
    + destruct (decide (language = Some "_root")) as [->|Hroot].
      * cbn. eauto.
      * destruct (data_for_language_ok _ _ _ _ Hret Hroot)
          as (l & variant & _ & _ & ->). eauto.
    + intros Hroot.
      destruct (data_for_language_ok _ _ _ _ Hret Hroot)
        as (l & variant & Hsel & Hv & ->).
      pose proof (stamped_exercise_ok _ _ _ _ _ Hret Hv) as (_ & _ & Hall).
      eexists l, _, _. split; [done|]. rewrite <- Hlang.
      split; [done|]. cbn. rewrite dict_get_set_eq. split; [done|]. cbn.
      rewrite dict_get_set_eq. split; [done|].
      split; [apply dict_get_set_eq|].
      specialize (Hall l (dict_set "lang" (VStr l) variant)). cbn in Hall.
      rewrite dict_get_set_eq in Hall. by apply Hall.
Qed.

(** *** The list of the exercises of a course *)

Lemma exercise_data_frame (self : t) (exercise_key : string)
      (language : option string) :
  let self' := snd (exercise_data self exercise_key language) in
  data self' = data self /\ lang self' = lang self /\ file self' = file self /\
  meta self' = meta self.
Proof.
  destruct (exercise_config_frame self exercise_key)
    as (Hmeta & Hfile & _ & _ & Hdata & Hlang & _).
  unfold exercise_data.
  destruct (exercise_config self exercise_key) as [[[e|]|err] self1];
    cbn [fst snd] in *; [|done..].
  by destruct (ExerciseConfig.data_for_language e language) as [[s|err] e1].
Qed.

Lemma exercise_data_cases (self : t) (exercise_key : string) :
  Props.exercises_ok self ->
  Props.exercises_ok (snd (exercise_data self exercise_key None)) /\
  ((exists e, fst (exercise_data self exercise_key None) = Raise e)
   \/ (fst (exercise_data self exercise_key None) = Ok None /\
       fst (exercise_config self exercise_key) = Ok None)
   \/ fst (exercise_data self exercise_key None)
      = Ok (Some (Variant (lang self)))).
Proof.
  intros Hok.
  destruct (exercise_config_ok_aux self exercise_key Hok)
    as (Hok1 & Hret & _ & Hlang & _).
  unfold exercise_data.
  destruct (exercise_config self exercise_key) as [[[e|]|err] self1] eqn:E;
    cbn [fst snd] in *; [|by auto|by eauto].
  specialize (Hret e eq_refl). rewrite <- Hlang in Hret.
  destruct (data_for_language_ok _ _ e None Hret)
    as (l & variant & Hsel & Hv & ->); [done|].
  cbn [fst snd] in *.
  split; [by apply store_exercise_ok, stamped_exercise_ok|].
  right. right. destruct Hsel as [?|[-> _]]; [done|]. by rewrite Hlang.
Qed.

Lemma load_exercise_None (self self' : t) (exercise_key : string) :
  load_exercise self exercise_key = (Ok None, self') ->
  exists course_key name f t0 doc,
    dict_get "key" (data self) = Some course_key /\
    Props.config_file_name (data self) exercise_key = Some (VStr name) /\
    (if startswith name "/"
     then ExerciseConfig.load (OsPath.drop 1 name) (_conf_dir course_key [])
     else ExerciseConfig.load name (_conf_dir course_key (meta self)))
    = Ok (f, t0, doc) /\
    truthy doc = false.
Proof.
  unfold load_exercise.
  match goal with
  | |- (match ?loaded with _ => _ end) = _ -> _ =>
      destruct loaded as [[e0|]|err] eqn:El; [done| |done]
  end.
  intros _.
  apply bind_Ok in El as (course_key & Hkey & El).
  apply bind_Ok in El as (file_name & Hname & El).
  apply bind_Ok in El as (name & Hstr & El).
  apply bind_Ok in El as ([[f t0] doc] & Hload & El).
  cbn [getitem] in Hkey.
  destruct (dict_get "key" (data self)) as [ck|] eqn:Ek; [|done].
  injection Hkey as ->.
  assert (file_name = VStr name) as ->
    by (destruct file_name; first [done | by injection Hstr as ->]).
  exists course_key, name, f, t0, doc. split; [done|]. split.
  - unfold Props.config_file_name.
    destruct (dict_has "config_files" (data self)) eqn:Ehas.
    + apply bind_Ok in Hname as (cf & Hcf & Hname). cbn [getitem] in Hcf.
      destruct (dict_get "config_files" (data self)) as [cf0|]; [|done].
      injection Hcf as ->. destruct cf; try done. by injection Hname as ->.
    + apply dict_has_false in Ehas. rewrite Ehas. by injection Hname as ->.
  - split; [by destruct (startswith name "/")|].
    destruct (truthy doc) eqn:Et; [|done]. cbn [negb] in El.
    by apply bind_Ok in El as (root & _ & (out & _ & [=])%bind_Ok).
Qed.

Lemma exercise_config_None (self : t) (exercise_key : string)
      (keys : list string) :
  dict_get "exercises" (data self) = Some (VList (map VStr keys)) ->
  exercise_key ∈ keys ->
  fst (exercise_config self exercise_key) = Ok None ->
  exists course_key name f t0 doc,
    dict_get "key" (data self) = Some course_key /\
    Props.config_file_name (data self) exercise_key = Some (VStr name) /\
    (if startswith name "/"
     then ExerciseConfig.load (OsPath.drop 1 name) (_conf_dir course_key [])
     else ExerciseConfig.load name (_conf_dir course_key (meta self)))
    = Ok (f, t0, doc) /\
    truthy doc = false.
Proof.
  intros Hkeys Hin. unfold exercise_config. cbn [getitem bind].
  rewrite Hkeys. cbn [bind contains].
  assert (existsb (eqb (VStr exercise_key)) (map VStr keys) = true) as ->.
  { apply existsb_exists. exists (VStr exercise_key).
    split; [apply in_map; by apply list_elem_of_In|]. cbn.
    apply String.eqb_refl. }
  destruct (dict_get exercise_key (exercises self)) as [root|];
    [destruct (fresh _ _); [done|]|];
    destruct (load_exercise self exercise_key) as [r s1] eqn:E;
    cbn [fst]; intros ->; by eapply load_exercise_None.
Qed.

Lemma get_exercise_list_loop_spec (keys : list string) :
  forall (self0 self self' : t) (all_keys : list string)
         (acc : list (string * selected))
         (r : list_error + list (string * selected)),
    Props.exercises_ok self ->
    data self = data self0 -> lang self = lang self0 -> file self = file self0 ->
    meta self = meta self0 ->
    dict_get "exercises" (data self0) = Some (VList (map VStr all_keys)) ->
    (forall k, k ∈ keys -> k ∈ all_keys) ->
    get_exercise_list_loop self (map VStr keys) acc = (r, self') ->
    Props.exercises_ok self' /\
    (forall l, r = inr l ->
       l = acc ++ map (fun k => (k, Variant (lang self0))) keys) /\
    (forall k f, r = inl (InvalidExerciseKey k f) ->
       k ∈ keys /\ f = file self0 /\
       exists course_key name f0 t0 doc,
         dict_get "key" (data self0) = Some course_key /\
         Props.config_file_name (data self0) k = Some (VStr name) /\
         (if startswith name "/"
          then ExerciseConfig.load (OsPath.drop 1 name) (_conf_dir course_key [])
          else ExerciseConfig.load name (_conf_dir course_key (meta self0)))
         = Ok (f0, t0, doc) /\
         truthy doc = false).
Proof.
  induction keys as [|k keys IH];
    intros self0 self self' all_keys acc r Hok Hdata Hlang Hfile Hmeta Hall Hsub;
    cbn [map get_exercise_list_loop].
  - intros [= <- <-]. split; [done|]. split; [|done].
    intros l [= <-]. by rewrite app_nil_r.
  - destruct (exercise_data_cases self k Hok) as [Hok1 Hcases].
    destruct (exercise_data_frame self k None) as (Hd1 & Hl1 & Hf1 & Hm1).
    destruct (exercise_data self k None) as [r1 self1] eqn:E.
    cbn [fst snd] in *.
    destruct Hcases as [[e ->]|[[-> Hnone]| ->]].
    + intros [= <- <-]. split; [done|]. split; done.
    + intros [= <- <-]. split; [done|]. split; [done|].
      intros k' f [= <- <-]. split; [by left|]. rewrite Hf1.
      split; [done|]. rewrite <- Hdata, <- Hmeta.
      eapply (exercise_config_None self k all_keys); [by rewrite Hdata| |done].
      apply Hsub. by left.
    + intros Hloop.
      destruct (IH self0 self1 self' all_keys
                   (acc ++ [(k, Variant (lang self))]) r Hok1)
        as (Hok' & Hl & He);
        [congruence|congruence|congruence|congruence|done| |done|].
      * intros k' Hk'. apply Hsub. by right.
      * split; [done|]. split.
        -- intros l Hr. rewrite (Hl l Hr), <- app_assoc. cbn.
           by rewrite Hlang.
        -- intros k' f Hr. destruct (He k' f Hr) as (Hin & Hf & Hdoc).
           split; [by right | done].
Qed.

(** X27.  [get_exercise_list] on a course whose exercises are as
    [exercise_config] makes them (none loaded yet, for one).  The list it
    returns has one entry for every listed exercise, in the order of the
    list: the stored variant of the course language.  Its own error,
    "Invalid exercise key", names a listed key and the file of the course,
    and it is raised only when the config file of that exercise holds an
    empty document: the file that [ExerciseConfig.load] finds for the name
    registered for the key in [config_files] (the key itself when there is
    none), in the configuration directory of the course, or in the course
    directory itself when the name starts with a slash. *)
Theorem get_exercise_list_lists (self : t) (keys : list string) :
  Props.exercises_ok self ->
  dict_get "exercises" (data self) = Some (VList (map VStr keys)) ->
  Props.exercises_ok (snd (get_exercise_list self)) /\
  (forall l, fst (get_exercise_list self) = inr l ->
     l = map (fun k => (k, Variant (lang self))) keys) /\
  (forall k f, fst (get_exercise_list self) = inl (InvalidExerciseKey k f) ->
     k ∈ keys /\ f = file self /\
     exists course_key name f0 t0 doc,
       dict_get "key" (data self) = Some course_key /\
       Props.config_file_name (data self) k = Some (VStr name) /\
       (if startswith name "/"
        then ExerciseConfig.load (OsPath.drop 1 name) (_conf_dir course_key [])
        else ExerciseConfig.load name (_conf_dir course_key (meta self)))
       = Ok (f0, t0, doc) /\
       truthy doc = false).
Proof.
  intros Hok Hkeys. unfold get_exercise_list. cbn [getitem bind].
  rewrite Hkeys. cbn [bind iter].
  destruct (get_exercise_list_loop self (map VStr keys) []) as [r self'] eqn:E.
  by apply (get_exercise_list_loop_spec keys self self self' keys [] r).
Qed.

(** *** Course and exercise together *)

(** X28.  [course_and_exercise_configs] gives no exercise without a course.
    When it has returned a course and an exercise, the course in the cache
    is the returned one and holds the exercise, and as long as the files
    are not modified a second call returns the same two records and
    changes nothing. *)
Theorem course_and_exercise_configs_cached (course_key exercise_key : string)
        (_courses : courses) :
  (forall x, fst (course_and_exercise_configs course_key exercise_key _courses)
             = Ok (None, x) -> x = None)
  /\ (forall c e,
        fst (course_and_exercise_configs course_key exercise_key _courses)
        = Ok (Some c, Some e) ->
        let _courses' :=
          snd (course_and_exercise_configs course_key exercise_key _courses) in
        dict_get course_key _courses' = Some c /\
        dict_get exercise_key (exercises c) = Some e /\
        course_and_exercise_configs course_key exercise_key _courses'
        = (Ok (Some c, Some e), _courses')).
Proof.
  unfold course_and_exercise_configs.
  destruct (get course_key _courses) as [[[course|]|err] cs1] eqn:Eg;
    [|split; [by intros x [= <-] | done]|split; done].
  pose proof (exercise_config_again course exercise_key) as Hagain.
  pose proof (exercise_config_frame course exercise_key)
    as (_ & Hfile & Hmtime & _).
  destruct (exercise_config course exercise_key) as [[ex|err] course'] eqn:Ee;
    [|split; done].
  split; [done|]. intros c e [= <- ->]. cbn [fst snd] in *.
  destruct (Hagain e eq_refl) as [Hheld Hsame].
  apply get_Ok in Eg as (_ & Hfresh & _).
  rewrite dict_get_set_eq. split; [done|]. split; [done|].
  unfold get. rewrite dict_get_set_eq, Hmtime, Hfile, Hfresh, Hsame.
  f_equal. apply dict_set_same, dict_get_set_eq.
Qed.

(** *** The list of all courses *)

Lemma load_course_absent (course_key : string) (_courses : courses) :
  dict_get course_key _courses = None ->
  fst (load_course course_key _courses) = fst (load_course course_key []).
Proof.
  intros Hnone. unfold load_course, course_meta. rewrite Hnone. cbn [dict_get].
  destruct (get_config _) as [f|e]; [|by destruct e].
  match goal with
  | |- context [match ?loaded with _ => _ end] =>
      destruct loaded as [c|]; [|done]
  end.
  by destruct (external _).
Qed.

Lemma get_cache_fresh (course_key : string) (_courses : courses) :
  Props.cache_fresh _courses ->
  fst (get course_key _courses) = fst (get course_key []) /\
  (fst (get course_key _courses) <> Raise ExternalError ->
   Props.cache_fresh (snd (get course_key _courses))).
Proof.
  intros Hinv.
  destruct (dict_get course_key _courses) as [c|] eqn:Ec.
  - pose proof (Hinv _ _ Ec) as Hc.
    destruct (get course_key []) as [r0 cs0] eqn:E0. simpl in Hc. subst r0.
    apply get_Ok in E0 as (_ & Hfresh & _).
    unfold get. rewrite Ec, Hfresh. done.
  - assert (Hfst : fst (get course_key _courses) = fst (get course_key [])).
    { unfold get. rewrite Ec. cbn [dict_get]. by apply load_course_absent. }
    split; [done|].
    destruct (get_keeps_cache_aux course_key _courses) as (Hothers & Hfail & Hset).
    destruct (fst (get course_key _courses)) as [[c|]|e] eqn:Er.
    + destruct (Hset c eq_refl) as [-> _]. intros _ k c0. rewrite dict_get_set.
      destruct (String.eqb_spec k course_key) as [->|Hne]; [|apply Hinv].
      intros [= <-]. by rewrite <- Hfst.
    + intros _. by destruct Hfail as [->|(c & _ & ? & _)].
    + intros Hne. destruct Hfail as [->|(c & _ & Hr & _)]; [done|done|].
      by destruct Hne.
Qed.

Lemma all_loop_spec (registered : list string) :
  forall (_courses _courses' : courses) (r : result unit),
    Props.cache_fresh _courses ->
    all_loop registered _courses = (r, _courses') ->
    (r = Ok tt -> Props.cache_fresh _courses') /\
    (forall msg, r <> Raise (ConfigError msg)) /\
    (forall k, is_Some (dict_get k _courses) -> is_Some (dict_get k _courses')) /\
    (forall k, is_Some (dict_get k _courses') ->
               is_Some (dict_get k _courses) \/ k ∈ registered) /\
    (r = Ok tt ->
     forall k c, k ∈ registered -> fst (get k []) = Ok (Some c) ->
                 is_Some (dict_get k _courses')).
Proof.
  induction registered as [|k0 rest IH]; intros cs cs' r Hinv; cbn [all_loop].
  - intros [= <- <-]. split; [done|]. split; [done|]. split; [done|].
    split; [by left|]. by intros _ k c ?%elem_of_nil.
  - destruct (get_cache_fresh k0 cs Hinv) as [Hfst Hinv1].
    destruct (get_keeps_cache_aux k0 cs) as (Hothers & Hfail & Hset).
    assert (Hkeep : forall k, is_Some (dict_get k cs) ->
                              is_Some (dict_get k (snd (get k0 cs)))).
    { intros k Hk. destruct (decide (k = k0)) as [->|Hne];
        [|by rewrite Hothers].
      destruct (fst (get k0 cs)) as [[c|]|e] eqn:Er.
      - destruct (Hset c eq_refl) as [-> _]. rewrite dict_get_set_eq. eauto.
      - destruct Hfail as [->|(c & -> & _)]; [done|done|].
        rewrite dict_get_set_eq. eauto.
      - destruct Hfail as [->|(c & -> & _)]; [done|done|].
        rewrite dict_get_set_eq. eauto. }
    assert (Hnew : forall k, is_Some (dict_get k (snd (get k0 cs))) ->
                             is_Some (dict_get k cs) \/ k = k0).
    { intros k Hk. destruct (decide (k = k0)) as [->|Hne]; [by right|].
      left. by rewrite <- Hothers. }
    assert (Hgot : forall c, fst (get k0 []) = Ok (Some c) ->
                             is_Some (dict_get k0 (snd (get k0 cs)))).
    { intros c Hc. rewrite <- Hfst in Hc.
      destruct (Hset c Hc) as [-> _]. rewrite dict_get_set_eq. eauto. }
    destruct (get k0 cs) as [r0 cs1] eqn:Eg. cbn [fst snd] in *.
    assert (Hstep : forall r' cs'',
              r0 <> Raise ExternalError ->
              all_loop rest cs1 = (r', cs'') ->
              (r' = Ok tt -> Props.cache_fresh cs'') /\
              (forall msg, r' <> Raise (ConfigError msg)) /\
              (forall k, is_Some (dict_get k cs) -> is_Some (dict_get k cs'')) /\
              (forall k, is_Some (dict_get k cs'') ->
                         is_Some (dict_get k cs) \/ k ∈ k0 :: rest) /\
              (r' = Ok tt ->
               forall k c, k ∈ k0 :: rest -> fst (get k []) = Ok (Some c) ->
                           is_Some (dict_get k cs''))).
    { intros r' cs'' Hr0 Hloop.
      destruct (IH _ _ _ (Hinv1 Hr0) Hloop) as (Hi & Hn & Hk & Hs & Hc).
      split; [done|]. split; [done|]. split; [by intros k ?%Hkeep%Hk|].
      split.
      - intros k [Hk1|Hk1]%Hs; [|right; by right].
        destruct (Hnew k Hk1) as [?| ->]; [by left | right; by left].
      - intros Hr k c [->|Hin]%elem_of_cons Hget.
        + apply Hk. by eapply Hgot.
        + by eapply Hc. }
    destruct r0 as [o|e]; [by apply Hstep|].
    destruct e; try by apply Hstep.
    all: intros [= <- <-]; (split; [done|]); (split; [done|]);
      (split; [done|]); (split; [|done]);
      intros k Hk; destruct (Hnew k Hk) as [?| ->];
      [by left | right; by left].
Qed.

Lemma all_loop_from_empty (registered : list string) (r : result unit)
      (_courses' : courses) :
  all_loop registered [] = (r, _courses') ->
  (forall msg, r <> Raise (ConfigError msg)) /\
  (forall k, is_Some (dict_get k _courses') -> k ∈ registered) /\
  (r = Ok tt ->
   forall k c, dict_get k _courses' = Some c
               <-> k ∈ registered /\ fst (get k []) = Ok (Some c)).
Proof.
  intros Hloop.
  destruct (all_loop_spec registered [] _courses' r) as (Hi & Hn & _ & Hs & Hc);
    [done | done |].
  split; [done|].
  assert (Hreg : forall k, is_Some (dict_get k _courses') -> k ∈ registered).
  { intros k [Hk|Hk]%Hs; [|done]. by destruct Hk. }
  split; [done|]. intros Hr k c. split.
  - intros Hk. split; [apply Hreg; eauto | by apply (Hi Hr)].
  - intros [Hin Hget]. destruct (Hc Hr k c Hin Hget) as [c' Hc'].
    rewrite Hc'. f_equal. apply (Hi Hr) in Hc'. congruence.
Qed.

(** X29.  A refresh that goes through.  When the course directory is newer than
    the recorded time, [all] empties the cache and loads the registered
    courses; what it returns is the content of the new cache, which holds
    exactly the registered courses that [get] can load, each as [get]
    loads it; the courses for which [get] returns [None] or raises a
    configuration error are left out. *)
Theorem all_refreshes (registered : list string) (_courses _courses' : courses)
        (_dir_mtime _dir_mtime' t0 : Z) (l : list t) :
  getmtime COURSES_PATH = Some t0 ->
  (_dir_mtime < t0)%Z ->
  all registered _courses _dir_mtime = (Ok l, (_courses', _dir_mtime')) ->
  _dir_mtime' = t0 /\
  l = dict_values _courses' /\
  forall k c, dict_get k _courses' = Some c
              <-> k ∈ registered /\ fst (get k []) = Ok (Some c).
Proof.
  intros Ht Hlt. unfold all. rewrite Ht, (proj2 (Z.ltb_lt _ _) Hlt).
  destruct (all_loop registered []) as [[[]|e] cs'] eqn:Eloop; [|done].
  intros [= <- <- <-]. split; [done|]. split; [done|].
  by apply (all_loop_from_empty registered (Ok tt)).
Qed.


End CacheInvariants.

Section CacheExamples.
Import Py Builtins AccessConfig AccessConfig.ConfigParser Examples.
Import CourseConfig.

Lemma get_then_cached_witness :
  exists c,
    get (H := demo) "e" (snd (get (H := demo) "e" []))
    = (Ok (Some c), snd (get (H := demo) "e" [])).
Proof.
  eexists. refine (proj2 (get_then_cached (H := demo) "e" [] _ _)).
  vm_compute. reflexivity.
Defined.

(** Where [symbolic_link] raises, [get] raises with the course it has
    loaded already in the cache. *)
Lemma get_keeps_cache_witness :
  exists c,
    snd (get (H := demo_link_fails) "e" []) = dict_set "e" c [] /\
    fst (get (H := demo_link_fails) "e" []) = Raise ExternalError.
Proof.
  destruct (proj1 (proj2 (get_keeps_cache (H := demo_link_fails) "e" [])))
    as [Hs|(c & Hs & Hr & _)].
  - intros c Hc. vm_compute in Hc. discriminate Hc.
  - vm_compute in Hs. discriminate Hs.
  - exists c. split; assumption.
Defined.

Lemma get_keeps_courses_ok_witness :
  exists c, fst (get (H := demo) "e" []) = Ok (Some c) /\
            Props.course_ok (H := demo) "e" c.
Proof.
  eexists. split; [vm_compute; reflexivity|].
  refine (proj2 (get_keeps_courses_ok (H := demo) "e" [] _) _ _).
  - intros k c Hk. discriminate Hk.
  - vm_compute. reflexivity.
Defined.

Lemma course_c_ex_ok : Props.exercises_ok course_c_ex.
Proof. intros k e Hk. discriminate Hk. Qed.

Lemma exercise_config_then_cached_witness :
  exists e,
    exercise_config (H := demo)
      (snd (exercise_config (H := demo) course_c_ex "ex")) "ex"
    = (Ok (Some e), snd (exercise_config (H := demo) course_c_ex "ex")).
Proof.
  eexists.
  refine (proj2 (exercise_config_then_cached (H := demo) course_c_ex "ex" _ _)).
  vm_compute. reflexivity.
Defined.

Lemma exercise_config_keeps_ok_witness :
  exists e, fst (exercise_config (H := demo) course_c_ex "ex") = Ok (Some e) /\
            Props.exercise_ok "en" "ex" e.
Proof.
  eexists. split; [vm_compute; reflexivity|].
  refine (proj1 (proj2 (exercise_config_keeps_ok (H := demo) course_c_ex "ex"
                          course_c_ex_ok)) _ _).
  vm_compute. reflexivity.
Defined.

Lemma exercise_data_selects_witness :
  exists s, fst (exercise_data (H := demo) course_c_ex "ex" (Some "fi"))
            = Ok (Some s).
Proof.
  refine (proj1 (proj2 (exercise_data_selects (H := demo) course_c_ex "ex"
                          (Some "fi") course_c_ex_ok) _ _)).
  vm_compute. reflexivity.
Defined.

Lemma get_exercise_list_lists_witness :
  fst (get_exercise_list (H := demo) course_c_ex) = inr [("ex", Variant "en")]
  /\ [("ex", Variant "en")]
     = map (fun k => (k, Variant (lang course_c_ex))) ["ex"].
Proof.
  assert (Hrun : fst (get_exercise_list (H := demo) course_c_ex)
                 = inr [("ex", Variant "en")]) by (vm_compute; reflexivity).
  split; [exact Hrun|].
  exact (proj1 (proj2 (get_exercise_list_lists (H := demo) course_c_ex ["ex"]
                         course_c_ex_ok eq_refl)) _ Hrun).
Defined.

Lemma all_refreshes_witness :
  exists l cs',
    all (H := demo_refresh) ["c"; "d"; "e"] [] 0
    = (Ok l, (cs', 40%Z)) /\
    l = dict_values cs' /\ dict_keys cs' = ["d"; "e"].
Proof.
  eexists _, _. split; [vm_compute; reflexivity|].
  split; [|vm_compute; reflexivity].
  refine (proj1 (proj2 (all_refreshes (H := demo_refresh) ["c"; "d"; "e"] []
                          _ 0 40 40 _ _ _ _))).
  - reflexivity.
  - reflexivity.
  - vm_compute. reflexivity.
Defined.


End CacheExamples.

(** ** The tag processor on whole documents *)

Section TagDocuments.
Import Py Builtins AccessConfig AccessConfig.ConfigParser Examples.
Context `{Externals}.

Lemma dict_get_map_values (h : value -> value) (k : string) (d : dict) :
  dict_get k (map (fun kv => (fst kv, h (snd kv))) d)
  = option_map h (dict_get k d).
Proof.
  induction d as [|[k' v'] d IH]; simpl; [done|].
  by destruct (String.eqb k k').
Qed.

(** The list comprehension over elements that are returned as [g] gives
    them, the two lists being left as they are. *)
Lemma list_entries_map (rec : value -> closure -> result (value * closure))
      (g : value -> value) (lst : list value) (st : closure) :
  (forall v, v ∈ lst -> rec v st = Ok (g v, st)) ->
  forall acc, foldM (list_entry rec) lst (acc, st) = Ok (acc ++ map g lst, st).
Proof.
  induction lst as [|v lst IH]; intros Hall acc; cbn [foldM map].
  - by rewrite app_nil_r.
  - unfold list_entry at 1. rewrite (Hall v) by (by left). cbn [bind].
    rewrite IH by (intros w Hw; apply Hall; by right).
    by rewrite <- app_assoc.
Qed.

(** The loop over keys that carry no tag and whose values are returned as
    [g] gives them. *)
Lemma dict_entries_map (rec : value -> closure -> result (value * closure))
      (g : string -> value) (n : dict) (l : string) (c : bool) (st : closure)
      (ks : list string) :
  NoDup ks ->
  (forall k, k ∈ ks ->
     match_tag k = None /\
     exists v, dict_get k n = Some v /\ rec v st = Ok (g k, st)) ->
  forall d0, (forall k, k ∈ ks -> dict_get k d0 = None) ->
    foldM (dict_entry rec n l c) ks (d0, st)
    = Ok (d0 ++ map (fun k => (k, g k)) ks, st).
Proof.
  induction ks as [|k ks IH]; intros Hnd Hall d0 Hd0; cbn [foldM map].
  - by rewrite app_nil_r.
  - apply NoDup_cons in Hnd as [Hk Hnd].
    destruct (Hall k) as (Hm & v & Hv & Hr); [by left|].
    unfold dict_entry at 1. rewrite Hv. cbn [bind].
    rewrite (tag_loop_untagged _ _ _ _ _ _ Hm). cbn [bind].
    rewrite Hr. cbn [bind].
    rewrite dict_set_absent by (apply Hd0; by left).
    rewrite IH; [by rewrite <- app_assoc | done | |].
    + intros k' Hk'. apply Hall. by right.
    + intros k' Hk'. rewrite dict_get_app, Hd0 by (by right). simpl.
      destruct (String.eqb_spec k' k) as [->|]; [done | done].
Qed.

(** A document without tags comes back from [recursion] with its content
    unchanged and the entries of its mappings in key order. *)
Lemma recursion_in_key_order (f : nat) :
  forall (n : value) (l : string) (c : bool) (st : closure),
    depth n <= f ->
    Spec.distinct_keys n = true -> Spec.no_tags n = true ->
    recursion f n l c st = Ok (Props.in_key_order n, st).
Proof.
  induction f as [|f IH]; intros n l c st Hd Hdk Hnt.
  - destruct n; simpl in Hd; try lia; done.
  - destruct n as [| | | |lst|d]; try done.
    + rewrite recursion_list.
      rewrite (list_entries_map _ Props.in_key_order); [done|].
      intros v Hv. apply IH.
      * apply depth_element in Hv. lia.
      * simpl in Hdk. rewrite forallb_forall in Hdk.
        apply Hdk. by apply list_elem_of_In.
      * simpl in Hnt. rewrite forallb_forall in Hnt.
        apply Hnt. by apply list_elem_of_In.
    + rewrite recursion_dict.
      pose proof (distinct_keys_NoDup _ Hdk) as Hnd.
      set (d' := map (fun kv => (fst kv, Props.in_key_order (snd kv))) d).
      rewrite (dict_entries_map _ (fun k => default VNone (dict_get k d')));
        [done| | |done].
      * by rewrite sorted_keys_perm.
      * intros k Hk. destruct (sorted_keys_elem _ _ Hk) as [v Hv].
        pose proof (dict_get_elem_of _ _ _ Hv) as Hin.
        destruct (no_tags_entry _ _ _ Hnt Hin) as [Hm Hv_nt].
        split; [done|]. exists v. split; [done|].
        subst d'. rewrite dict_get_map_values, Hv. cbn [option_map default].
        apply IH; [|by apply (distinct_keys_entry d k)|done].
        apply depth_entry in Hv. lia.
Qed.

(** C8.  A document without processor tags, processed for a language [L],
    gives the one-entry mapping from [L] to the same document: every
    mapping has the same keys with the same content, listed in the order
    of the sort key, every sequence has the same elements in the same
    order, and scalars are as they were.  The result is equal to the
    document as Python compares documents (mappings regardless of the
    order of their keys), its keys are distinct and it has no tags. *)
Theorem process_tags_untagged (doc : value) (L : string) :
  Spec.distinct_keys doc = true ->
  Spec.no_tags doc = true ->
  process_tags doc L = Ok [(L, Props.in_key_order doc)] /\
  eqb (Props.in_key_order doc) doc = true /\
  Spec.distinct_keys (Props.in_key_order doc) = true /\
  Spec.no_tags (Props.in_key_order doc) = true.
Proof.
  intros Hdk Hnt.
  pose proof (recursion_in_key_order (depth doc) doc L true (mkClosure [] [])
                (Nat.le_refl _) Hdk Hnt) as Hr.
  split.
  - unfold process_tags. rewrite Hr. cbn [bind lang_keys].
    assert ((list_to_set [] ∖ {[L]} : gset string) = ∅) as -> by set_solver.
    by rewrite elements_empty.
  - destruct (recursion_untagged (depth doc) doc L true (mkClosure [] []))
      as (doc' & Hr' & Heq); [done..|].
    rewrite Hr in Hr'. injection Hr' as <-. split; [done|].
    apply recursion_resolved in Hr as [? ?]. done.
Qed.

(** *** The tag processor and the resolution of the specification *)

Lemma run_processor_spec (tag : string) (p : processor) (v v' : value)
      (l : string) :
  dict_get tag TAG_PROCESSOR_DICT = Some p ->
  run_processor p v l = Ok v' ->
  Spec.apply_tag tag l v = Some v'.
Proof.
  unfold Spec.apply_tag. cbn [dict_get TAG_PROCESSOR_DICT].
  destruct (String.eqb tag "i18n").
  - intros [= <-]. cbn. destruct v; try done. by intros [= <-].
  - destruct (String.eqb tag "rst"); [|done]. intros [= <-]. cbn.
    destruct (get_rst_as_html v); cbn; [|done]. by intros [= <-].
Qed.

Lemma run_processor_complete (tag : string) (v v' : value) (l : string) :
  Spec.apply_tag tag l v = Some v' ->
  exists p, dict_get tag TAG_PROCESSOR_DICT = Some p /\
            run_processor p v l = Ok v'.
Proof.
  unfold Spec.apply_tag. cbn [dict_get TAG_PROCESSOR_DICT].
  destruct (String.eqb tag "i18n").
  - destruct v; try done. intros [= <-]. by exists i18n.
  - destruct (String.eqb tag "rst"); [|done].
    destruct (get_rst_as_html v) as [html|] eqn:E; cbn; [|done].
    intros [= <-]. exists rst. split; [done|]. cbn. by rewrite E.
Qed.

Lemma note_tag_langs (tag : string) (v : value) (c : bool) (st : closure) :
  lang_keys (note_tag tag v c st)
  = lang_keys st
    ++ (if c
        then if String.eqb tag "i18n"
             then match v with VDict m => dict_keys m | _ => [] end
             else []
        else []).
Proof.
  unfold note_tag. destruct v; cbn; try (destruct c; cbn; try destruct (String.eqb tag "i18n"); by rewrite app_nil_r).
  destruct c; cbn; [|by rewrite app_nil_r].
  destruct (String.eqb tag "i18n"); cbn; [done | by rewrite app_nil_r].
Qed.

(** The tag loop applies the tags as the specification says and collects
    the languages of the [i18n] mappings it meets. *)
Lemma tag_loop_spec (f : nat) :
  forall k v l c st k' v' st',
    tag_loop f k v l c st = Ok ((k', v'), st') ->
    Spec.apply_tags f l k v = Some (k', v') /\
    lang_keys st'
    = lang_keys st ++ (if c then Spec.tag_languages f l k v else []).
Proof.
  induction f as [|f IH]; intros k v l c st k' v' st'.
  - rewrite tag_loop_0. cbn [Spec.apply_tags Spec.tag_languages].
    destruct (match_tag k) as [[? ?]|]; [done|]. intros [= <- <- <-].
    split; [done|]. destruct c; by rewrite app_nil_r.
  - rewrite tag_loop_S. cbn [Spec.apply_tags Spec.tag_languages].
    destruct (match_tag k) as [[name tag]|].
    + destruct (dict_get tag TAG_PROCESSOR_DICT) as [p|] eqn:Ep; [|done].
      destruct (run_processor p v l) as [v1|] eqn:Er; cbn [bind]; [|done].
      intros [Ha Hl]%IH.
      rewrite (run_processor_spec _ _ _ _ _ Ep Er). cbn. split; [done|].
      rewrite Hl, note_tag_langs. destruct c; [|by rewrite !app_nil_r].
      by rewrite <- app_assoc.
    + intros [= <- <- <-]. split; [done|]. destruct c; by rewrite app_nil_r.
Qed.

Lemma tag_loop_complete (f : nat) :
  forall k v l k' v',
    Spec.apply_tags f l k v = Some (k', v') ->
    forall c st, exists st', tag_loop f k v l c st = Ok ((k', v'), st').
Proof.
  induction f as [|f IH]; intros k v l k' v'.
  - cbn [Spec.apply_tags]. intros Ha c st. rewrite tag_loop_0.
    destruct (match_tag k) as [[? ?]|]; [done|]. injection Ha as <- <-. eauto.
  - cbn [Spec.apply_tags]. intros Ha c st. rewrite tag_loop_S.
    destruct (match_tag k) as [[name tag]|]; [|injection Ha as <- <-; eauto].
    apply bind_Some in Ha as (v1 & Ht & Ha).
    apply run_processor_complete in Ht as (p & -> & ->). cbn [bind].
    by apply IH.
Qed.

(** The list comprehension, element by element. *)
Lemma list_entries_spec (rec : value -> closure -> result (value * closure))
      (R : value -> value -> Prop) (h : value -> list string) (c : bool)
      (lst : list value) :
  (forall v st r st', v ∈ lst -> rec v st = Ok (r, st') ->
     R v r /\ lang_keys st' = lang_keys st ++ (if c then h v else [])) ->
  forall acc st acc' st',
    foldM (list_entry rec) lst (acc, st) = Ok (acc', st') ->
    exists rs, acc' = acc ++ rs /\ Forall2 R lst rs /\
               lang_keys st'
               = lang_keys st ++ (if c then flat_map h lst else []).
Proof.
  induction lst as [|v lst IH]; intros Hall acc st acc' st'; cbn [foldM].
  - intros [= <- <-]. exists []. rewrite app_nil_r. split; [done|].
    split; [constructor|]. destruct c; by rewrite app_nil_r.
  - intros ([a1 s1] & (r & Hr & ->)%list_entry_Ok & Hrest)%bind_Ok.
    destruct (Hall v st r s1) as [HR Hl]; [by left|done|].
    apply IH in Hrest as (rs & -> & Hrs & Hl2);
      [|intros w sa ra sb Hw; apply Hall; by right].
    exists (r :: rs). rewrite <- app_assoc. split; [done|].
    split; [by constructor|]. rewrite Hl2, Hl. cbn [flat_map].
    destruct c; [by rewrite <- app_assoc | by rewrite !app_nil_r].
Qed.

(** The loop over the keys of a mapping, key by key. *)
Lemma dict_entries_spec (rec : value -> closure -> result (value * closure))
      (n : dict) (l : string) (c : bool)
      (R : value -> value -> Prop) (h : value -> list string)
      (ks : list string) :
  (forall v st r st', rec v st = Ok (r, st') ->
     R v r /\ lang_keys st' = lang_keys st ++ (if c then h v else [])) ->
  forall d0 st d' st',
    foldM (dict_entry rec n l c) ks (d0, st) = Ok (d', st') ->
    exists entries,
      Forall2 (fun k e =>
                 exists v v',
                   dict_get k n = Some v /\
                   Spec.apply_tags (String.length k) l k v = Some (fst e, v') /\
                   R v' (snd e)) ks entries /\
      d' = fold_left (fun d nr => dict_set (fst nr) (snd nr) d) entries d0 /\
      lang_keys st'
      = lang_keys st
        ++ (if c
            then flat_map
                   (fun k =>
                      match dict_get k n with
                      | Some v =>
                          Spec.tag_languages (String.length k) l k v
                          ++ match Spec.apply_tags (String.length k) l k v with
                             | Some nv => h (snd nv)
                             | None => []
                             end
                      | None => []
                      end) ks
            else []).
Proof.
  intros Hrec.
  induction ks as [|k ks IH]; intros d0 st d' st'; cbn [foldM].
  - intros [= <- <-]. exists []. split; [constructor|]. split; [done|].
    destruct c; by rewrite app_nil_r.
  - intros ([d1 s1] & Hstep & Hrest)%bind_Ok.
    apply dict_entry_Ok in Hstep
      as (v & k' & v' & sa & r & Hv & Ht & Hr & ->).
    apply tag_loop_spec in Ht as [Ha Hl1].
    apply Hrec in Hr as [HR Hl2].
    apply IH in Hrest as (entries & Hall & -> & Hl3).
    exists ((k', r) :: entries). split.
    { constructor; [|done]. exists v, v'. done. }
    split; [done|]. rewrite Hl3, Hl2, Hl1. cbn [flat_map].
    rewrite Hv, Ha. cbn [snd].
    destruct c; [by rewrite <- !app_assoc | by rewrite !app_nil_r].
Qed.

(** What [recursion] returns is the document resolved as the
    specification says, and in a pass that collects languages the
    languages of the specification are appended to the collected ones. *)
Lemma recursion_spec (f : nat) :
  forall v l c st r st',
    recursion f v l c st = Ok (r, st') ->
    Spec.resolve f l v = Some r /\
    lang_keys st' = lang_keys st ++ (if c then Spec.languages f l v else []).
Proof.
  induction f as [|f IH]; intros v l c st r st'.
  - destruct v; simpl; try done; intros [= <- <-];
      (split; [done|]); destruct c; by rewrite app_nil_r.
  - destruct v as [| | | |lst|n];
      try (simpl; intros [= <- <-]; (split; [done|]);
           destruct c; by rewrite app_nil_r).
    + rewrite recursion_list.
      intros ([l' s1] & Hf & [= <- <-])%bind_Ok.
      apply (list_entries_spec _ (fun x y => Spec.resolve f l x = Some y)
               (Spec.languages f l) c) in Hf as (rs & -> & Hrs & Hl);
        [|intros w sa ra sb _; apply IH].
      split; [|done]. cbn [Spec.resolve].
      apply fmap_Some. exists rs. split; [|done]. by apply mapM_Some.
    + rewrite recursion_dict.
      intros ([d s1] & Hf & [= <- <-])%bind_Ok.
      apply (dict_entries_spec _ n l c (fun x y => Spec.resolve f l x = Some y)
               (Spec.languages f l)) in Hf as (entries & Hall & -> & Hl);
        [|intros w sa ra sb; apply IH].
      split; [|done]. cbn [Spec.resolve].
      apply bind_Some. exists entries. split; [|done].
      apply mapM_Some. eapply Forall2_impl; [exact Hall|].
      intros k [name x] (v0 & v' & Hv & Ha & Hr). cbn [fst snd] in *.
      rewrite Hv. cbn. rewrite Ha. cbn. by rewrite Hr.
Qed.

(** Conversely, where the specification resolves a document, [recursion]
    returns the resolved document, whatever has been collected. *)
Lemma recursion_complete (f : nat) :
  forall v l r,
    Spec.resolve f l v = Some r ->
    forall c st, exists st', recursion f v l c st = Ok (r, st').
Proof.
  induction f as [|f IH]; intros v l r.
  - destruct v; simpl; try done; intros [= <-]; eauto.
  - destruct v as [| | | |lst|n]; try (simpl; intros [= <-]; by eauto).
    + cbn [Spec.resolve]. intros (rs & Hrs%mapM_Some & ->)%fmap_Some c st.
      rewrite recursion_list.
      assert (Hfold : forall acc st0, exists st1,
                 foldM (list_entry (fun v => recursion f v l c)) lst (acc, st0)
                 = Ok (acc ++ rs, st1)).
      { clear st. induction Hrs as [|x y xs ys Hxy _ IHrs]; intros acc st0;
          cbn [foldM].
        - rewrite app_nil_r. eauto.
        - destruct (IH _ _ _ Hxy c st0) as [s1 Hs1].
          unfold list_entry at 1. rewrite Hs1. cbn [bind].
          destruct (IHrs (acc ++ [y]) s1) as [s2 Hs2].
          exists s2. by rewrite Hs2, <- app_assoc. }
      destruct (Hfold [] st) as [st1 ->]. cbn [bind]. eauto.
    + cbn [Spec.resolve].
      intros (entries & Hall%mapM_Some & [= <-])%bind_Some c st.
      rewrite recursion_dict.
      assert (Hfold : forall d0 st0, exists st1,
                 foldM (dict_entry (fun v => recursion f v l c) n l c)
                       (sorted_keys (dict_keys n)) (d0, st0)
                 = Ok (fold_left (fun d nr => dict_set (fst nr) (snd nr) d)
                                 entries d0, st1)).
      { clear st. induction Hall as [|k e ks es Hke _ IHks]; intros d0 st0;
          cbn [foldM fold_left]; [eauto|].
        apply bind_Some in Hke as (v0 & Hv0 & Hke).
        apply bind_Some in Hke as ([name v'] & Ha & Hke).
        apply bind_Some in Hke as (x & Hx & [= <-]). cbn [fst snd] in *.
        destruct (tag_loop_complete _ _ _ _ _ _ Ha c st0) as [sa Hsa].
        destruct (IH _ _ _ Hx c sa) as [sb Hsb].
        rewrite (dict_entry_intro _ n l c d0 st0 sa sb k name v0 v' x)
          by done.
        cbn [bind]. apply IHks. }
      destruct (Hfold [] st) as [st1 ->]. cbn [bind]. eauto.
Qed.

(** *** What the resolution of the specification gives *)

Lemma apply_tags_key (f : nat) :
  forall l k v k' v',
    Spec.apply_tags f l k v = Some (k', v') -> k' = Spec.strip_tags f k.
Proof.
  induction f as [|f IH]; intros l k v k' v'; cbn [Spec.apply_tags Spec.strip_tags].
  - destruct (match_tag k) as [[? ?]|]; [done|]. by intros [= <- _].
  - destruct (match_tag k) as [[name tag]|]; [|by intros [= <- _]].
    intros (v1 & _ & Ha)%bind_Some. by eapply IH.
Qed.

Lemma apply_tags_plain (f : nat) (l k : string) (v : value) :
  match_tag k = None -> Spec.apply_tags f l k v = Some (k, v).
Proof. intros Hm. destruct f; cbn; by rewrite Hm. Qed.

Lemma apply_tags_i18n (l k name : string) (m : dict) :
  match_tag k = Some (name, "i18n") -> match_tag name = None ->
  Spec.apply_tags (String.length k) l k (VDict m)
  = Some (name, default VNone (dict_get l m)).
Proof.
  intros Hm Hname. pose proof (match_tag_shorter _ _ _ Hm) as Hlen.
  destruct (String.length k) as [|f]; [lia|].
  cbn [Spec.apply_tags]. rewrite Hm. cbn. by apply apply_tags_plain.
Qed.

Lemma tag_languages_plain (f : nat) (l k : string) (v : value) :
  match_tag k = None -> Spec.tag_languages f l k v = [].
Proof. intros Hm. destruct f; cbn; by rewrite Hm. Qed.

Lemma tag_languages_i18n (l k name : string) (m : dict) :
  match_tag k = Some (name, "i18n") -> match_tag name = None ->
  Spec.tag_languages (String.length k) l k (VDict m) = dict_keys m.
Proof.
  intros Hm Hname. pose proof (match_tag_shorter _ _ _ Hm) as Hlen.
  destruct (String.length k) as [|f]; [lia|].
  cbn [Spec.tag_languages]. rewrite Hm. cbn.
  by rewrite tag_languages_plain, app_nil_r.
Qed.

Lemma elem_of_rev {A} (l : list A) (x : A) : x ∈ rev l <-> x ∈ l.
Proof. rewrite !list_elem_of_In. symmetry. apply in_rev. Qed.

(** Entries stored one after the other: the last entry of a name is the
    one that is found. *)
Lemma fold_set_get (es : dict) :
  forall (d : dict) (name : string),
    dict_get name (fold_left (fun d nr => dict_set (fst nr) (snd nr) d) es d)
    = match dict_get name (rev es) with
      | Some x => Some x
      | None => dict_get name d
      end.
Proof.
  induction es as [|[k x] es IH]; intros d name; cbn [fold_left rev]; [done|].
  rewrite IH, dict_get_app. destruct (dict_get name (rev es)); [done|].
  cbn [fst snd dict_get]. rewrite dict_get_set.
  by destruct (String.eqb name k).
Qed.

Lemma resolve_list (f : nat) (l : string) (xs : list value) (v : value) :
  Spec.resolve (S f) l (VList xs) = Some v
  <-> exists ys, v = VList ys /\
                 Forall2 (fun x y => Spec.resolve f l x = Some y) xs ys.
Proof.
  cbn [Spec.resolve]. rewrite fmap_Some. split.
  - intros (ys & Hys%mapM_Some & ->). eauto.
  - intros (ys & -> & Hys). exists ys. split; [by apply mapM_Some | done].
Qed.

Lemma resolve_dict (f : nat) (l : string) (n : dict) (v : value) :
  Spec.resolve (S f) l (VDict n) = Some v ->
  NoDup (dict_keys n) ->
  exists d,
    v = VDict d /\
    (forall name, is_Some (dict_get name d)
                  <-> exists k, k ∈ dict_keys n /\ Spec.name_of k = name) /\
    (forall k v0,
        dict_get k n = Some v0 ->
        exists v',
          Spec.apply_tags (String.length k) l k v0 = Some (Spec.name_of k, v') /\
          ((forall k2, k2 ∈ dict_keys n -> k2 <> k ->
                       Spec.name_of k2 = Spec.name_of k -> Props.key_le k2 k) ->
           exists x, dict_get (Spec.name_of k) d = Some x /\
                     Spec.resolve f l v' = Some x)).
Proof.
  cbn [Spec.resolve].
  intros (entries & Hall%mapM_Some & [= <-])%bind_Some Hnd.
  eexists. split; [done|].
  assert (Hstep : Forall2 (fun k e =>
            fst e = Spec.name_of k /\
            exists v0 v', dict_get k n = Some v0 /\
              Spec.apply_tags (String.length k) l k v0 = Some (Spec.name_of k, v') /\
              Spec.resolve f l v' = Some (snd e))
            (sorted_keys (dict_keys n)) entries).
  { eapply Forall2_impl; [exact Hall|]. intros k e Hke.
    apply bind_Some in Hke as (v0 & Hv0 & Hke).
    apply bind_Some in Hke as ([name v'] & Ha & Hke).
    apply bind_Some in Hke as (x & Hx & [= <-]). cbn [fst snd] in *.
    pose proof (apply_tags_key _ _ _ _ _ _ Ha) as ->.
    split; [done|]. by exists v0, v'. }
  clear Hall.
  assert (Hnames : map fst entries = map Spec.name_of (sorted_keys (dict_keys n))).
  { clear Hnd. induction Hstep as [|k e ks es [Hk _] _ IH]; [done|].
    cbn [map]. by rewrite Hk, IH. }
  split.
  - intros name. rewrite fold_set_get. cbn [dict_get].
    transitivity (name ∈ map fst entries).
    + destruct (dict_get name (rev entries)) as [x|] eqn:E.
      * split; [intros _|by eauto].
        apply dict_get_elem_of in E. rewrite elem_of_rev in E.
        apply list_elem_of_fmap. by exists (name, x).
      * split; [by intros [? ?]|]. intros Hin.
        apply dict_get_None_keys in E. destruct E.
        unfold dict_keys. rewrite map_rev. by rewrite elem_of_rev.
    + rewrite Hnames, list_elem_of_fmap. split.
      * intros (k & -> & Hk). exists k. split; [|done].
        by rewrite sorted_keys_perm in Hk.
      * intros (k & Hk & <-). exists k. split; [done|].
        by rewrite sorted_keys_perm.
  - intros k v0 Hv0.
    assert (Hin : k ∈ sorted_keys (dict_keys n)).
    { rewrite sorted_keys_perm. apply list_elem_of_fmap.
      exists (k, v0). split; [done | by apply dict_get_elem_of]. }
    apply list_elem_of_split in Hin as (ks1 & ks2 & Hks).
    rewrite Hks in Hstep, Hnames.
    apply Forall2_app_inv_l in Hstep as (es1 & es2' & Hpre & Hstep & ->).
    apply Forall2_cons_inv_l in Hstep
      as (e & es2 & (Hname & w0 & v' & Hw0 & Ha & Hx) & Hrest & ->).
    rewrite Hv0 in Hw0. injection Hw0 as <-.
    exists v'. split; [done|]. intros Huniq. exists (snd e). split; [|done].
    rewrite fold_set_get. cbn [dict_get].
    rewrite rev_app_distr. cbn [rev]. rewrite <- app_assoc, dict_get_app.
    assert (Hes2 : dict_get (Spec.name_of k) (rev es2) = None).
    { apply dict_get_None_keys. unfold dict_keys. rewrite map_rev.
      rewrite elem_of_rev.
      assert (Hn2 : map fst es2 = map Spec.name_of ks2).
      { rewrite !map_app in Hnames. cbn [map] in Hnames.
        apply app_inj_1 in Hnames as [_ [= _ ?]]; [done|].
        rewrite !length_map. symmetry. by eapply Forall2_length. }
      rewrite Hn2. intros (k2 & Hk2 & Hin2)%list_elem_of_fmap.
      pose proof (sorted_keys_sorted (dict_keys n)) as Hsorted.
      rewrite Hks in Hsorted.
      apply StronglySorted_app_1_r, StronglySorted_inv in Hsorted as [_ Hafter].
      rewrite List.Forall_forall in Hafter.
      assert (Hne : k2 <> k).
      { intros ->. rewrite <- (sorted_keys_perm (dict_keys n)), Hks in Hnd.
        by apply NoDup_app in Hnd as (_ & _ & [? _]%NoDup_cons). }
      apply Hne. apply key_le_antisym.
      - apply Huniq; [|done|done].
        rewrite <- (sorted_keys_perm (dict_keys n)), Hks.
        apply elem_of_app. right. by right.
      - apply Hafter. by apply list_elem_of_In. }
    rewrite Hes2. cbn [app dict_get]. destruct e as [ne xe]. cbn [fst snd] in *.
    subst ne. by rewrite String.eqb_refl.
Qed.

Lemma languages_list (f : nat) (l : string) (xs : list value) (x : string) :
  x ∈ Spec.languages (S f) l (VList xs)
  <-> exists x0, x0 ∈ xs /\ x ∈ Spec.languages f l x0.
Proof.
  cbn [Spec.languages]. rewrite list_elem_of_In, in_flat_map.
  by setoid_rewrite list_elem_of_In.
Qed.

Lemma languages_dict (f : nat) (l : string) (n : dict) (x : string) :
  x ∈ Spec.languages (S f) l (VDict n)
  <-> exists k v0,
        dict_get k n = Some v0 /\
        (x ∈ Spec.tag_languages (String.length k) l k v0
         \/ exists nv, Spec.apply_tags (String.length k) l k v0 = Some nv /\
                       x ∈ Spec.languages f l (snd nv)).
Proof.
  cbn [Spec.languages]. rewrite list_elem_of_In, in_flat_map. split.
  - intros (k & _ & Hx). destruct (dict_get k n) as [v0|] eqn:Ev; [|done].
    exists k, v0. split; [done|].
    apply list_elem_of_In, elem_of_app in Hx as [Hx|Hx]; [by left|].
    right. destruct (Spec.apply_tags _ l k v0) as [nv|];
      [by exists nv | by apply elem_of_nil in Hx].
  - intros (k & v0 & Hv0 & Hx). exists k. split.
    + apply list_elem_of_In. rewrite sorted_keys_perm.
      apply list_elem_of_fmap. exists (k, v0).
      split; [done | by apply dict_get_elem_of].
    + rewrite Hv0. apply list_elem_of_In, elem_of_app.
      destruct Hx as [Hx|(nv & -> & Hx)]; [by left | by right].
Qed.

Lemma add_variants_return (fuel : nat) (doc : value) (langs : list string) :
  (forall l, l ∈ langs ->
     forall st, exists r st', recursion fuel doc l false st = Ok (r, st')) ->
  forall root st, exists root' st',
    foldM (add_variant fuel doc) langs (root, st) = Ok (root', st').
Proof.
  induction langs as [|l langs IH]; intros Hall root st; cbn [foldM]; [eauto|].
  destruct (Hall l (list_elem_of_here _ _) st) as (r & s1 & Hr).
  unfold add_variant at 1. rewrite Hr. cbn [bind].
  apply IH. intros l' Hl'. apply Hall. by right.
Qed.

(** [process_tags] returns exactly when the specification resolves the
    document for the default language and for every harvested language;
    the variants are then the resolved documents. *)
Lemma process_tags_spec (doc : value) (L : string) :
  ((exists root, process_tags doc L = Ok root)
   <-> is_Some (Spec.resolve (depth doc) L doc) /\
       forall l, l ∈ Spec.languages (depth doc) L doc ->
                 is_Some (Spec.resolve (depth doc) l doc))
  /\ (forall root,
        process_tags doc L = Ok root ->
        is_Some (dict_get L root) /\
        NoDup (dict_keys root) /\
        (forall l, l ∈ dict_keys root
                   <-> l = L \/ l ∈ Spec.languages (depth doc) L doc) /\
        (forall l v, dict_get l root = Some v ->
                     Spec.resolve (depth doc) l doc = Some v /\
                     Spec.no_tags v = true)).
Proof.
  assert (Hret : forall root,
            process_tags doc L = Ok root ->
            is_Some (dict_get L root) /\
            NoDup (dict_keys root) /\
            (forall l, l ∈ dict_keys root
                       <-> l = L \/ l ∈ Spec.languages (depth doc) L doc) /\
            (forall l v, dict_get l root = Some v ->
                         Spec.resolve (depth doc) l doc = Some v /\
                         Spec.no_tags v = true)).
  { intros root (dflt & st & rs & Hd & -> & Hkeys & Hall)%process_tags_Ok.
    destruct (recursion_spec _ _ _ _ _ _ _ Hd) as [Hres Hlangs].
    cbn [lang_keys app] in Hlangs.
    split; [cbn [dict_get]; rewrite String.eqb_refl; eauto|].
    split.
    { cbn [dict_keys map fst]. apply NoDup_cons.
      split; [|fold (dict_keys rs); rewrite Hkeys; apply NoDup_elements].
      fold (dict_keys rs). rewrite Hkeys, elem_of_elements. set_solver. }
    split.
    { intros l. cbn [dict_keys map fst]. fold (dict_keys rs).
      rewrite elem_of_cons, Hkeys, elem_of_elements, elem_of_difference,
        elem_of_list_to_set, elem_of_singleton, Hlangs.
      destruct (decide (l = L)); naive_solver. }
    intros l v. cbn [dict_get].
    destruct (String.eqb_spec l L) as [->|Hne].
    - intros [= <-]. split; [done|].
      by apply recursion_resolved in Hd as [? _].
    - intros Hg%dict_get_elem_of. rewrite List.Forall_forall in Hall.
      destruct (Hall (l, v)) as (sa & sb & Hr); [by apply list_elem_of_In|].
      cbn [fst snd] in Hr. split.
      + by apply recursion_spec in Hr as [? _].
      + by apply recursion_resolved in Hr as [? _]. }
  split; [|exact Hret]. split.
  - intros [root Hroot]. destruct (Hret root Hroot) as (HL & _ & Hmem & Hres).
    split.
    + destruct HL as [dflt HL]. apply Hres in HL as [-> _]. eauto.
    + intros l Hl.
      assert (Hin : l ∈ dict_keys root) by (apply Hmem; by right).
      destruct (dict_get l root) as [v|] eqn:Ev.
      * apply Hres in Ev as [-> _]. eauto.
      * by apply dict_get_None_keys in Ev.
  - intros [[dflt Hdflt] Hall].
    destruct (recursion_complete _ _ _ _ Hdflt true (mkClosure [] []))
      as [st Hd].
    destruct (recursion_spec _ _ _ _ _ _ _ Hd) as [_ Hlangs].
    cbn [lang_keys app] in Hlangs.
    unfold process_tags. rewrite Hd. cbn [bind].
    destruct (add_variants_return (depth doc) doc
                (elements (list_to_set (lang_keys st) ∖ {[L]} : gset string)))
      with (root := [(L, dflt)]) (st := st) as (root' & st' & ->).
    + intros l Hl st0. rewrite elem_of_elements, elem_of_difference,
        elem_of_list_to_set, Hlangs in Hl. destruct Hl as [Hl _].
      destruct (Hall l Hl) as [r Hr].
      destruct (recursion_complete _ _ _ _ Hr false st0) as [s1 Hs1]. eauto.
    + cbn [bind]. eauto.
Qed.

(** C7.  [process_tags] returns a mapping exactly when the document can be
    resolved, as the specification describes resolution, for the default
    language and for every language harvested in the pass for the default
    language (otherwise it raises: an unsupported tag, a processor that
    fails; the model never runs out of fuel).  The mapping it returns holds
    the default language; its keys are distinct and are exactly the default
    language and the harvested languages; and each variant is the document
    resolved for its own language, with no tag left in it.

    Resolution and harvest are described at every depth by the remaining
    parts: a scalar is unchanged; a sequence is resolved element by
    element, in order; a mapping is resolved to a mapping whose keys are
    the names of its keys and in which the name of a field holds the
    resolved value of that field after its tags have been applied (when
    every other key of that name comes before it in the order of the sort
    key: a later one replaces it); for a field [name|i18n] the
    value after the tags is the content of its mapping for the language,
    and its languages are harvested; the languages harvested in a sequence
    or a mapping are those of its elements or of its fields' values after
    the tags, and those of the [i18n] mappings of its fields. *)
Theorem process_tags_variants (doc : value) (default_lang : string) :
  process_tags doc default_lang <> Raise OutOfFuel
  /\ ((exists root, process_tags doc default_lang = Ok root)
      <-> is_Some (Spec.resolve (depth doc) default_lang doc) /\
          forall l, l ∈ Spec.languages (depth doc) default_lang doc ->
                    is_Some (Spec.resolve (depth doc) l doc))
  /\ (forall root,
        process_tags doc default_lang = Ok root ->
        is_Some (dict_get default_lang root) /\
        NoDup (dict_keys root) /\
        (forall l, l ∈ dict_keys root
                   <-> l = default_lang \/
                       l ∈ Spec.languages (depth doc) default_lang doc) /\
        (forall l v, dict_get l root = Some v ->
                     Spec.resolve (depth doc) l doc = Some v /\
                     Spec.no_tags v = true))
  /\ (forall (f : nat) (l : string),
        (forall v, match v with
                   | VList _ | VDict _ => True
                   | _ => Spec.resolve f l v = Some v /\ Spec.languages f l v = []
                   end)
        /\ (forall xs v,
              Spec.resolve (S f) l (VList xs) = Some v
              <-> exists ys, v = VList ys /\
                    Forall2 (fun x y => Spec.resolve f l x = Some y) xs ys)
        /\ (forall n v,
              Spec.resolve (S f) l (VDict n) = Some v ->
              NoDup (dict_keys n) ->
              exists d,
                v = VDict d /\
                (forall name,
                    is_Some (dict_get name d)
                    <-> exists k, k ∈ dict_keys n /\ Spec.name_of k = name) /\
                (forall k v0,
                    dict_get k n = Some v0 ->
                    exists v',
                      Spec.apply_tags (String.length k) l k v0
                      = Some (Spec.name_of k, v') /\
                      ((forall k2, k2 ∈ dict_keys n -> k2 <> k ->
                                   Spec.name_of k2 = Spec.name_of k ->
                                   Props.key_le k2 k) ->
                       exists x, dict_get (Spec.name_of k) d = Some x /\
                                 Spec.resolve f l v' = Some x)))
        /\ (forall k name m,
              match_tag k = Some (name, "i18n") -> match_tag name = None ->
              Spec.name_of k = name /\
              Spec.apply_tags (String.length k) l k (VDict m)
              = Some (name, default VNone (dict_get l m)) /\
              Spec.tag_languages (String.length k) l k (VDict m)
              = dict_keys m)
        /\ (forall k v,
              match_tag k = None ->
              Spec.name_of k = k /\
              Spec.apply_tags (String.length k) l k v = Some (k, v) /\
              Spec.tag_languages (String.length k) l k v = [])
        /\ (forall xs x,
              x ∈ Spec.languages (S f) l (VList xs)
              <-> exists x0, x0 ∈ xs /\ x ∈ Spec.languages f l x0)
        /\ (forall n x,
              x ∈ Spec.languages (S f) l (VDict n)
              <-> exists k v0,
                    dict_get k n = Some v0 /\
                    (x ∈ Spec.tag_languages (String.length k) l k v0
                     \/ exists nv,
                          Spec.apply_tags (String.length k) l k v0 = Some nv /\
                          x ∈ Spec.languages f l (snd nv)))).
Proof.
  split; [apply process_tags_fuel|].
  destruct (process_tags_spec doc default_lang) as [Hiff Hret].
  split; [exact Hiff|]. split; [exact Hret|].
  intros f l. split; [|split; [|split; [|split; [|split; [|split]]]]].
  - intros v. destruct v; try done; by destruct f.
  - intros xs v. apply resolve_list.
  - intros n v. apply resolve_dict.
  - intros k name m Hm Hname.
    pose proof (apply_tags_i18n l k name m Hm Hname) as Ha.
    split; [|split; [done | by apply (tag_languages_i18n l k name)]].
    by apply apply_tags_key in Ha.
  - intros k v Hm.
    pose proof (apply_tags_plain (String.length k) l k v Hm) as Ha.
    split; [|split; [done | by apply tag_languages_plain]].
    by apply apply_tags_key in Ha.
  - intros xs x. apply languages_list.
  - intros n x. apply languages_dict.
Qed.

End TagDocuments.

Section TagDocumentsExamples.
Import Py Builtins AccessConfig AccessConfig.ConfigParser Examples.

Lemma process_tags_untagged_witness :
  process_tags (H := demo) doc_plain "fi"
  = Ok [("fi", Props.in_key_order doc_plain)] /\
  Props.in_key_order doc_plain
  = VDict [("a", VList [VInt 1; VDict [("y", VBool true); ("zz", VNone)]]);
           ("title", VStr "T")].
Proof.
  split; [|vm_compute; reflexivity].
  apply (process_tags_untagged (H := demo) doc_plain "fi");
    vm_compute; reflexivity.
Defined.

(** The example of the specification, through the theorem: processing
    [field|i18n: {en: A, fi: B}] with the default [en] gives the variants
    [en] and [fi], each the document resolved for its language. *)
Lemma process_tags_variants_witness :
  process_tags (H := demo) doc_i18n "en"
  = Ok [("en", VDict [("field", VStr "A")]);
        ("fi", VDict [("field", VStr "B")])] /\
  Spec.resolve (H := demo) (depth doc_i18n) "fi" doc_i18n
  = Some (VDict [("field", VStr "B")]) /\
  Spec.no_tags (VDict [("field", VStr "B")]) = true.
Proof.
  assert (Hrun : process_tags (H := demo) doc_i18n "en"
                 = Ok [("en", VDict [("field", VStr "A")]);
                       ("fi", VDict [("field", VStr "B")])])
    by (vm_compute; reflexivity).
  split; [exact Hrun|].
  exact (proj2 (proj2 (proj2
           (proj1 (proj2 (proj2 (process_tags_variants (H := demo)
                                   doc_i18n "en"))) _ Hrun)))
           "fi" (VDict [("field", VStr "B")]) eq_refl).
Defined.

(** [i18n] fields inside the elements of a sequence: the languages of
    both are harvested, and each variant has both elements, in order, with
    the field resolved for the language of the variant ([None] where the
    mapping has no content for it). *)
Lemma process_tags_nested_example :
  Spec.languages (H := demo) (depth doc_nested) "en" doc_nested
  = ["en"; "fi"; "sv"] /\
  (exists root,
      process_tags (H := demo) doc_nested "en" = Ok root /\
      dict_get "en" root
      = Some (VDict [("items", VList [VDict [("name", VStr "A")];
                                      VDict [("name", VNone)]])]) /\
      dict_get "fi" root
      = Some (VDict [("items", VList [VDict [("name", VStr "B")];
                                      VDict [("name", VNone)]])]) /\
      dict_get "sv" root
      = Some (VDict [("items", VList [VDict [("name", VNone)];
                                      VDict [("name", VStr "C")]])]) /\
      length root = 3).
Proof.
  split; [vm_compute; reflexivity|].
  eexists. split; [vm_compute; reflexivity|].
  repeat split; vm_compute; reflexivity.
Qed.

End TagDocumentsExamples.
